(** * QR card generator: the batch worker and its helpers

    A shallow embedding of the parts of [config_manager.py] that the
    specification's testable properties are about:

    - [detect_data_type], [get_template_name], [get_template_function];
    - [create_gradient] (with Python's double-precision arithmetic);
    - [extract_colors_from_logo] (the Counter-based fallback);
    - [start_generation] and [QRWorker.run] over an explicit world
      (files and directories of the disk, history list, the two
      signal channels);
    - [get_template_function] once more over the stored templates as
      [json.load] returns them ([Stored]);
    - [hex_to_rgb], [normalize_palette], the colour controls
      ([toggle_custom_colors], [on_theme_preset_changed]);
    - [ConfigManager] and the window's stores on the same disk;
    - [TemplateDialog], [add_template_dialog], [edit_template_dialog];
    - [test_qr], [update_preview], and the geometry of the eight
      built-in templates.

    Python [str] values are Rocq strings holding the UTF-8 bytes of the
    text.  Exceptions are explicit: a computation yields [Ok v] or
    [Raise e], where [e] tells whether the exception derives from
    [Exception] and carries its text [str(e)]. *)

From stdpp Require Import gmap strings.
From Stdlib Require Import ZArith QArith Qpower Qround Lia Lqa.
From Stdlib Require Import Floats.SpecFloat.
From Stdlib Require Import String Ascii List DecimalString DecimalNat.
Import ListNotations.

Close Scope Q_scope.
Local Open Scope string_scope.

(* ===================================================================== *)
(** * Part I: the embedding                                               *)
(* ===================================================================== *)

(** ** Python strings *)

Module PyStr.

(** [s.startswith(pre)] *)
Definition startswith (s pre : string) : bool := String.prefix pre s.

(** A string given by its bytes. *)
Definition bytes (l : list nat) : string :=
fold_right (fun n s => String (ascii_of_nat n) s) EmptyString l.

(** The characters [str.strip()] removes (those with [isspace()]), in
    UTF-8: U+0009..U+000D, U+001C..U+001F, U+0020, U+0085, U+00A0,
    U+1680, U+2000..U+200A, U+2028, U+2029, U+202F, U+205F, U+3000. *)
Definition whitespace : list string :=
map bytes
  (app [[9]; [10]; [11]; [12]; [13]; [28]; [29]; [30]; [31]; [32];
        [194; 133]; [194; 160]; [225; 154; 128]]
  (app (map (fun k => [226; 128; 128 + k]) (seq 0 11))
       [[226; 128; 168]; [226; 128; 169]; [226; 128; 175];
        [226; 129; 159]; [227; 128; 128]]))%nat.

Fixpoint drop (n : nat) (s : string) : string :=
match n, s with
| O, _ => s
| S _, EmptyString => EmptyString
| S k, String _ r => drop k r
end.

Fixpoint rev_append (s acc : string) : string :=
match s with
| EmptyString => acc
| String c r => rev_append r (String c acc)
end.

Definition rev (s : string) : string := rev_append s EmptyString.

(** Remove leading members of [ws]; the fuel bounds the number of
    removals by the length of the string. *)
Fixpoint lstrip_with (ws : list string) (fuel : nat) (s : string) : string :=
match fuel with
| O => s
| S f =>
    match List.find (fun w => String.prefix w s) ws with
    | Some w => lstrip_with ws f (drop (String.length w) s)
    | None => s
    end
end.

Definition lstrip (s : string) : string :=
lstrip_with whitespace (String.length s) s.

Definition rstrip (s : string) : string :=
rev (lstrip_with (map rev whitespace) (String.length s) (rev s)).

(** [s.strip()] *)
Definition strip (s : string) : string := rstrip (lstrip s).

(** [f.readlines()] of a text-mode file (universal newlines): the text
    is cut after every [\n], [\r\n] or [\r], each of which is read as
    [\n] and kept at the end of its line. *)
Fixpoint readlines_go (s : string) (cur : string) : list string :=
match s with
| EmptyString =>
    match cur with EmptyString => [] | _ => [rev cur] end
| String c r =>
    if Ascii.eqb c "010"%char then
      rev (String "010"%char cur) :: readlines_go r EmptyString
    else if Ascii.eqb c "013"%char then
      match r with
      | String c' r' =>
          if Ascii.eqb c' "010"%char
          then rev (String "010"%char cur) :: readlines_go r' EmptyString
          else rev (String "010"%char cur) :: readlines_go r EmptyString
      | EmptyString => [rev (String "010"%char cur)]
      end
    else readlines_go r (String c cur)
end.

Definition readlines (s : string) : list string := readlines_go s EmptyString.

(** [str(n)] and [f"{n}"] for a non-negative integer. *)
Definition str_nat (n : nat) : string := NilEmpty.string_of_uint (Nat.to_uint n).

(** [s.lower()] on the ASCII letters (the only ones in the three
    output formats whose extension is ever used). *)
Definition lower_char (c : ascii) : ascii :=
let n := nat_of_ascii c in
if (65 <=? n)%nat && (n <=? 90)%nat then ascii_of_nat (n + 32) else c.

Fixpoint lower (s : string) : string :=
match s with
| EmptyString => EmptyString
| String c r => String (lower_char c) (lower r)
end.

Fixpoint last_char (s : string) : option ascii :=
match s with
| EmptyString => None
| String c EmptyString => Some c
| String _ r => last_char r
end.

End PyStr.

(** ** [os.path.join] with two arguments (posixpath) *)

Definition os_path_join (a b : string) : string :=
if PyStr.startswith b "/" then b
else if String.eqb a "" || (match PyStr.last_char a with
                            | Some c => Ascii.eqb c "/"%char
                            | None => false
                            end)
then a ++ b
else a ++ "/" ++ b.

(** ** [os.path.dirname] (posixpath) *)

(** [p[:p.rfind('/') + 1]]: the text up to and including its last slash. *)
Fixpoint upto_last_slash (p : string) : string :=
match p with
| EmptyString => EmptyString
| String c r =>
    if Ascii.eqb c "/"%char then String c (upto_last_slash r)
    else
      match upto_last_slash r with
      | EmptyString => EmptyString
      | rest => String c rest
      end
end.

(** [head.rstrip('/')] *)
Fixpoint rstrip_slash (head : string) : string :=
match head with
| EmptyString => EmptyString
| String c r =>
    match rstrip_slash r with
    | EmptyString => if Ascii.eqb c "/"%char then EmptyString else String c EmptyString
    | rest => String c rest
    end
end.

(** A head that is empty or made of slashes only is returned as it is. *)
Definition os_path_dirname (p : string) : string :=
let head := upto_last_slash p in
match rstrip_slash head with
| EmptyString => head
| stripped => stripped
end.

(** The directories above [path], nearest first: [dirname] taken again
    and again until nothing is left or nothing changes.  Every turn
    shortens the text, so [fuel = len(path)] turns are enough. *)
Fixpoint above (fuel : nat) (path : string) : list string :=
match fuel with
| O => []
| S fuel' =>
    let head := os_path_dirname path in
    if String.eqb head "" || String.eqb head path then []
    else head :: above fuel' head
end.

(** ** Exceptions

    Of an exception the code looks at two things: whether its class
    derives from [Exception], which is what [except Exception] catches,
    and its text [str(e)].  [SystemExit], [KeyboardInterrupt] and
    [GeneratorExit] do not derive from [Exception]: only a [finally]
    and a bare [except] see them. *)

Inductive exn : Type :=
| Exception (text : string)
| BaseException (text : string).

Inductive result (A : Type) : Type :=
| Ok (a : A)
| Raise (e : exn).
Arguments Ok {A} a.
Arguments Raise {A} e.

(** ** [detect_data_type] *)

Definition detect_data_type (data : string) : string :=
if PyStr.startswith data "WIFI:" then data
else if PyStr.startswith data "TEL:" then data
else if PyStr.startswith data "mailto:" then data
else if PyStr.startswith data "http" then data
else
  if negb (PyStr.startswith data "http://" || PyStr.startswith data "https://")
  then "https://" ++ data
  else data.


(** ** Python floats

    A [float] is an IEEE 754 binary64 number; the finite ones are
    rationals.  Every arithmetic operation returns the exact result
    rounded to the nearest double, ties to the even significand: the
    result is an integer multiple of [2 ^ e], where [e] is the exponent
    of the last place of the exact value ([fexp64]: 53 significant
    bits, and never below [2 ^ -1074], the spacing of the subnormal
    numbers).  Overflow to infinity needs a value of at least [2 ^ 1024]
    and does not arise from the operands met here. *)

Module PyFloat.

(** [floor (log2 x)] for a positive rational. *)
Definition Qlog2 (x : Q) : Z :=
let k := (Z.log2 (Qnum x) - Z.log2 (Zpos (Qden x)))%Z in
if Qle_bool (2 ^ k) x then k else (k - 1)%Z.

Definition fexp64 (x : Q) : Z := Z.max (Qlog2 x - 52) (-1074).

(** Nearest integer, ties to even. *)
Definition Qrne (x : Q) : Z :=
let f := Qfloor x in
match Qcompare (x - inject_Z f) (1 # 2) with
| Lt => f
| Gt => (f + 1)%Z
| Eq => if Z.even f then f else (f + 1)%Z
end.

Definition round_pos (x : Q) : Q :=
let e := fexp64 x in (inject_Z (Qrne (x / 2 ^ e)) * 2 ^ e)%Q.

(** Round to nearest double. *)
Definition RN (x : Q) : Q :=
match Qnum x with
| Z0 => 0%Q
| Zpos _ => round_pos x
| Zneg _ => (- round_pos (- x))%Q
end.

(** [float(a)] for an [int]. *)
Definition float_of_int (a : Z) : Q := RN (inject_Z a).

(** [a / b] for two [int]s, [b] not zero (true division, correctly
    rounded). *)
Definition truediv (a b : Z) : Q := RN (inject_Z a / inject_Z b).

Definition fmul (x y : Q) : Q := RN (x * y).
Definition fadd (x y : Q) : Q := RN (x + y).
Definition fsub (x y : Q) : Q := RN (x - y).

(** [int(x)]: truncation toward zero. *)
Definition int_of_float (x : Q) : Z :=
if Qle_bool 0 x then Qfloor x else Qceiling x.

End PyFloat.

(** The same operations as the Standard Library specifies them for
    binary64 ([SpecFloat], precision 53, [emax] 1024), to compare
    with. *)

Module Binary64.

Definition of_int (z : Z) : spec_float := binary_normalize 53 1024 z 0 false.

(** The rational a finite float stands for. *)
Definition value (f : spec_float) : Q :=
match f with
| S754_finite s m e => ((if s then -1 else 1) * inject_Z (Zpos m) * 2 ^ e)%Q
| _ => 0%Q
end.

Definition div (x y : spec_float) : spec_float := SFdiv 53 1024 x y.
Definition mul (x y : spec_float) : spec_float := SFmul 53 1024 x y.
Definition add (x y : spec_float) : spec_float := SFadd 53 1024 x y.
Definition sub (x y : spec_float) : spec_float := SFsub 53 1024 x y.

End Binary64.

(** ** Colours and [create_gradient] *)

Definition rgb : Type := Z * Z * Z.

(** An ['RGB'] pixel buffer: [height] rows of [width] pixels. *)
Abbreviation raster := (list (list rgb)).

(** [Image.new('RGB', (width, height))]: all black. *)
Definition Image_new (width height : nat) : raster :=
repeat (repeat (0, 0, 0)%Z width) height.

(** [draw.line([(0, y), (width, y)], fill)]: the whole row [y]; rows
    outside the buffer are clipped away. *)
Definition draw_row (width : nat) (base : raster) (y : nat) (fill : rgb) : raster :=
<[y := repeat fill width]> base.

(** [draw.line([(x, 0), (x, height)], fill)]: the whole column [x]. *)
Definition draw_column (base : raster) (x : nat) (fill : rgb) : raster :=
map (fun row => <[x := fill]> row) base.

(** [c1 * (1 - ratio) + c2 * ratio] for [int]s [c1], [c2] and a float
    [ratio]: a float. *)
Definition blend_value (c1 c2 : Z) (ratio : Q) : Q :=
PyFloat.fadd
  (PyFloat.fmul (PyFloat.float_of_int c1)
                (PyFloat.fsub (PyFloat.float_of_int 1) ratio))
  (PyFloat.fmul (PyFloat.float_of_int c2) ratio).

(** [int(c1 * (1 - ratio) + c2 * ratio)] *)
Definition blend (c1 c2 : Z) (ratio : Q) : Z :=
PyFloat.int_of_float (blend_value c1 c2 ratio).

(** The floor of the exact value of [c1 * (1 - ratio) + c2 * ratio] at
    scanline [i] out of [extent]. *)
Definition exact_blend (c1 c2 : Z) (extent i : nat) : Z :=
((c1 * (Z.of_nat extent - Z.of_nat i) + c2 * Z.of_nat i) / Z.of_nat extent)%Z.

(** The colour of scanline [i] out of [extent]. *)
Definition scanline (color1 color2 : rgb) (extent i : nat) : rgb :=
let ratio := PyFloat.truediv (Z.of_nat i) (Z.of_nat extent) in
match color1, color2 with
| (r1, g1, b1), (r2, g2, b2) =>
    (blend r1 r2 ratio, blend g1 g2 ratio, blend b1 b2 ratio)
end.

Definition create_gradient (width height : nat) (color1 color2 : rgb)
  (direction : string) : raster :=
let vertical := String.eqb direction "vertical" in
let extent := if vertical then height else width in
fold_left
  (fun base i =>
     let fill := scanline color1 color2 extent i in
     if vertical then draw_row width base i fill
     else draw_column base i fill)
  (seq 0 extent)
  (Image_new width height).

(** The colour of the pixel in column [x] of row [y]. *)
Definition pixel (img : raster) (x y : nat) : option rgb :=
match img !! y with
| Some row => row !! x
| None => None
end.

(** An RGB colour: three 8-bit channels. *)
Definition is_rgb (c : rgb) : Prop :=
match c with
| (r, g, b) => (0 <= r <= 255 /\ 0 <= g <= 255 /\ 0 <= b <= 255)%Z
end.

Definition red (c : rgb) : Z := fst (fst c).

Definition channels (c : rgb) : list Z :=
match c with
| (r, g, b) => [r; g; b]
end.

(** Non-decreasing, or non-increasing, along the list. *)
Definition monotonic (l : list Z) : Prop :=
(forall i j a b, (i <= j)%nat -> l !! i = Some a -> l !! j = Some b -> (a <= b)%Z)
\/ (forall i j a b, (i <= j)%nat -> l !! i = Some a -> l !! j = Some b -> (b <= a)%Z).

(** ** [extract_colors_from_logo] *)

Definition default_palette : list rgb :=
[(26, 35, 126); (74, 0, 224); (138, 43, 226)]%Z.

Definition rgb_eqb (c d : rgb) : bool :=
match c, d with
| (r1, g1, b1), (r2, g2, b2) => (r1 =? r2)%Z && (g1 =? g2)%Z && (b1 =? b2)%Z
end.

(** The pixels the fallback drops: near white or near black. *)
Definition near_white_or_black (p : rgb) : bool :=
match p with
| (r, g, b) =>
    ((240 <? r)%Z && (240 <? g)%Z && (240 <? b)%Z)
    || ((r <? 20)%Z && (g <? 20)%Z && (b <? 20)%Z)
end.

(** [sum(abs(color[i] - c[i]) for i in range(3))] *)
Definition color_distance (c d : rgb) : Z :=
match c, d with
| (r1, g1, b1), (r2, g2, b2) =>
    (Z.abs (r1 - r2) + Z.abs (g1 - g2) + Z.abs (b1 - b2))%Z
end.

(** [tuple(max(0, c - 40) for c in color)] *)
Definition darken (c : rgb) : rgb :=
match c with
| (r, g, b) => (Z.max 0 (r - 40), Z.max 0 (g - 40), Z.max 0 (b - 40))%Z
end.

(** [collections.Counter]: keys in the order of their first occurrence. *)
Fixpoint counter_add (c : rgb) (counts : list (rgb * nat)) : list (rgb * nat) :=
match counts with
| [] => [(c, 1%nat)]
| (k, n) :: rest =>
    if rgb_eqb k c then (k, S n) :: rest else (k, n) :: counter_add c rest
end.

Definition Counter (pixels : list rgb) : list (rgb * nat) :=
fold_left (fun counts p => counter_add p counts) pixels [].

(** Stable sort by decreasing count. *)
Fixpoint insert_by_count (x : rgb * nat) (sorted : list (rgb * nat)) : list (rgb * nat) :=
match sorted with
| [] => [x]
| y :: rest =>
    if (snd x <? snd y)%nat then y :: insert_by_count x rest else x :: y :: rest
end.

(** [counts.most_common(n)]: the [n] most frequent, ties in the order
    of first occurrence. *)
Definition most_common (n : nat) (counts : list (rgb * nat)) : list (rgb * nat) :=
firstn n (fold_right insert_by_count [] counts).

(** The greedy selection loop, with its [break]. *)
Fixpoint select_colors (num_colors : nat) (candidates : list (rgb * nat))
  (selected : list rgb) : list rgb :=
match candidates with
| [] => selected
| (color, _) :: rest =>
    if match selected with [] => true | _ => false end
       || forallb (fun c => (80 <? color_distance color c)%Z) selected
    then
      let selected' := (selected ++ [color])%list in
      if (num_colors <=? length selected')%nat then selected'
      else select_colors num_colors rest selected'
    else select_colors num_colors rest selected
end.

(** [while len(selected) < num_colors: selected.append(darken(selected[0]))];
    each turn adds one entry, so [fuel = num_colors] turns are enough.
    [selected[0]] of an empty list raises IndexError. *)
Fixpoint pad_colors (fuel num_colors : nat) (selected : list rgb) : result (list rgb) :=
match fuel with
| O => Ok selected
| S f =>
    if (length selected <? num_colors)%nat then
      match selected with
      | [] => Raise (Exception "list index out of range")
      | first :: _ => pad_colors f num_colors (selected ++ [darken first])%list
      end
    else Ok selected
end.

(** The [else] branch: [pixels] is [img.getdata()] of the logo after
    [convert('RGB').resize((150, 150))]. *)
Definition fallback_palette (data : list rgb) (num_colors : nat) : result (list rgb) :=
let pixels := filter (fun p => negb (near_white_or_black p)) data in
let color_counts := Counter (match pixels with [] => data | _ => pixels end) in
let selected := select_colors num_colors (most_common (num_colors * 5) color_counts) [] in
match pad_colors num_colors num_colors selected with
| Ok selected' => Ok (firstn num_colors selected')
| Raise e => Raise e
end.

Section ExtractColors.

(** [COLOR_THIEF_SUPPORT], [ColorThief(path).get_palette(color_count=n)],
    and the pixels of [Image.open(path).convert('RGB').resize((150, 150))]. *)
Variable COLOR_THIEF_SUPPORT : bool.
Variable get_palette : string -> nat -> result (list rgb).
Variable open_resized : string -> result (list rgb).

Definition extract_colors_from_logo (logo_path : string) (num_colors : nat) : list rgb :=
let body :=
  if COLOR_THIEF_SUPPORT then get_palette logo_path num_colors
  else
    match open_resized logo_path with
    | Ok data => fallback_palette data num_colors
    | Raise e => Raise e
    end in
match body with
| Ok palette => palette
| Raise _ => default_palette
end.

End ExtractColors.

(** No two entries within summed channel distance 80 of each other. *)
Definition pairwise_far (palette : list rgb) : Prop :=
forall i j c d, i <> j -> palette !! i = Some c -> palette !! j = Some d ->
  (80 < color_distance c d)%Z.

(** ** The worker's world *)

Section Worker.

(** The encoder's symbol ([segno.make]) and PIL images are opaque. *)
Context {QRCode Image : Type}.

(** What a path on disk holds. *)
Inductive file : Type :=
| TextFile (content : string)
| BitmapFile (img : Image)
| CardFile (format : string) (quality : Z) (img : Image).

(** The [text_settings] dict handed to a template. *)
Record text_settings : Type := {
  ts_title : string;
  ts_subtitle : string;
  ts_title_font_size : Z;
  ts_subtitle_font_size : Z;
  ts_name_font_size : Z;
  ts_text_color : string
}.

(** The Template Contract:
    [(qr_img, file_name, colors, logo_path, text_settings) -> final_img].
    A template may read the disk (logo, fonts) and may raise; it does
    not write. *)
Definition template : Type :=
gmap string file -> Image -> string -> list rgb -> option string ->
text_settings -> result Image.

(** An entry of [custom_templates]. *)
Record custom_template : Type := {
  ct_id : Z;
  ct_name : string;
  ct_description : string;
  ct_code : string
}.

(** An entry of [history]. *)
Record history_record : Type := {
  h_date : string;
  h_template : string;
  h_count : nat;
  h_output_dir : string
}.

(** The calls the operating system may refuse. *)
Inductive os_call : Type :=
| Makedirs (path : string)
| OpenWrite (path : string)
| SaveImage (path : string) (format : string) (img : Image).

(** Everything outside the worker. *)
Record collaborators : Type := {
  (** [segno.make(data, error='h')] *)
  segno_make : string -> result QRCode;
  (** the PNG that [qr.save(path, scale=.., dark=.., light=.., border=1)] writes *)
  qr_save : QRCode -> Z -> result Image;
  (** the name [tempfile.mkstemp(suffix='.png')] picks on this disk *)
  mkstemp : gmap string file -> string;
  (** [Some e]: the call raises OSError with text [e] *)
  fault : gmap string file -> os_call -> option string;
  (** [os.path.exists(path)] on a disk with these files and directories *)
  path_exists : gmap string file -> gset string -> string -> bool;
  (** the text of the exception when a path cannot be read as asked *)
  read_error : gmap string file -> string -> string;
  (** [exec(code, namespace)]: the names the code binds, or its exception *)
  py_exec : string -> result (gmap string template);
  template_modern_gradient : template;
  template_glassmorphism : template;
  template_neon_cyberpunk : template;
  template_minimalist : template;
  template_3d_card : template;
  template_aurora_glow : template;
  template_split_contrast : template;
  template_sunrise_spotlight : template;
  (** [datetime.now().strftime("%Y-%m-%d %H:%M:%S")] *)
  now : string;
  (** [json.dump(history, f, indent=4)] *)
  json_dump : list history_record -> string
}.

(** The fields of the main window that the worker reads. *)
Record parent : Type := {
  input_file : string;
  output_dir : string;
  logo_file : string;
  name_prefix : string;
  title_text : string;
  subtitle_text : string;
  title_font_size : Z;
  subtitle_font_size : Z;
  name_font_size : Z;
  text_color : string;
  qr_scale : Z;
  output_format : string;
  output_quality : Z;
  selected_template : Z;
  custom_templates : list custom_template;
  use_custom_colors : bool;
  custom_colors : list (option rgb);
  theme_colors : list rgb;
  (** [config_storage.base_dir] *)
  base_dir : string
}.

(** What a run can change: the files and the directories of the disk,
    [parent.history], and what has been emitted on [signals.progress]
    and [signals.finished]. *)
Record world : Type := {
  disk : gmap string file;
  dirs : gset string;
  history : list history_record;
  progress : list Z;
  finished : list (bool * string)
}.

Definition set_disk (f : gmap string file -> gmap string file) (w : world) : world :=
{| disk := f (disk w); dirs := dirs w; history := history w;
   progress := progress w; finished := finished w |}.

(** ** Statements that may raise *)

Definition M (A : Type) : Type := world -> result A * world.

Definition ret {A} (a : A) : M A := fun w => (Ok a, w).

Definition bind {A B} (m : M A) (k : A -> M B) : M B :=
fun w =>
  match m w with
  | (Ok a, w') => k a w'
  | (Raise e, w') => (Raise e, w')
  end.

Definition lift {A} (r : result A) : M A := fun w => (r, w).

(** [try: body finally: cleanup] *)
Definition try_finally {A} (body : M A) (cleanup : world -> world) : M A :=
fun w => match body w with (r, w') => (r, cleanup w') end.

(** [try: body except Exception as e: handler(str(e))]; an exception
    that does not derive from [Exception] is not caught and leaves the
    statement. *)
Definition try_except {A} (body : M A) (handler : string -> M A) : M A :=
fun w =>
  match body w with
  | (Ok a, w') => (Ok a, w')
  | (Raise (Exception text), w') => handler text w'
  | (Raise (BaseException text), w') => (Raise (BaseException text), w')
  end.

(** [x <- m ;; k]: run [m], name its value, go on with [k];
    [m ;;; k]: the same for a statement without a value. *)
Notation "x <- m ;; k" := (bind m (fun x => k))
  (at level 100, m at next level, right associativity).
Notation "m ;;; k" := (bind m (fun _ => k))
  (at level 100, k at level 200, right associativity).

(** [for x in xs: body(x)] *)
Fixpoint for_each {A} (xs : list A) (body : A -> M unit) : M unit :=
match xs with
| [] => ret tt
| x :: rest => body x ;;; for_each rest body
end.

(** [enumerate(xs, start)] *)
Fixpoint enumerate {A} (start : nat) (xs : list A) : list (nat * A) :=
match xs with
| [] => []
| x :: rest => (start, x) :: enumerate (S start) rest
end.

Variable env : collaborators.

(** ** Signals and files *)

Definition emit_progress (value : Z) : M unit :=
fun w => (Ok tt, {| disk := disk w; dirs := dirs w; history := history w;
                    progress := (progress w ++ [value])%list;
                    finished := finished w |}).

Definition emit_finished (success : bool) (message : string) : M unit :=
fun w => (Ok tt, {| disk := disk w; dirs := dirs w; history := history w;
                    progress := progress w;
                    finished := (finished w ++ [(success, message)])%list |}).

(** [os.makedirs(path, exist_ok=True)]: when the call returns, [path]
    and the directories above it are there. *)
Definition os_makedirs (path : string) : M unit :=
fun w =>
  match fault env (disk w) (Makedirs path) with
  | Some e => (Raise (Exception e), w)
  | None =>
      (Ok tt, {| disk := disk w;
                 dirs := list_to_set (path :: above (String.length path) path) ∪ dirs w;
                 history := history w; progress := progress w; finished := finished w |})
  end.

(** [open(path, 'r', encoding='utf-8')] followed by [f.readlines()] *)
Definition read_lines (path : string) : M (list string) :=
fun w =>
  match disk w !! path with
  | Some (TextFile content) => (Ok (PyStr.readlines content), w)
  | _ => (Raise (Exception (read_error env (disk w) path)), w)
  end.

(** [open(path, 'w', encoding='utf-8')]: the file is created or emptied. *)
Definition open_write (path : string) : M unit :=
fun w =>
  match fault env (disk w) (OpenWrite path) with
  | Some e => (Raise (Exception e), w)
  | None => (Ok tt, set_disk (insert path (TextFile "")) w)
  end.

Definition append_text (s : string) (f : file) : file :=
match f with
| TextFile content => TextFile (content ++ s)
| other => other
end.

(** [out_f.write(s)] on the file opened at [path] *)
Definition write_text (path s : string) : M unit :=
fun w => (Ok tt, set_disk (alter (append_text s) path) w).

(** [tempfile.mkstemp(suffix='.png')] and [os.close(temp_fd)]: an empty
    file under a new name. *)
Definition make_temp : M string :=
fun w =>
  let name := mkstemp env (disk w) in
  (Ok name, set_disk (insert name (TextFile "")) w).

(** [qr.save(path, scale=scale, ...)] *)
Definition save_qr (qr : QRCode) (path : string) (scale : Z) : M unit :=
fun w =>
  match qr_save env qr scale with
  | Ok img => (Ok tt, set_disk (insert path (BitmapFile img)) w)
  | Raise e => (Raise e, w)
  end.

(** [Image.open(path)] *)
Definition Image_open (path : string) : M Image :=
fun w =>
  match disk w !! path with
  | Some (BitmapFile img) => (Ok img, w)
  | Some (CardFile _ _ img) => (Ok img, w)
  | _ => (Raise (Exception (read_error env (disk w) path)), w)
  end.

(** [img.save(path, format=format, quality=quality)] *)
Definition Image_save (img : Image) (path format : string) (quality : Z) : M unit :=
fun w =>
  match fault env (disk w) (SaveImage path format img) with
  | Some e => (Raise (Exception e), w)
  | None => (Ok tt, set_disk (insert path (CardFile format quality img)) w)
  end.

(** [if os.path.exists(path): os.unlink(path)] *)
Definition unlink_if_exists (path : string) (w : world) : world :=
set_disk (delete path) w.

(** ** Template lookup *)

Definition get_template_name (p : parent) : string :=
let id := selected_template p in
if (id =? 1)%Z then "Modern Gradient"
else if (id =? 2)%Z then "Glassmorphism"
else if (id =? 3)%Z then "Neon Cyberpunk"
else if (id =? 4)%Z then "Minimalist"
else if (id =? 5)%Z then "3D Luxury"
else if (id =? 6)%Z then "Aurora Glow"
else if (id =? 7)%Z then "Split Contrast"
else if (id =? 8)%Z then "Sunrise Spotlight"
else
  match List.find (fun t => (ct_id t =? id)%Z) (custom_templates p) with
  | Some t => ct_name t
  | None => "Custom"
  end.

(** The body of the [try] for one stored template, with its bare
    [except].  Here and in [get_template_name] the stored templates are
    the dicts the dialogs write; [Stored] below follows any entry. *)
Definition load_custom (t : custom_template) : result template :=
match py_exec env (ct_code t) with
| Ok namespace =>
    Ok (default (template_modern_gradient env) (namespace !! "template_custom"))
| Raise _ => Ok (template_modern_gradient env)
end.

(** The loop over [custom_templates]. *)
Fixpoint find_custom (selected : Z) (templates : list custom_template) : result template :=
match templates with
| [] => Ok (template_modern_gradient env)
| t :: rest =>
    if (ct_id t =? selected)%Z then load_custom t
    else find_custom selected rest
end.

Definition get_template_function (p : parent) : result template :=
let id := selected_template p in
if (id =? 1)%Z then Ok (template_modern_gradient env)
else if (id =? 2)%Z then Ok (template_glassmorphism env)
else if (id =? 3)%Z then Ok (template_neon_cyberpunk env)
else if (id =? 4)%Z then Ok (template_minimalist env)
else if (id =? 5)%Z then Ok (template_3d_card env)
else if (id =? 6)%Z then Ok (template_aurora_glow env)
else if (id =? 7)%Z then Ok (template_split_contrast env)
else if (id =? 8)%Z then Ok (template_sunrise_spotlight env)
else find_custom id (custom_templates p).

(** ** [QRWorker.run] *)

(** [[line.strip() for line in f.readlines() if line.strip()]] *)
Definition stripped_lines (lines : list string) : list string :=
filter (fun s => negb (String.eqb s "")) (map PyStr.strip lines).

(** [(index / total) * 100], a float *)
Definition scaled (index total : nat) : Q :=
PyFloat.fmul (PyFloat.truediv (Z.of_nat index) (Z.of_nat total))
             (PyFloat.float_of_int 100).

(** [int((index / total) * 100)] *)
Definition percent (index total : nat) : Z :=
PyFloat.int_of_float (scaled index total).

(** [all(custom_colors)]: every entry is a colour, none is [None]. *)
Fixpoint all_colors (cs : list (option rgb)) : option (list rgb) :=
match cs with
| [] => Some []
| Some c :: rest =>
    match all_colors rest with
    | Some l => Some (c :: l)
    | None => None
    end
| None :: _ => None
end.

Definition job_colors (p : parent) : list rgb :=
if use_custom_colors p then
  match all_colors (custom_colors p) with
  | Some cs => cs
  | None => theme_colors p
  end
else theme_colors p.

Definition job_text_settings (p : parent) : text_settings :=
{| ts_title := title_text p;
   ts_subtitle := subtitle_text p;
   ts_title_font_size := title_font_size p;
   ts_subtitle_font_size := subtitle_font_size p;
   ts_name_font_size := name_font_size p;
   ts_text_color := text_color p |}.

(** [f"{name_prefix} {index}"] *)
Definition label (p : parent) (index : nat) : string :=
name_prefix p ++ " " ++ PyStr.str_nat index.

Definition formatted_file (p : parent) : string :=
os_path_join (output_dir p) "formatted_links.txt".

(** What one record adds to that file: label, newline, the payload
    between backticks, two newlines. *)
Definition entry (p : parent) (index : nat) (link : string) : string :=
label p index ++ PyStr.bytes [10] ++ "`" ++ link ++ "`" ++ PyStr.bytes [10; 10].

(** The entries of consecutive records, the first numbered [start]. *)
Fixpoint entries (p : parent) (start : nat) (links : list string) : string :=
match links with
| [] => ""
| link :: rest => entry p start link ++ entries p (S start) rest
end.

(** The formats for which the [if]/[elif] chain saves a card. *)
Definition card_format (p : parent) : Prop :=
output_format p = "PNG" \/ output_format p = "JPG" \/ output_format p = "WEBP".

(** [os.path.join(output_dir, f"{template_name}_{file_name}.{output_format.lower()}")] *)
Definition output_file (p : parent) (index : nat) : string :=
os_path_join (output_dir p)
  (get_template_name p ++ "_" ++ label p index ++ "." ++ PyStr.lower (output_format p)).

(** The [if]/[elif] chain over [output_format]; any other format
    saves nothing. *)
Definition save_card (p : parent) (final_img : Image) (path : string) : M unit :=
if String.eqb (output_format p) "PNG" then
  Image_save final_img path "PNG" (output_quality p)
else if String.eqb (output_format p) "JPG" then
  Image_save final_img path "JPEG" (output_quality p)
else if String.eqb (output_format p) "WEBP" then
  Image_save final_img path "WEBP" (output_quality p)
else ret tt.

(** The inner [try] block of one record. *)
Definition render_record (p : parent) (template_func : template) (total : nat)
  (index : nat) (qr : QRCode) (temp_qr : string) : M unit :=
save_qr qr temp_qr (qr_scale p) ;;;
qr_img <- Image_open temp_qr ;;
final_img <- (fun w =>
                (template_func (disk w) qr_img (label p index) (job_colors p)
                   (if String.eqb (logo_file p) "" then None else Some (logo_file p))
                   (job_text_settings p), w)) ;;
save_card p final_img (output_file p index) ;;;
emit_progress (percent index total).

(** The body of the [for] loop. *)
Definition record_body (p : parent) (template_func : template) (total : nat)
  (record : nat * string) : M unit :=
let index := fst record in
let link := snd record in
write_text (formatted_file p) (entry p index link) ;;;
qr <- lift (segno_make env (detect_data_type link)) ;;
temp_qr <- make_temp ;;
try_finally (render_record p template_func total index qr temp_qr)
            (unlink_if_exists temp_qr).

(** The name [mkstemp] hands a record for its bitmap, on the world in
    which the record's body starts. *)
Definition temp_of (p : parent) (index : nat) (link : string) (w : world) : string :=
mkstemp env (disk (snd (write_text (formatted_file p) (entry p index link) w))).

(** What one turn of the loop adds to [signals.progress]. *)
Definition emitted (total : nat) (r : result unit) (index : nat) : list Z :=
match r with
| Ok _ => [percent index total]
| Raise _ => []
end.

Definition history_file (p : parent) : string :=
os_path_join (base_dir p) "qr_generator_history.json".

Definition append_history (r : history_record) : M unit :=
fun w => (Ok tt, {| disk := disk w; dirs := dirs w;
                    history := (history w ++ [r])%list;
                    progress := progress w; finished := finished w |}).

(** [parent.save_history()]: a failure is printed and swallowed. *)
Definition save_history (p : parent) : M unit :=
fun w =>
  match fault env (disk w) (OpenWrite (history_file p)) with
  | Some _ => (Ok tt, w)
  | None =>
      (Ok tt, set_disk (insert (history_file p) (TextFile (json_dump env (history w)))) w)
  end.

Definition success_message (total : nat) (dir : string) : string :=
"✅ Generated " ++ PyStr.str_nat total ++ " QR codes successfully!"
++ PyStr.bytes [10; 10] ++ "📁 Path: " ++ dir.

Definition failure_message (e : string) : string :=
"❌ Failed to generate QR codes:" ++ PyStr.bytes [10] ++ e.

(** The statements of [run] up to the [for] loop; they hand the loop
    its records and its template. *)
Definition prologue (p : parent) : M (list string * template) :=
os_makedirs (output_dir p) ;;;
lines <- read_lines (input_file p) ;;
let links := stripped_lines lines in
emit_progress 0 ;;;
template_func <- lift (get_template_function p) ;;
open_write (formatted_file p) ;;;
ret (links, template_func).

(** The [for] loop over [enumerate(links, start=1)]. *)
Definition records_loop (p : parent) (links : list string) (template_func : template) : M unit :=
for_each (enumerate 1 links) (record_body p template_func (length links)).

(** The statements after the loop. *)
Definition epilogue (p : parent) (total : nat) : M unit :=
append_history {| h_date := now env;
                  h_template := get_template_name p;
                  h_count := total;
                  h_output_dir := output_dir p |} ;;;
save_history p ;;;
emit_finished true (success_message total (output_dir p)).

(** The body of the outer [try]. *)
Definition job (p : parent) : M unit :=
ctx <- prologue p ;;
records_loop p (fst ctx) (snd ctx) ;;;
epilogue p (length (fst ctx)).

Definition run (p : parent) (w : world) : world :=
snd (try_except (job p) (fun e => emit_finished false (failure_message e)) w).

(** ** [start_generation] *)

Inductive started : Type :=
| Warning (message : string) (w : world)
| Launched (w : world).

(** The two checks, then the worker, which is followed to its end.
    [os.path.exists] holds of a directory as it does of a file, and of
    every spelling of a path that the operating system resolves. *)
Definition start_generation (p : parent) (w : world) : started :=
if String.eqb (input_file p) "" then Warning "Please select input file" w
else if negb (path_exists env (disk w) (dirs w) (input_file p)) then
  Warning "Input file does not exist" w
else Launched (run p w).

(** ** What a run is to leave behind

    The texts and the cards as the specification words them, against
    which the worker above is checked. *)

(** [formatted_links.txt]: for each record in input order, the label
    (prefix, a space, the index counted from 1) on a line of its own,
    the payload as read between backticks, and an empty line. *)
Definition formatted_links (prefix : string) (links : list string) : string :=
String.concat ""
  (map (fun record : nat * string =>
          prefix ++ " " ++ PyStr.str_nat (fst record)
          ++ String "010" ("`" ++ snd record ++ "`" ++ String "010" (String "010" "")))
       (enumerate 1 links)).

(** The card of the record [index] with payload [link]: the picture
    that [template_func] returns for the bitmap of the symbol of the
    normalised payload, the record's label, the colours, the logo when
    there is one and the text settings of the window; saved as PNG,
    JPEG or WEBP with the chosen quality. *)
Definition card_of (p : parent) (template_func : template) (colors : list rgb)
  (index : nat) (link : string) (f : file) : Prop :=
exists qr qr_img d final_img,
  segno_make env (detect_data_type link) = Ok qr
  /\ qr_save env qr (qr_scale p) = Ok qr_img
  /\ template_func d qr_img (name_prefix p ++ " " ++ PyStr.str_nat index) colors
       (if String.eqb (logo_file p) "" then None else Some (logo_file p))
       {| ts_title := title_text p;
          ts_subtitle := subtitle_text p;
          ts_title_font_size := title_font_size p;
          ts_subtitle_font_size := subtitle_font_size p;
          ts_name_font_size := name_font_size p;
          ts_text_color := text_color p |}
     = Ok final_img
  /\ (output_format p = "PNG" /\ f = CardFile "PNG" (output_quality p) final_img
      \/ output_format p = "JPG" /\ f = CardFile "JPEG" (output_quality p) final_img
      \/ output_format p = "WEBP" /\ f = CardFile "WEBP" (output_quality p) final_img).

End Worker.

Arguments file : clear implicits.
Arguments template : clear implicits.
Arguments collaborators : clear implicits.
Arguments world : clear implicits.
Arguments os_call : clear implicits.
Arguments M : clear implicits.
Arguments started : clear implicits.

(** ** The stored templates as [json.load] returns them

    [load_custom_templates] takes the list in [custom_templates.json]
    as it is.  An entry that the dialogs wrote is a dict with the keys
    ['id'], ['name'], ['description'] and ['code'], which is what
    [custom_template] above holds; in a file changed by hand an entry
    may lack keys, hold values of other types, or not be a dict.
    [get_template_function] reads ['id'] outside its [try] and ['code']
    inside it. *)

Module Stored.

(** The value under a key, as far as [==] with an int and [exec] tell
    values apart. *)
Inductive value : Type :=
| Number (z : Z)     (* an int, or a bool or a float equal to it *)
| Text (s : string)
| Other.             (* null, any other float, a list, a dict *)

(** An entry of the list: a dict, or a value that cannot be
    subscripted with a string, with the text of the TypeError that
    doing so raises. *)
Inductive entry : Type :=
| Dict (fields : gmap string value)
| NotDict (type_error : string).

(** [t[key]]; the text of [KeyError(key)] is the key between quotes. *)
Definition getitem (t : entry) (key : string) : result value :=
match t with
| Dict fields =>
    match fields !! key with
    | Some v => Ok v
    | None => Raise (Exception ("'" ++ key ++ "'"))
    end
| NotDict type_error => Raise (Exception type_error)
end.

(** [v == selected_template], the latter an int *)
Definition equals (v : value) (selected : Z) : bool :=
match v with
| Number z => (z =? selected)%Z
| _ => false
end.


Section Lookup.

Context {QRCode Image : Type} (env : collaborators QRCode Image).

(** The [try] block for one entry, with its bare [except]: a missing
    ['code'], a value that [exec] does not take, and whatever the code
    raises all give the built-in variant 1. *)
Definition load_custom (t : entry) : template Image :=
match getitem t "code" with
| Ok (Text code) =>
    match py_exec env code with
    | Ok namespace => default (template_modern_gradient env) (namespace !! "template_custom")
    | Raise _ => template_modern_gradient env
    end
| _ => template_modern_gradient env
end.

(** The loop over [custom_templates]; [template['id']] is read before
    the [try]. *)
Fixpoint find_custom (selected : Z) (templates : list entry) : result (template Image) :=
match templates with
| [] => Ok (template_modern_gradient env)
| t :: rest =>
    match getitem t "id" with
    | Ok id => if equals id selected then Ok (load_custom t) else find_custom selected rest
    | Raise e => Raise e
    end
end.

Definition get_template_function (selected_template : Z) (custom_templates : list entry)
  : result (template Image) :=
let id := selected_template in
if (id =? 1)%Z then Ok (template_modern_gradient env)
else if (id =? 2)%Z then Ok (template_glassmorphism env)
else if (id =? 3)%Z then Ok (template_neon_cyberpunk env)
else if (id =? 4)%Z then Ok (template_minimalist env)
else if (id =? 5)%Z then Ok (template_3d_card env)
else if (id =? 6)%Z then Ok (template_aurora_glow env)
else if (id =? 7)%Z then Ok (template_split_contrast env)
else if (id =? 8)%Z then Ok (template_sunrise_spotlight env)
else find_custom id custom_templates.

End Lookup.


End Stored.

(** ** A small concrete setting

    Collaborators that can be run: symbols and images are described by
    strings, the encoder and the operating system never fail, and a
    temporary name is longer than every name on the disk. *)

Module Demo.

Definition names (d : gmap string (file string)) : list string :=
map fst (map_to_list d).

Definition long_name (d : gmap string (file string)) : string :=
"/tmp/tmp" ++ String.concat "" (names d) ++ ".png".

(** A template that draws a card, and one that fails on the label
    [bad]. *)
Definition draw : template string :=
fun _ qr_img file_name _ _ _ => Ok ("card(" ++ file_name ++ "," ++ qr_img ++ ")").

Definition draw_unless (bad : string) : template string :=
fun d qr_img file_name colors logo ts =>
  if String.eqb file_name bad then Raise (Exception "cannot render")
  else draw d qr_img file_name colors logo ts.

(** A template that leaves the interpreter on the label [bad], as
    [raise SystemExit("stop")] does. *)
Definition exit_on (bad : string) : template string :=
fun d qr_img file_name colors logo ts =>
  if String.eqb file_name bad then Raise (BaseException "stop")
  else draw d qr_img file_name colors logo ts.

(** A path exists when it names a file, a directory that was made, or
    a directory with a file below it. *)
Definition exists_on (d : gmap string (file string)) (ds : gset string)
  (path : string) : bool :=
bool_decide (is_Some (d !! path)) || bool_decide (path ∈ ds)
|| existsb (fun name => PyStr.startswith name (path ++ "/")) (names d).

Definition env_with (modern : template string) : collaborators string string :=
{| segno_make := fun data => Ok data;
   qr_save := fun qr _ => Ok ("qr(" ++ qr ++ ")");
   mkstemp := long_name;
   fault := fun _ _ => None;
   path_exists := exists_on;
   read_error := fun d path =>
     if existsb (fun name => PyStr.startswith name (path ++ "/")) (names d)
     then "[Errno 21] Is a directory: '" ++ path ++ "'"
     else "[Errno 2] No such file or directory: '" ++ path ++ "'";
   py_exec := fun code =>
     if String.eqb code "def template_custom(*a): ..." then Ok {[ "template_custom" := draw ]}
     else if String.eqb code "x = 1" then Ok {[ "x" := draw ]}
     else Raise (Exception "invalid syntax");
   template_modern_gradient := modern;
   template_glassmorphism := draw;
   template_neon_cyberpunk := draw;
   template_minimalist := draw;
   template_3d_card := draw;
   template_aurora_glow := draw;
   template_split_contrast := draw;
   template_sunrise_spotlight := draw;
   now := "2024-01-01 00:00:00";
   json_dump := fun h => "[" ++ PyStr.str_nat (length h) ++ " records]" |}.

Definition env : collaborators string string := env_with draw.

(** The same, except that rendering the second record fails. *)
Definition failing : collaborators string string := env_with (draw_unless "VPN 2").

(** The same, except that rendering the second record leaves the
    interpreter. *)
Definition exiting : collaborators string string := env_with (exit_on "VPN 2").

(** The window as [__init__] leaves it, with an input file chosen, a
    selected template and the stored custom templates. *)
Definition window_with (selected : Z) (stored : list custom_template) : parent :=
{| input_file := "links.txt";
   output_dir := "qr_results";
   logo_file := "";
   name_prefix := "VPN";
   title_text := "VPN Configuration";
   subtitle_text := "Scan to Connect";
   title_font_size := 32;
   subtitle_font_size := 18;
   name_font_size := 24;
   text_color := "#FFFFFF";
   qr_scale := 15;
   output_format := "PNG";
   output_quality := 98;
   selected_template := selected;
   custom_templates := stored;
   use_custom_colors := false;
   custom_colors := [None; None; None];
   theme_colors := default_palette;
   base_dir := "/app" |}.

Definition window : parent := window_with 1 [].

(** The same window after another input path has been chosen. *)
Definition window_reading (path : string) : parent :=
{| input_file := path;
   output_dir := output_dir window;
   logo_file := logo_file window;
   name_prefix := name_prefix window;
   title_text := title_text window;
   subtitle_text := subtitle_text window;
   title_font_size := title_font_size window;
   subtitle_font_size := subtitle_font_size window;
   name_font_size := name_font_size window;
   text_color := text_color window;
   qr_scale := qr_scale window;
   output_format := output_format window;
   output_quality := output_quality window;
   selected_template := selected_template window;
   custom_templates := custom_templates window;
   use_custom_colors := use_custom_colors window;
   custom_colors := custom_colors window;
   theme_colors := theme_colors window;
   base_dir := base_dir window |}.

(** A disk that holds only the input file. *)
Definition world_with (content : string) : world string :=
{| disk := {[ "links.txt" := TextFile content ]};
   dirs := ∅;
   history := [];
   progress := [];
   finished := [] |}.

Definition nl : string := PyStr.bytes [10].

Definition three_links : string :=
"https://a.example" ++ nl ++ "WIFI:T:WPA;S:net;P:pw;;" ++ nl ++ "example.com" ++ nl.

(** Two logos of one colour each, as [resize((150, 150))] leaves them. *)
Definition open_resized (path : string) : result (list rgb) :=
if String.eqb path "white.png" then Ok (repeat (255, 255, 255)%Z (150 * 150))
else if String.eqb path "grey.png" then Ok (repeat (100, 100, 100)%Z (150 * 150))
else Raise (Exception "cannot identify image file").

Definition no_color_thief (path : string) (n : nat) : result (list rgb) :=
Raise (Exception "No module named 'colorthief'").

(** Blank lines only. *)
Definition blank_lines : string := nl ++ "  " ++ nl.

(** One hundred records. *)
Definition hundred_links : string :=
String.concat "" (repeat ("example.com" ++ nl) 100).

End Demo.

(** ** [int(text, 16)] and [hex_to_rgb]

    The text is ASCII, one character per byte, as [QColor.name()]
    writes a colour; [None] stands for the ValueError that [int]
    raises.  (In a text with characters outside ASCII, Python counts
    and slices characters where this model counts bytes.) *)

Module PyInt.

(** The characters [int] skips around the number: tab, line feed,
    vertical tab, form feed, carriage return, space. *)
Definition is_space (c : ascii) : bool :=
let n := nat_of_ascii c in
((9 <=? n)%nat && (n <=? 13)%nat) || (n =? 32)%nat.

Fixpoint skip_space (s : string) : string :=
match s with
| String c r => if is_space c then skip_space r else s
| EmptyString => EmptyString
end.

(** The value of a hexadecimal digit. *)
Definition digit16 (c : ascii) : option Z :=
let n := nat_of_ascii c in
if (48 <=? n)%nat && (n <=? 57)%nat then Some (Z.of_nat (n - 48))
else if (97 <=? n)%nat && (n <=? 102)%nat then Some (Z.of_nat (n - 87))
else if (65 <=? n)%nat && (n <=? 70)%nat then Some (Z.of_nat (n - 55))
else None.

(** The digits, with single underscores between them, as far as they
    go: their value, their number and the rest of the text.  Two
    underscores in a row and an underscore after the last digit are
    errors. *)
Fixpoint digits16 (s : string) (value : Z) (digits : nat) (after_underscore : bool)
  : option (Z * nat * string) :=
match s with
| String c r =>
    if Ascii.eqb c "_"%char then
      if after_underscore then None else digits16 r value digits true
    else
      match digit16 c with
      | Some d => digits16 r (16 * value + d)%Z (S digits) false
      | None => if after_underscore then None else Some (value, digits, s)
      end
| EmptyString => if after_underscore then None else Some (value, digits, EmptyString)
end.

(** [int(text, 16)]: white space, a sign, [0x] or [0X] (and one
    underscore after it), the digits, white space. *)
Definition int16 (text : string) : option Z :=
let s := skip_space text in
let (negative, s) :=
  match s with
  | String "+"%char r => (false, r)
  | String "-"%char r => (true, r)
  | _ => (false, s)
  end in
let s :=
  match s with
  | String "0"%char (String x r) =>
      if Ascii.eqb x "x"%char || Ascii.eqb x "X"%char then
        match r with
        | String "_"%char r' => r'
        | _ => r
        end
      else s
  | _ => s
  end in
match s with
| String "_"%char _ => None
| _ =>
    match digits16 s 0 0 false with
    | Some (value, digits, rest) =>
        if (digits =? 0)%nat then None
        else
          match skip_space rest with
          | EmptyString => Some (if negative then (- value)%Z else value)
          | _ => None
          end
    | None => None
    end
end.

End PyInt.

(** [s.lstrip('#')] *)
Fixpoint lstrip_hash (s : string) : string :=
match s with
| String c r => if Ascii.eqb c "#"%char then lstrip_hash r else s
| EmptyString => EmptyString
end.

(** [tuple(int(hex_color[i:i+2], 16) for i in (0, 2, 4))] after the
    leading [#]s are dropped; a slice past the end of the text is
    shorter, or empty. *)
Definition hex_to_rgb (hex_color : string) : option rgb :=
let hex_color := lstrip_hash hex_color in
match PyInt.int16 (substring 0 2 hex_color) with
| Some r =>
    match PyInt.int16 (substring 2 2 hex_color) with
    | Some g =>
        match PyInt.int16 (substring 4 2 hex_color) with
        | Some b => Some (r, g, b)
        | None => None
        end
    | None => None
    end
| None => None
end.

(** The text [QColor.name()] gives for a colour with channels from 0
    to 255: [#rrggbb], two lower-case hexadecimal digits a channel. *)
Definition hex_digit (v : Z) : ascii :=
if (v <? 10)%Z then ascii_of_nat (48 + Z.to_nat v) else ascii_of_nat (87 + Z.to_nat v).

Definition hex2 (v : Z) (rest : string) : string :=
String (hex_digit (v / 16)) (String (hex_digit (v mod 16)) rest).

Definition QColor_name (c : rgb) : string :=
match c with
| (r, g, b) => String "#"%char (hex2 r (hex2 g (hex2 b EmptyString)))
end.

(** A text of ASCII characters only. *)
Fixpoint is_ascii (s : string) : bool :=
match s with
| String c r => (nat_of_ascii c <? 128)%nat && is_ascii r
| EmptyString => true
end.

(** ** [ConfigManager] *)

Module ConfigManager.

Record AppPaths : Type := {
  config : string;
  history : string;
  templates : string;
  presets : string
}.

(** [AppPaths()] *)
Definition default_paths : AppPaths :=
{| config := "qr_generator_config.json";
   history := "qr_generator_history.json";
   templates := "custom_templates.json";
   presets := "qr_presets.json" |}.

(** A [ConfigManager] object. *)
Record manager : Type := {
  base_dir : string;
  paths : AppPaths
}.

(** [ConfigManager(base_dir, paths)], with [paths or AppPaths()] *)
Definition __init__ (base_dir : string) (paths : option AppPaths) : manager :=
{| base_dir := base_dir; paths := default default_paths paths |}.

Definition _resolve (self : manager) (path : string) : string :=
os_path_join (base_dir self) path.

Section Storage.

Context {QRCode Image : Type} (env : collaborators QRCode Image).

Notation "m ;;; k" := (bind m (fun _ => k))
  (at level 100, k at level 200, right associativity).

Definition _ensure_dir (path : string) : M Image unit :=
let folder := os_path_dirname path in
if String.eqb folder "" then ret tt else os_makedirs env folder.

(** The payload is of type [A]; [json_load] is [json.load] on the text of
    a file, [None] when it raises JSONDecodeError.  A file that is not
    there gives the default; a file that does not hold text cannot be
    decoded, and that exception is not caught here. *)
Definition _load_json {A} (json_load : string -> option A)
  (self : manager) (path : string) (default : A) : M Image A :=
fun w =>
  let full_path := _resolve self path in
  match disk w !! full_path with
  | None => (Ok default, w)
  | Some (TextFile content) =>
      match json_load content with
      | Some payload => (Ok payload, w)
      | None => (Ok default, w)
      end
  | Some _ => (Raise (Exception (read_error env (disk w) full_path)), w)
  end.

(** [json_dump] is the text [json.dump(payload, f, indent=4)] writes. *)
Definition _save_json {A} (json_dump : A -> string)
  (self : manager) (path : string) (payload : A) : M Image unit :=
let full_path := _resolve self path in
_ensure_dir full_path ;;;
open_write env full_path ;;;
write_text full_path (json_dump payload).

Definition load_config {V} (json_load : string -> option (gmap string V))
  (self : manager) : M Image (gmap string V) :=
_load_json json_load self (config (paths self)) ∅.

Definition save_config {V} (json_dump : gmap string V -> string)
  (self : manager) (payload : gmap string V) : M Image unit :=
_save_json json_dump self (config (paths self)) payload.

Definition load_history {R} (json_load : string -> option (list R))
  (self : manager) : M Image (list R) :=
_load_json json_load self (history (paths self)) [].

Definition save_history {R} (json_dump : list R -> string)
  (self : manager) (records : list R) : M Image unit :=
_save_json json_dump self (history (paths self)) records.

Definition load_custom_templates {T} (json_load : string -> option (list T))
  (self : manager) : M Image (list T) :=
_load_json json_load self (templates (paths self)) [].

Definition save_custom_templates {T} (json_dump : list T -> string)
  (self : manager) (stored : list T) : M Image unit :=
_save_json json_dump self (templates (paths self)) stored.

Definition load_presets {P} (json_load : string -> option (list P))
  (self : manager) : M Image (list P) :=
_load_json json_load self (presets (paths self)) [].

Definition save_presets {P} (json_dump : list P -> string)
  (self : manager) (stored : list P) : M Image unit :=
_save_json json_dump self (presets (paths self)) stored.

End Storage.

End ConfigManager.

(** ** The window's stores *)

(** [self.config_storage], as [__init__] builds it. *)
Definition config_storage (p : parent) : ConfigManager.manager :=
ConfigManager.__init__ (base_dir p) (Some ConfigManager.default_paths).

Definition with_custom_templates (stored : list custom_template) (p : parent) : parent :=
{| input_file := input_file p;
   output_dir := output_dir p;
   logo_file := logo_file p;
   name_prefix := name_prefix p;
   title_text := title_text p;
   subtitle_text := subtitle_text p;
   title_font_size := title_font_size p;
   subtitle_font_size := subtitle_font_size p;
   name_font_size := name_font_size p;
   text_color := text_color p;
   qr_scale := qr_scale p;
   output_format := output_format p;
   output_quality := output_quality p;
   selected_template := selected_template p;
   custom_templates := stored;
   use_custom_colors := use_custom_colors p;
   custom_colors := custom_colors p;
   theme_colors := theme_colors p;
   base_dir := base_dir p |}.

(** [on_template_changed]: the id held by the chosen entry of the
    combo box becomes the selected one. *)
Definition on_template_changed (currentData : Z) (p : parent) : parent :=
{| input_file := input_file p;
   output_dir := output_dir p;
   logo_file := logo_file p;
   name_prefix := name_prefix p;
   title_text := title_text p;
   subtitle_text := subtitle_text p;
   title_font_size := title_font_size p;
   subtitle_font_size := subtitle_font_size p;
   name_font_size := name_font_size p;
   text_color := text_color p;
   qr_scale := qr_scale p;
   output_format := output_format p;
   output_quality := output_quality p;
   selected_template := currentData;
   custom_templates := custom_templates p;
   use_custom_colors := use_custom_colors p;
   custom_colors := custom_colors p;
   theme_colors := theme_colors p;
   base_dir := base_dir p |}.

Section Stores.

Context {QRCode Image : Type} (env : collaborators QRCode Image).

(** [ModernQRGenerator.load_history]: the stored history, or an empty
    one when reading it raises. *)
Definition load_history (json_load : string -> option (list history_record))
  (p : parent) (w : world Image) : world Image :=
let loaded :=
  match ConfigManager.load_history env json_load (config_storage p) w with
  | (Ok records, _) => records
  | (Raise _, _) => []
  end in
{| disk := disk w; dirs := dirs w; history := loaded;
   progress := progress w; finished := finished w |}.

(** [ModernQRGenerator.load_custom_templates] *)
Definition load_custom_templates (json_load : string -> option (list custom_template))
  (p : parent) (w : world Image) : parent :=
match ConfigManager.load_custom_templates env json_load (config_storage p) w with
| (Ok stored, _) => with_custom_templates stored p
| (Raise _, _) => with_custom_templates [] p
end.

(** [ModernQRGenerator.save_custom_templates]: a failure is printed
    and swallowed. *)
Definition save_custom_templates (json_dump : list custom_template -> string)
  (p : parent) (w : world Image) : world Image :=
snd (ConfigManager.save_custom_templates env json_dump (config_storage p) (custom_templates p) w).

(** ** Adding and editing a stored template *)

(** The texts in the three fields of a [TemplateDialog]. *)
Record TemplateDialog : Type := {
  name_edit : string;
  desc_edit : string;
  code_edit : string
}.

Inductive message_box : Type :=
| information (title text : string)
| warning (title text : string)
| critical (title text : string).

(** What pressing OK does: the dialog is accepted, or a box is shown
    and the dialog stays open.  [exec] is the [py_exec] of the
    collaborators; an exception it raises is shown with its text when
    [except Exception] catches it, and leaves the method otherwise. *)
Inductive validation : Type :=
| accept
| refuse (box : message_box)
| leaves (e : exn).

Definition validate_and_accept (self : TemplateDialog) : validation :=
let name := PyStr.strip (name_edit self) in
let code := PyStr.strip (code_edit self) in
if String.eqb name "" || String.eqb code "" then
  refuse (warning "Warning" "Please enter template name and code")
else
  match py_exec env code with
  | Ok namespace =>
      match namespace !! "template_custom" with
      | None => refuse (warning "Warning" "Template function must be named 'template_custom'")
      | Some _ => accept
      end
  | Raise (Exception text) => refuse (critical "Error" ("Invalid template code: " ++ text))
  | Raise (BaseException text) => leaves (BaseException text)
  end.

(** [get_template]: the stripped texts, to which the caller adds an id. *)
Definition get_template (self : TemplateDialog) (id : Z) : custom_template :=
{| ct_id := id;
   ct_name := PyStr.strip (name_edit self);
   ct_description := PyStr.strip (desc_edit self);
   ct_code := PyStr.strip (code_edit self) |}.

(** [max([t['id'] for t in self.custom_templates], default=8) + 1] *)
Definition next_template_id (stored : list custom_template) : Z :=
(match map ct_id stored with
 | [] => 8
 | id :: ids => fold_left Z.max ids id
 end + 1)%Z.

(** [add_template_dialog]: the stored templates and the disk after
    it.  [accepted] holds the dialog when it was closed by OK, [None]
    when it was cancelled.  (The combo box, which is rebuilt from the
    stored templates afterwards, is not followed.) *)
Definition add_template_dialog (json_dump : list custom_template -> string)
  (accepted : option TemplateDialog) (p : parent) (w : world Image)
  : list custom_template * world Image :=
match accepted with
| None => (custom_templates p, w)
| Some dialog =>
    let template_id := next_template_id (custom_templates p) in
    let template := get_template dialog template_id in
    let stored := (custom_templates p ++ [template])%list in
    (stored, save_custom_templates json_dump (with_custom_templates stored p) w)
end.

(** [template.update(updated_template)] on the first stored template
    with the selected id: name, description and code are replaced, the
    id stays. *)
Fixpoint update_template (selected : Z) (updated : TemplateDialog)
  (stored : list custom_template) : list custom_template :=
match stored with
| [] => []
| t :: rest =>
    if (ct_id t =? selected)%Z then get_template updated (ct_id t) :: rest
    else t :: update_template selected updated rest
end.

(** [update_template_list]: the combo box is emptied and filled again
    from the built-in list and the stored templates.  Its
    [currentTextChanged] signal is connected to [on_template_changed],
    which runs whenever the rebuild changes the current entry;
    [currentData] is what the combo box holds as the data of its
    current entry when the signal fires for the last time, [None] when
    it does not fire. *)
Definition update_template_list (currentData : option Z) (p : parent) : parent :=
match currentData with
| Some data => on_template_changed data p
| None => p
end.

Inductive edit_outcome : Type :=
| edit_refused (box : message_box)
| edit_cancelled
| edited (window : parent) (w : world Image).

(** [edit_template_dialog]: a box and nothing else, or the window and
    the disk after the edit, the save and the rebuild of the combo
    box. *)
Definition edit_template_dialog (json_dump : list custom_template -> string)
  (accepted : option TemplateDialog) (currentData : option Z)
  (p : parent) (w : world Image) : edit_outcome :=
if (selected_template p <=? 5)%Z then
  edit_refused (information "Info" "Built-in templates cannot be edited")
else
  match List.find (fun t => (ct_id t =? selected_template p)%Z) (custom_templates p) with
  | None => edit_refused (warning "Warning" "Template not found")
  | Some _ =>
      match accepted with
      | None => edit_cancelled
      | Some dialog =>
          let stored := update_template (selected_template p) dialog (custom_templates p) in
          let window := with_custom_templates stored p in
          edited (update_template_list currentData window)
                 (save_custom_templates json_dump window w)
      end
  end.

End Stores.

Arguments edit_outcome : clear implicits.

(** Ids above 8, each larger than the ones before it. *)
Definition ids_increasing (stored : list custom_template) : Prop :=
(forall t, In t stored -> (8 < ct_id t)%Z)
/\ (forall i j a b, (i < j)%nat -> stored !! i = Some a -> stored !! j = Some b ->
      (ct_id a < ct_id b)%Z).

(** ** [test_qr] and [update_preview] *)

(** The first line of the input that is not blank, stripped:
    [for line in f: line = line.strip(); if line: ...; break]. *)
Definition first_line (content : string) : option string :=
List.find (fun line => negb (String.eqb line ""))
          (map PyStr.strip (PyStr.readlines content)).

Inductive test_outcome : Type :=
| test_warning (text : string)
| opened (url : string)
| nothing_opened
| test_failed (text : string).

Section Preview.

Context {QRCode Image : Type} (env : collaborators QRCode Image).

Notation "x <- m ;; k" := (bind m (fun x => k))
  (at level 100, m at next level, right associativity).
Notation "m ;;; k" := (bind m (fun _ => k))
  (at level 100, k at level 200, right associativity).

(** [test_qr]: what [webbrowser.open] is called with. *)
Definition test_qr (p : parent) (w : world Image) : test_outcome :=
if String.eqb (input_file p) "" then test_warning "Please select input file"
else
  match disk w !! input_file p with
  | Some (TextFile content) =>
      match first_line content with
      | Some line =>
          if PyStr.startswith line "WIFI:" then opened line
          else if PyStr.startswith line "TEL:" then opened line
          else if PyStr.startswith line "mailto:" then opened line
          else if PyStr.startswith line "http" then opened line
          else
            if negb (PyStr.startswith line "http://" || PyStr.startswith line "https://")
            then opened ("https://" ++ line)
            else opened line
      | None => nothing_opened
      end
  | _ => test_failed ("Failed to test QR: " ++ read_error env (disk w) (input_file p))
  end.

(** The sample payload of the preview: the first line of the input
    when there is an input file, [https://example.com] otherwise. *)
Definition preview_link (p : parent) : M Image string :=
fun w =>
  if String.eqb (input_file p) "" then (Ok "https://example.com", w)
  else
    match disk w !! input_file p with
    | None => (Ok "https://example.com", w)
    | Some (TextFile content) => (Ok (default "https://example.com" (first_line content)), w)
    | Some _ => (Raise (Exception (read_error env (disk w) (input_file p))), w)
    end.

(** The scale of the preview bitmap.  In quick mode
    [max(5, int(max(5, round(qr_scale * preview_quality))))], where the
    product is a float and [round] goes to the nearest integer, ties to
    even. *)
Definition preview_scale (quick_preview_mode : bool) (preview_quality : Q)
  (p : parent) : Z :=
if quick_preview_mode then
  let scaled_value :=
    Z.max 5 (PyFloat.Qrne (PyFloat.fmul (PyFloat.float_of_int (qr_scale p)) preview_quality)) in
  Z.max 5 scaled_value
else qr_scale p.

(** The body of [update_preview] up to the image the template returns
    (which is then scaled down in memory for the label); of what it
    raises the outer handler shows an [Exception] as a preview error. *)
Definition update_preview (quick_preview_mode : bool) (preview_quality : Q)
  (p : parent) : M Image Image :=
link <- preview_link p ;;
qr <- lift (segno_make env (detect_data_type link)) ;;
temp_path <- make_temp env ;;
try_finally
  (save_qr env qr temp_path (preview_scale quick_preview_mode preview_quality p) ;;;
   qr_img <- Image_open env temp_path ;;
   template_func <- lift (get_template_function env p) ;;
   (fun w =>
      (template_func (disk w) qr_img "Preview" (job_colors p)
         (if String.eqb (logo_file p) "" then None else Some (logo_file p))
         (job_text_settings p), w)))
  (unlink_if_exists temp_path).

End Preview.

(** ** The geometry of the built-in templates

    Where each built-in template pastes the QR bitmap and the logo
    circle on its card, for a bitmap of [qr_width] by [qr_height]
    pixels; [//] is floor division. *)

Record layout : Type := {
  card_width : Z;
  card_height : Z;
  qr_x : Z;
  qr_y : Z;
  logo_x : Z;
  logo_y : Z;
  logo_size : Z
}.

Definition layout_modern_gradient (qr_width qr_height : Z) : layout :=
let card_width := (qr_width + 180)%Z in
let card_height := (qr_height + 300)%Z in
let qr_x := ((card_width - qr_width) / 2)%Z in
let qr_y := 100%Z in
{| card_width := card_width; card_height := card_height;
   qr_x := qr_x; qr_y := qr_y;
   logo_x := (qr_x + qr_width / 2 - 70)%Z;
   logo_y := (qr_y + qr_height / 2 - 70)%Z;
   logo_size := 140 |}.

Definition layout_glassmorphism (qr_width qr_height : Z) : layout :=
let card_width := (qr_width + 160)%Z in
let card_height := (qr_height + 280)%Z in
let qr_x := ((card_width - qr_width) / 2)%Z in
let qr_y := 90%Z in
{| card_width := card_width; card_height := card_height;
   qr_x := qr_x; qr_y := qr_y;
   logo_x := (qr_x + qr_width / 2 - 65)%Z;
   logo_y := (qr_y + qr_height / 2 - 65)%Z;
   logo_size := 130 |}.

Definition layout_neon_cyberpunk (qr_width qr_height : Z) : layout :=
let card_width := (qr_width + 200)%Z in
let card_height := (qr_height + 320)%Z in
let qr_x := ((card_width - qr_width) / 2)%Z in
let qr_y := 120%Z in
{| card_width := card_width; card_height := card_height;
   qr_x := qr_x; qr_y := qr_y;
   logo_x := (qr_x + qr_width / 2 - 75)%Z;
   logo_y := (qr_y + qr_height / 2 - 75)%Z;
   logo_size := 150 |}.

Definition layout_minimalist (qr_width qr_height : Z) : layout :=
let card_width := (qr_width + 140)%Z in
let card_height := (qr_height + 260)%Z in
let qr_x := ((card_width - qr_width) / 2)%Z in
let qr_y := 100%Z in
let logo_size := 120%Z in
{| card_width := card_width; card_height := card_height;
   qr_x := qr_x; qr_y := qr_y;
   logo_x := (qr_x + qr_width / 2 - logo_size / 2)%Z;
   logo_y := (qr_y + qr_height / 2 - logo_size / 2)%Z;
   logo_size := logo_size |}.

Definition layout_3d_card (qr_width qr_height : Z) : layout :=
let card_width := (qr_width + 200)%Z in
let card_height := (qr_height + 340)%Z in
let qr_x := ((card_width - qr_width) / 2)%Z in
let qr_y := 120%Z in
let logo_size := 140%Z in
{| card_width := card_width; card_height := card_height;
   qr_x := qr_x; qr_y := qr_y;
   logo_x := (qr_x + qr_width / 2 - logo_size / 2)%Z;
   logo_y := (qr_y + qr_height / 2 - logo_size / 2)%Z;
   logo_size := logo_size |}.

Definition layout_aurora_glow (qr_width qr_height : Z) : layout :=
let card_width := (qr_width + 260)%Z in
let card_height := (qr_height + 360)%Z in
let qr_box_width := (qr_width + 100)%Z in
let qr_box_height := (qr_height + 100)%Z in
let qr_box_x := ((card_width - qr_box_width) / 2)%Z in
let qr_box_y := 120%Z in
{| card_width := card_width; card_height := card_height;
   qr_x := (qr_box_x + 50)%Z; qr_y := (qr_box_y + 50)%Z;
   logo_x := (qr_box_x + qr_box_width / 2 - 70)%Z;
   logo_y := (qr_box_y + qr_box_height / 2 - 70)%Z;
   logo_size := 140 |}.

Definition layout_split_contrast (qr_width qr_height : Z) : layout :=
let accent_width := Z.max 200 (qr_width / 2) in
let card_width := (qr_width + accent_width + 220)%Z in
let card_height := (qr_height + 240)%Z in
let qr_x := (accent_width + (card_width - accent_width - qr_width) / 2)%Z in
let qr_y := 100%Z in
{| card_width := card_width; card_height := card_height;
   qr_x := qr_x; qr_y := qr_y;
   logo_x := (qr_x + qr_width / 2 - 60)%Z;
   logo_y := (qr_y + qr_height / 2 - 60)%Z;
   logo_size := 120 |}.

Definition layout_sunrise_spotlight (qr_width qr_height : Z) : layout :=
let card_width := (qr_width + 160)%Z in
let card_height := (qr_height + 220)%Z in
let qr_x := ((card_width - qr_width) / 2)%Z in
let qr_y := 90%Z in
{| card_width := card_width; card_height := card_height;
   qr_x := qr_x; qr_y := qr_y;
   logo_x := (qr_x + qr_width / 2 - 60)%Z;
   logo_y := (qr_y + qr_height / 2 - 60)%Z;
   logo_size := 120 |}.

(** The layouts by template id. *)
Definition builtin_layouts : list (Z -> Z -> layout) :=
[layout_modern_gradient; layout_glassmorphism; layout_neon_cyberpunk;
 layout_minimalist; layout_3d_card; layout_aurora_glow;
 layout_split_contrast; layout_sunrise_spotlight].

(** A box of the given size at the given place lies on the card. *)
Definition on_card (l : layout) (x y width height : Z) : Prop :=
(0 <= x /\ x + width <= card_width l /\ 0 <= y /\ y + height <= card_height l)%Z.

(** ** [normalize_palette]

    An entry of a palette read from the configuration: [None], a list
    or tuple of channels (ints, as [save_config] writes them), or a
    value of another kind. *)

Inductive palette_entry (V : Type) : Type :=
| entry_none
| entry_seq (channels : list Z)
| entry_other (v : V).
Arguments entry_none {V}.
Arguments entry_seq {V} channels.
Arguments entry_other {V} v.

(** The palette is [None] (or another false value) or a list. *)
Definition normalize_palette {V} (palette : option (list (palette_entry V)))
  (allow_none : bool) : list (palette_entry V) :=
match palette with
| None | Some [] =>
    if allow_none then [entry_none; entry_none; entry_none]
    else [entry_seq [26; 35; 126]; entry_seq [74; 0; 224]; entry_seq [138; 43; 226]]%Z
| Some colors =>
    map (fun color =>
           match color with
           | entry_none => if allow_none then entry_none else entry_seq [26; 35; 126]%Z
           | entry_seq channels => entry_seq (firstn 3 channels)
           | entry_other v => entry_other v
           end) colors
end.

(** What [json.load] gives back for a colour that [save_config] wrote:
    a list of its three channels, or [None]. *)
Definition stored_color {V} (color : option rgb) : palette_entry V :=
match color with
| Some (r, g, b) => entry_seq [r; g; b]
| None => entry_none
end.

(** ** [toggle_custom_colors] and [on_theme_preset_changed] *)

Definition theme_presets : list (string * list rgb) :=
[("Blue Ocean", [(0, 119, 190); (0, 180, 216); (144, 224, 239)]);
 ("Cyber Night", [(25, 0, 51); (102, 0, 153); (153, 51, 255)]);
 ("Pastel Style", [(255, 179, 186); (255, 223, 186); (186, 255, 201)]);
 ("Sunset", [(255, 94, 77); (255, 154, 0); (237, 117, 57)]);
 ("Forest", [(34, 139, 34); (107, 142, 35); (124, 252, 0)])]%Z.

Definition with_colors (use_custom : bool) (custom : list (option rgb))
  (theme : list rgb) (p : parent) : parent :=
{| input_file := input_file p;
   output_dir := output_dir p;
   logo_file := logo_file p;
   name_prefix := name_prefix p;
   title_text := title_text p;
   subtitle_text := subtitle_text p;
   title_font_size := title_font_size p;
   subtitle_font_size := subtitle_font_size p;
   name_font_size := name_font_size p;
   text_color := text_color p;
   qr_scale := qr_scale p;
   output_format := output_format p;
   output_quality := output_quality p;
   selected_template := selected_template p;
   custom_templates := custom_templates p;
   use_custom_colors := use_custom;
   custom_colors := custom;
   theme_colors := theme;
   base_dir := base_dir p |}.

(** One turn of [for i in range(3)]: an empty slot is filled with the
    theme colour of the same index; an index past the end of either
    list raises IndexError. *)
Definition fill_slot (theme : list rgb) (custom : list (option rgb)) (i : nat)
  : result (list (option rgb)) :=
match custom !! i with
| None => Raise (Exception "list index out of range")
| Some (Some _) => Ok custom
| Some None =>
    match theme !! i with
    | None => Raise (Exception "list index out of range")
    | Some color => Ok (<[i := Some color]> custom)
    end
end.

(** The loop; the list is changed in place, so what was filled before
    an exception stays filled. *)
Fixpoint fill_slots (theme : list rgb) (custom : list (option rgb)) (indices : list nat)
  : result unit * list (option rgb) :=
match indices with
| [] => (Ok tt, custom)
| i :: rest =>
    match fill_slot theme custom i with
    | Ok custom' => fill_slots theme custom' rest
    | Raise e => (Raise e, custom)
    end
end.

(** [update_color_buttons] reads, for each of the three buttons,
    [custom_colors[i]] when custom colours are in use and
    [theme_colors[i]] when that slot is not used. *)
Definition update_color_buttons (p : parent) : result unit :=
fold_left
  (fun r i =>
     match r with
     | Raise e => Raise e
     | Ok _ =>
         if use_custom_colors p then
           match custom_colors p !! i with
           | None => Raise (Exception "list index out of range")
           | Some (Some _) => Ok tt
           | Some None =>
               match theme_colors p !! i with
               | None => Raise (Exception "list index out of range")
               | Some _ => Ok tt
               end
           end
         else
           match theme_colors p !! i with
           | None => Raise (Exception "list index out of range")
           | Some _ => Ok tt
           end
     end)
  [0; 1; 2]%nat (Ok tt).

(** [toggle_custom_colors(checked)]: what it returns or raises, the
    window after it, and the name of the theme preset shown
    ([current_theme_preset]).  The preview it ends with is
    [update_preview]. *)
Definition toggle_custom_colors (checked : bool) (current_theme_preset : string)
  (p : parent) : result unit * (parent * string) :=
if checked then
  match fill_slots (theme_colors p) (custom_colors p) [0; 1; 2]%nat with
  | (Ok _, custom) =>
      let p' := with_colors true custom (theme_colors p) p in
      (update_color_buttons p', (p', "Custom"))
  | (Raise e, custom) => (Raise e, (with_colors true custom (theme_colors p) p, "Custom"))
  end
else
  let p' := with_colors false (custom_colors p) (theme_colors p) p in
  (update_color_buttons p', (p', current_theme_preset)).

(** [preset_name in self.theme_presets] and [self.theme_presets[preset_name]] *)
Definition preset_colors (preset_name : string) : option (list rgb) :=
option_map snd (List.find (fun kv => String.eqb (fst kv) preset_name) theme_presets).

(** [on_theme_preset_changed(preset_name)] *)
Definition on_theme_preset_changed (preset_name current_theme_preset : string)
  (p : parent) : result unit * (parent * string) :=
match preset_colors preset_name with
| Some colors =>
    let p' := with_colors false (custom_colors p) colors p in
    (update_color_buttons p', (p', preset_name))
| None => (Ok tt, (p, "Custom"))
end.

(** The colour a run uses for slot [i] once custom colours are on. *)
Definition merged_color (p : parent) (i : nat) : option rgb :=
match custom_colors p !! i with
| Some (Some color) => Some color
| _ => theme_colors p !! i
end.

(** ** Records and lines *)

(** A text without line feed and carriage return. *)
Fixpoint no_break (s : string) : bool :=
match s with
| String c r =>
    negb (Ascii.eqb c "010"%char) && negb (Ascii.eqb c "013"%char) && no_break r
| EmptyString => true
end.

(** How often a colour occurs among pixels. *)
Definition occurrences (c : rgb) (pixels : list rgb) : nat :=
length (List.filter (rgb_eqb c) pixels).

(** The count a [Counter] holds for a colour, 0 for a missing key. *)
Definition count_of (counts : list (rgb * nat)) (c : rgb) : nat :=
match List.find (fun kv => rgb_eqb (fst kv) c) counts with
| Some kv => snd kv
| None => 0%nat
end.

(* ===================================================================== *)
(** * Part II: properties                                                 *)
(* ===================================================================== *)

(** ** Rounding to the nearest double *)

Module PyFloatFacts.
Import PyFloat.
Local Open Scope Q_scope.

Lemma two_pow_pos (k : Z) : 0 < 2 ^ k.
Proof. apply Qpower_0_lt. reflexivity. Qed.

Lemma two_pow_succ (k : Z) : 2 ^ (k + 1) == 2 * 2 ^ k.
Proof. rewrite Qpower_plus by discriminate. change (2 ^ 1) with (2 * 1). ring. Qed.

Lemma two_pow_le (a b : Z) : (a <= b)%Z -> 2 ^ a <= 2 ^ b.
Proof. intros H. apply Qpower_le_compat_l; [exact H | discriminate]. Qed.

Lemma two_pow_Z (k : Z) : (0 <= k)%Z -> inject_Z (2 ^ k) == 2 ^ k.
Proof. intros H. apply (Zpower_Qpower 2 k H). Qed.

Lemma Zlog2_Q (n : Z) : (0 < n)%Z ->
  2 ^ (Z.log2 n) <= inject_Z n /\ inject_Z n < 2 ^ (Z.log2 n + 1).
Proof.
  intros H. destruct (Z.log2_spec n H) as [H1 H2].
  pose proof (Z.log2_nonneg n) as H0.
  split.
  - rewrite <- two_pow_Z by lia. rewrite <- Zle_Qle. exact H1.
  - rewrite <- two_pow_Z by lia. rewrite <- Zlt_Qlt. replace (Z.log2 n + 1)%Z with (Z.succ (Z.log2 n)) by lia. exact H2.
Qed.

Lemma Qlog2_spec (x : Q) : 0 < x -> 2 ^ (Qlog2 x) <= x /\ x < 2 ^ (Qlog2 x + 1).
Proof.
  intros Hx. destruct x as [n d].
  assert (Hn : (0 < n)%Z).
  { unfold Qlt in Hx. simpl in Hx. lia. }
  destruct (Zlog2_Q n Hn) as [Hn1 Hn2].
  destruct (Zlog2_Q (Zpos d) eq_refl) as [Hd1 Hd2].
  unfold Qlog2. cbn [Qnum Qden].
  set (ln := Z.log2 n) in *. set (ld := Z.log2 (Zpos d)) in *.
  assert (Hdiv : n # d == inject_Z n / inject_Z (Zpos d)) by apply Qmake_Qdiv.
  assert (HD : 0 < inject_Z (Zpos d)) by reflexivity.
  pose proof (two_pow_pos ld) as Pld. pose proof (two_pow_pos ln) as Pln.
  destruct (Qle_bool (2 ^ (ln - ld)) (n # d)) eqn:E.
  - apply Qle_bool_iff in E. split; [exact E|].
    rewrite Hdiv. apply Qlt_shift_div_r; [exact HD|].
    replace (ln - ld + 1)%Z with ((ln + 1) + - ld)%Z by lia.
    rewrite Qpower_plus by discriminate. rewrite Qpower_opp.
    assert (H2 : 2 ^ (ln + 1) * / 2 ^ ld * inject_Z (Z.pos d) == 2 ^ (ln + 1) * (inject_Z (Z.pos d) / 2 ^ ld)).
    { field. intro A. rewrite A in Pld. discriminate. }
    rewrite H2.
    assert (H3 : 1 <= inject_Z (Z.pos d) / 2 ^ ld).
    { apply Qle_shift_div_l; [exact Pld|]. rewrite Qmult_1_l. exact Hd1. }
    pose proof (two_pow_pos (ln + 1)). nra.
  - assert (E' : n # d < 2 ^ (ln - ld)).
    { apply Qnot_le_lt. intro A. apply Qle_bool_iff in A. congruence. }
    split.
    + rewrite Hdiv. apply Qle_shift_div_l; [exact HD|].
      replace (ln - ld - 1)%Z with (ln + - (ld + 1))%Z by lia.
      rewrite Qpower_plus by discriminate. rewrite Qpower_opp.
      pose proof (two_pow_pos (ld + 1)) as Pld1.
      assert (H2 : 2 ^ ln * / 2 ^ (ld + 1) * inject_Z (Z.pos d) == 2 ^ ln * (inject_Z (Z.pos d) / 2 ^ (ld + 1))).
      { field. intro A. rewrite A in Pld1. discriminate. }
      rewrite H2.
      assert (H3 : inject_Z (Z.pos d) / 2 ^ (ld + 1) <= 1).
      { apply Qle_shift_div_r; [exact Pld1|]. rewrite Qmult_1_l. apply Qlt_le_weak. exact Hd2. }
      nra.
    + replace (ln - ld - 1 + 1)%Z with (ln - ld)%Z by lia. exact E'.
Qed.

Lemma Qlog2_mono (x y : Q) : 0 < x -> x <= y -> (Qlog2 x <= Qlog2 y)%Z.
Proof.
  intros Hx Hxy.
  assert (Hy : 0 < y) by (eapply Qlt_le_trans; eauto).
  destruct (Qlog2_spec x Hx) as [A _]. destruct (Qlog2_spec y Hy) as [_ B].
  destruct (Z_lt_le_dec (Qlog2 y) (Qlog2 x)) as [C|C]; [exfalso|exact C].
  assert (D : 2 ^ (Qlog2 y + 1) <= 2 ^ (Qlog2 x)) by (apply two_pow_le; lia).
  lra.
Qed.

Lemma Qlog2_unique (x : Q) (k : Z) : 2 ^ k <= x -> x < 2 ^ (k + 1) -> Qlog2 x = k.
Proof.
  intros A B.
  assert (Hx : 0 < x) by (pose proof (two_pow_pos k); lra).
  destruct (Qlog2_spec x Hx) as [C D].
  destruct (Z_lt_le_dec (Qlog2 x) k) as [E|E].
  - assert (F : 2 ^ (Qlog2 x + 1) <= 2 ^ k) by (apply two_pow_le; lia). lra.
  - destruct (Z_lt_le_dec k (Qlog2 x)) as [G|G]; [|lia].
    assert (F : 2 ^ (k + 1) <= 2 ^ (Qlog2 x)) by (apply two_pow_le; lia). lra.
Qed.

(** round half even on rationals *)
Lemma Qrne_Z (z : Z) : Qrne (inject_Z z) = z.
Proof.
  unfold Qrne. rewrite Qfloor_Z.
  assert (H : (inject_Z z - inject_Z z ?= 1 # 2) = Lt).
  { apply -> Qlt_alt. generalize (inject_Z z). intro q. lra. }
  rewrite H. reflexivity.
Qed.

Lemma Qrne_bounds (x : Q) : (Qfloor x <= Qrne x <= Qfloor x + 1)%Z.
Proof.
  unfold Qrne. destruct (x - inject_Z (Qfloor x) ?= 1 # 2); try destruct (Z.even _); lia.
Qed.

Lemma Qrne_mono (x y : Q) : x <= y -> (Qrne x <= Qrne y)%Z.
Proof.
  intros H.
  pose proof (Qfloor_resp_le x y H) as Hf.
  pose proof (Qrne_bounds x) as Bx. pose proof (Qrne_bounds y) as By.
  destruct (Z.eq_dec (Qfloor x) (Qfloor y)) as [E|E]; [|lia].
  unfold Qrne in *. rewrite <- E in *.
  destruct (x - inject_Z (Qfloor x) ?= 1 # 2) eqn:Cx;
  destruct (y - inject_Z (Qfloor x) ?= 1 # 2) eqn:Cy;
  try destruct (Z.even _); try lia;
  try apply <- Qeq_alt in Cx; try apply <- Qlt_alt in Cx; try apply <- Qgt_alt in Cx;
  try apply <- Qeq_alt in Cy; try apply <- Qlt_alt in Cy; try apply <- Qgt_alt in Cy; lra.
Qed.

Lemma Qrne_comp (x y : Q) : x == y -> Qrne x = Qrne y.
Proof. intros H. apply Z.le_antisymm; apply Qrne_mono; lra. Qed.

Lemma fexp64_mono (x y : Q) : 0 < x -> x <= y -> (fexp64 x <= fexp64 y)%Z.
Proof. intros A B. unfold fexp64. pose proof (Qlog2_mono x y A B). lia. Qed.

Lemma scale_unscale (x : Q) (e : Z) : x / 2 ^ e * 2 ^ e == x.
Proof. field. pose proof (two_pow_pos e) as P. intro A. rewrite A in P. discriminate. Qed.

Lemma round_pos_mono (x y : Q) : 0 < x -> x <= y -> round_pos x <= round_pos y.
Proof.
  intros Hx Hxy.
  assert (Hy : 0 < y) by lra.
  pose proof (fexp64_mono x y Hx Hxy) as He.
  unfold round_pos.
  set (ex := fexp64 x) in *. set (ey := fexp64 y) in *.
  pose proof (two_pow_pos ex) as Px. pose proof (two_pow_pos ey) as Py.
  destruct (Z.eq_dec ex ey) as [E|E].
  - rewrite <- E. apply Qmult_le_compat_r; [|lra].
    rewrite <- Zle_Qle. apply Qrne_mono.
    apply Qmult_le_compat_r; [exact Hxy|]. apply Qlt_le_weak, Qinv_lt_0_compat, Px.
  - assert (Hlt : (ex + 1 <= ey)%Z) by lia.
    destruct (Qlog2_spec x Hx) as [_ X2]. destruct (Qlog2_spec y Hy) as [Y1 _].
    assert (Hey : ey = (Qlog2 y - 52)%Z) by (unfold ey, ex, fexp64 in *; lia).
    assert (Hex : (Qlog2 x - 52 <= ex)%Z) by (unfold ex, fexp64; lia).
    (* upper bound for x *)
    assert (U : inject_Z (Qrne (x / 2 ^ ex)) <= 2 ^ 53).
    { change (2 ^ 53) with (inject_Z (2 ^ 53)). rewrite <- Zle_Qle.
      rewrite <- (Qrne_Z (2 ^ 53)). apply Qrne_mono.
      apply Qle_shift_div_r; [exact Px|].
      change (inject_Z (2 ^ 53)) with (2 ^ 53). rewrite <- Qpower_plus by discriminate.
      assert (2 ^ (Qlog2 x + 1) <= 2 ^ (53 + ex)) by (apply two_pow_le; lia). lra. }
    assert (L : 2 ^ 52 <= inject_Z (Qrne (y / 2 ^ ey))).
    { change (2 ^ 52) with (inject_Z (2 ^ 52)). rewrite <- Zle_Qle.
      rewrite <- (Qrne_Z (2 ^ 52)). apply Qrne_mono.
      apply Qle_shift_div_l; [exact Py|].
      change (inject_Z (2 ^ 52)) with (2 ^ 52). rewrite <- Qpower_plus by discriminate.
      assert (2 ^ (52 + ey) <= 2 ^ (Qlog2 y)) by (apply two_pow_le; lia). lra. }
    assert (M : 2 ^ 53 * 2 ^ ex <= 2 ^ 52 * 2 ^ ey).
    { rewrite <- !Qpower_plus by discriminate. apply two_pow_le. lia. }
    apply Qle_trans with (2 ^ 53 * 2 ^ ex).
    + apply Qmult_le_compat_r; lra.
    + apply Qle_trans with (2 ^ 52 * 2 ^ ey); [exact M|].
      apply Qmult_le_compat_r; lra.
Qed.

Lemma round_pos_nonneg (x : Q) : 0 <= x -> 0 <= round_pos x.
Proof.
  intros H. unfold round_pos. pose proof (two_pow_pos (fexp64 x)) as P.
  apply Qmult_le_0_compat; [|lra].
  change 0 with (inject_Z 0). rewrite <- Zle_Qle. rewrite <- (Qrne_Z 0).
  apply Qrne_mono. apply Qle_shift_div_l; [exact P|]. change (inject_Z 0) with 0. lra.
Qed.

Lemma Qnum_sign (x : Q) :
  match Qnum x with Z0 => x == 0 | Zpos _ => 0 < x | Zneg _ => x < 0 end.
Proof.
  destruct x as [n d]. destruct n; cbn [Qnum]; unfold Qeq, Qlt; simpl; lia.
Qed.

Lemma RN_nonneg (x : Q) : 0 <= x -> 0 <= RN x.
Proof.
  intros H. unfold RN. pose proof (Qnum_sign x) as S.
  destruct (Qnum x); [lra | apply round_pos_nonneg; exact H | lra].
Qed.

Lemma RN_mono (x y : Q) : 0 <= x -> x <= y -> RN x <= RN y.
Proof.
  intros Hx Hxy. pose proof (Qnum_sign x) as Sx.
  unfold RN at 1. destruct (Qnum x).
  - apply RN_nonneg. lra.
  - pose proof (Qnum_sign y) as Sy. unfold RN. destruct (Qnum y); [lra| |lra].
    apply round_pos_mono; assumption.
  - lra.
Qed.

Lemma RN_comp (x y : Q) : 0 <= x -> x == y -> RN x == RN y.
Proof. intros H E. apply Qle_antisym; apply RN_mono; lra. Qed.

Lemma RN_int (z : Z) : (0 <= z < 2 ^ 53)%Z -> RN (inject_Z z) == inject_Z z.
Proof.
  intros [H0 H1]. unfold RN. cbn [Qnum inject_Z].
  destruct z as [|p|p]; [reflexivity| |lia].
  unfold round_pos.
  destruct (Zlog2_Q (Zpos p) eq_refl) as [A B].
  assert (L : Qlog2 (inject_Z (Zpos p)) = Z.log2 (Zpos p)) by (apply Qlog2_unique; assumption).
  assert (L53 : (Z.log2 (Zpos p) < 53)%Z) by (apply Z.log2_lt_pow2; lia).
  pose proof (Z.log2_nonneg (Zpos p)) as L0.
  unfold fexp64. rewrite L.
  set (l := Z.log2 (Zpos p)) in *.
  replace (Z.max (l - 52) (-1074)) with (- (52 - l))%Z by lia.
  set (s := (52 - l)%Z). assert (Hs : (0 <= s)%Z) by (unfold s; lia).
  assert (E : inject_Z (Zpos p) / 2 ^ (- s) == inject_Z (Zpos p * 2 ^ s)).
  { rewrite Qpower_opp. rewrite inject_Z_mult. rewrite two_pow_Z by exact Hs.
    field. pose proof (two_pow_pos s) as P; intro C; rewrite C in P; discriminate. }
  rewrite (Qrne_comp _ _ E). rewrite Qrne_Z.
  rewrite inject_Z_mult. rewrite two_pow_Z by exact Hs. rewrite Qpower_opp.
  field. pose proof (two_pow_pos s) as P; intro C; rewrite C in P; discriminate.
Qed.

Lemma int_of_float_Z (x : Q) (z : Z) : (0 <= z)%Z -> x == inject_Z z -> int_of_float x = z.
Proof.
  intros Hz E. unfold int_of_float.
  assert (H : Qle_bool 0 x = true).
  { apply Qle_bool_iff. rewrite E. change 0 with (inject_Z 0). rewrite <- Zle_Qle. exact Hz. }
  rewrite H. rewrite E. apply Qfloor_Z.
Qed.

Lemma int_of_float_nonneg (x : Q) : 0 <= x -> int_of_float x = Qfloor x.
Proof.
  intros H. unfold int_of_float.
  apply Qle_bool_iff in H. rewrite H. reflexivity.
Qed.

End PyFloatFacts.

(** ** The error of rounding *)

Module PyFloatError.
Import PyFloat PyFloatFacts.
Local Open Scope Q_scope.

Lemma Qrne_near (y : Q) :
  y - (1 # 2) <= inject_Z (Qrne y) /\ inject_Z (Qrne y) <= y + (1 # 2).
Proof.
  pose proof (Qfloor_le y) as L. pose proof (Qlt_floor y) as U.
  rewrite inject_Z_plus in U. change (inject_Z 1) with 1 in U.
  unfold Qrne.
  destruct (y - inject_Z (Qfloor y) ?= 1 # 2) eqn:C.
  - apply <- Qeq_alt in C. destruct (Z.even (Qfloor y)).
    + split; lra.
    + rewrite inject_Z_plus. change (inject_Z 1) with 1. split; lra.
  - apply <- Qlt_alt in C. split; lra.
  - apply <- Qgt_alt in C. rewrite inject_Z_plus. change (inject_Z 1) with 1. split; lra.
Qed.

(** The unit roundoff of binary64 and half the smallest subnormal. *)
Lemma half_ulp (x : Q) : 0 < x ->
  2 ^ (fexp64 x) * (1 # 2) <= x * 2 ^ (-53) + 2 ^ (-1075).
Proof.
  intros Hx. destruct (Qlog2_spec x Hx) as [L _].
  pose proof (two_pow_pos (-53)) as P53. pose proof (two_pow_pos (-1075)) as P1075.
  unfold fexp64. destruct (Z.max_spec (Qlog2 x - 52) (-1074)) as [[_ ->]|[_ ->]].
  - assert (E : 2 ^ (-1074) * (1 # 2) == 2 ^ (-1075)) by (vm_compute; reflexivity).
    assert (0 <= x * 2 ^ (-53)) by (apply Qmult_le_0_compat; lra).
    rewrite E. lra.
  - replace (Qlog2 x - 52)%Z with (Qlog2 x + -53 + 1)%Z by lia.
    rewrite two_pow_succ. rewrite Qpower_plus by discriminate.
    assert (2 ^ Qlog2 x * 2 ^ (-53) <= x * 2 ^ (-53)).
    { apply Qmult_le_compat_r; lra. }
    lra.
Qed.

Lemma RN_near (x : Q) : 0 <= x ->
  x - (x * 2 ^ (-53) + 2 ^ (-1075)) <= RN x /\ RN x <= x + (x * 2 ^ (-53) + 2 ^ (-1075)).
Proof.
  intros Hx. pose proof (Qnum_sign x) as S.
  pose proof (two_pow_pos (-53)) as P53. pose proof (two_pow_pos (-1075)) as P1075.
  unfold RN. destruct (Qnum x).
  - rewrite S. split; lra.
  - pose proof (half_ulp x S) as H. unfold round_pos.
    set (e := fexp64 x) in *. pose proof (two_pow_pos e) as Pe.
    destruct (Qrne_near (x / 2 ^ e)) as [A B].
    pose proof (scale_unscale x e) as E.
    assert (A' : (x / 2 ^ e - (1 # 2)) * 2 ^ e <= inject_Z (Qrne (x / 2 ^ e)) * 2 ^ e).
    { apply Qmult_le_compat_r; lra. }
    assert (B' : inject_Z (Qrne (x / 2 ^ e)) * 2 ^ e <= (x / 2 ^ e + (1 # 2)) * 2 ^ e).
    { apply Qmult_le_compat_r; lra. }
    split; lra.
  - lra.
Qed.

(** The same with two plain numbers: the unit roundoff [2 ^ -53], and
    [2 ^ -100] for the subnormal part. *)
Lemma RN_within (x : Q) : 0 <= x ->
  x - (x * (1 # 9007199254740992) + (1 # 1267650600228229401496703205376)) <= RN x
  /\ RN x <= x + (x * (1 # 9007199254740992) + (1 # 1267650600228229401496703205376)).
Proof.
  intros Hx. destruct (RN_near x Hx) as [A B].
  assert (U : 2 ^ (-53) == 1 # 9007199254740992) by (vm_compute; reflexivity).
  assert (H : 2 ^ (-1075) <= 1 # 1267650600228229401496703205376) by (vm_compute; discriminate).
  rewrite U in A, B. split; lra.
Qed.

Lemma Qfloor_below (x : Q) (z : Z) : x < inject_Z z -> (Qfloor x < z)%Z.
Proof.
  intros H. pose proof (Qfloor_le x) as L.
  rewrite Zlt_Qlt. lra.
Qed.

Lemma Qfloor_above (x : Q) (z : Z) : inject_Z z <= x -> (z <= Qfloor x)%Z.
Proof.
  intros H. rewrite <- (Qfloor_Z z). apply Qfloor_resp_le. exact H.
Qed.

(** An exact quotient of integers lies between its floor and one
    denominator step below the next integer. *)
Lemma quotient_bounds (a b : Z) : (0 < b)%Z ->
  inject_Z (a / b) <= inject_Z a / inject_Z b
  /\ inject_Z a / inject_Z b + / inject_Z b <= inject_Z (a / b) + 1.
Proof.
  intros Hb.
  assert (Pb : 0 < inject_Z b) by (change 0 with (inject_Z 0); rewrite <- Zlt_Qlt; lia).
  pose proof (Z.mul_div_le a b Hb) as L.
  pose proof (Z.mul_succ_div_gt a b Hb) as G.
  split.
  - apply Qle_shift_div_l; [exact Pb|]. rewrite <- inject_Z_mult, <- Zle_Qle. lia.
  - assert (E : inject_Z a / inject_Z b + / inject_Z b == inject_Z (a + 1) / inject_Z b).
    { rewrite inject_Z_plus. change (inject_Z 1) with 1. field.
      intro C. rewrite C in Pb. discriminate. }
    rewrite E. apply Qle_shift_div_r; [exact Pb|].
    change 1 with (inject_Z 1). rewrite <- inject_Z_plus, <- inject_Z_mult, <- Zle_Qle. lia.
Qed.

Lemma inverse_above (n : Z) (k : positive) : (0 < n < Zpos k)%Z -> (1 # k) < / inject_Z n.
Proof.
  intros [H0 H1].
  assert (Pn : 0 < inject_Z n) by (change 0 with (inject_Z 0); rewrite <- Zlt_Qlt; lia).
  apply Qlt_shift_div_l with (a := 1 # k) (b := 1) (c := inject_Z n) in Pn as H.
  - unfold Qdiv in H. rewrite Qmult_1_l in H. exact H.
  - unfold Qlt, Qmult. simpl. lia.
Qed.

End PyFloatError.

(** ** The progress percentage *)

Section Percent.

Import PyFloat PyFloatFacts.
Local Open Scope Q_scope.

Lemma hundred : float_of_int 100 == 100.
Proof. unfold float_of_int. apply (RN_int 100). lia. Qed.

Lemma fraction_bounds (i n : nat) : (i <= n)%nat -> (1 <= n)%nat ->
  0 <= inject_Z (Z.of_nat i) / inject_Z (Z.of_nat n) <= 1.
Proof.
  intros Hi Hn.
  assert (Pn : 0 < inject_Z (Z.of_nat n)).
  { change 0 with (inject_Z 0). rewrite <- Zlt_Qlt. lia. }
  split.
  - apply Qle_shift_div_l; [exact Pn|]. rewrite Qmult_0_l.
    change 0 with (inject_Z 0). rewrite <- Zle_Qle. lia.
  - apply Qle_shift_div_r; [exact Pn|]. rewrite Qmult_1_l. rewrite <- Zle_Qle. lia.
Qed.

Lemma fraction_mono (i j n : nat) : (i <= j)%nat -> (1 <= n)%nat ->
  inject_Z (Z.of_nat i) / inject_Z (Z.of_nat n) <= inject_Z (Z.of_nat j) / inject_Z (Z.of_nat n).
Proof.
  intros Hij Hn.
  assert (Pn : 0 < inject_Z (Z.of_nat n)).
  { change 0 with (inject_Z 0). rewrite <- Zlt_Qlt. lia. }
  apply Qmult_le_compat_r.
  - rewrite <- Zle_Qle. lia.
  - apply Qlt_le_weak, Qinv_lt_0_compat, Pn.
Qed.

Lemma truediv_bounds (i n : nat) : (i <= n)%nat -> (1 <= n)%nat ->
  0 <= truediv (Z.of_nat i) (Z.of_nat n) <= 1.
Proof.
  intros Hi Hn. destruct (fraction_bounds i n Hi Hn) as [L U]. unfold truediv. split.
  - apply RN_nonneg. exact L.
  - apply Qle_trans with (RN (inject_Z 1)).
    + apply RN_mono; assumption.
    + rewrite (RN_int 1) by lia. apply Qle_refl.
Qed.

Lemma scaled_bounds (i n : nat) : (i <= n)%nat -> (1 <= n)%nat -> 0 <= scaled i n <= 100.
Proof.
  intros Hi Hn. destruct (truediv_bounds i n Hi Hn) as [L U].
  pose proof hundred as H. unfold scaled, fmul.
  assert (P : 0 <= truediv (Z.of_nat i) (Z.of_nat n) * float_of_int 100).
  { apply Qmult_le_0_compat; [exact L|]. rewrite H. discriminate. }
  split.
  - apply RN_nonneg. exact P.
  - apply Qle_trans with (RN (inject_Z 100)).
    + apply RN_mono; [exact P|]. rewrite H.
      change (inject_Z 100) with (1 * 100). apply Qmult_le_compat_r; [exact U | discriminate].
    + rewrite (RN_int 100) by lia. apply Qle_refl.
Qed.

Lemma scaled_mono (i j n : nat) : (i <= j)%nat -> (j <= n)%nat -> (1 <= n)%nat ->
  scaled i n <= scaled j n.
Proof.
  intros Hij Hj Hn. destruct (truediv_bounds i n ltac:(lia) Hn) as [L U].
  destruct (fraction_bounds i n ltac:(lia) Hn) as [L' U'].
  pose proof hundred as H. unfold scaled, fmul.
  apply RN_mono.
  - apply Qmult_le_0_compat; [exact L|]. rewrite H. discriminate.
  - apply Qmult_le_compat_r; [|rewrite H; discriminate].
    unfold truediv. apply RN_mono; [exact L'|]. apply fraction_mono; assumption.
Qed.

Lemma scaled_full (n : nat) : (1 <= n)%nat -> scaled n n == 100.
Proof.
  intros Hn. pose proof hundred as H.
  assert (Pn : 0 < inject_Z (Z.of_nat n)).
  { change 0 with (inject_Z 0). rewrite <- Zlt_Qlt. lia. }
  assert (E1 : inject_Z (Z.of_nat n) / inject_Z (Z.of_nat n) == inject_Z 1).
  { change (inject_Z 1) with 1. field. intro C. rewrite C in Pn. discriminate. }
  assert (T : truediv (Z.of_nat n) (Z.of_nat n) == 1).
  { unfold truediv. rewrite (RN_comp _ _ (proj1 (fraction_bounds n n ltac:(lia) Hn)) E1).
    apply (RN_int 1). lia. }
  unfold scaled, fmul.
  assert (E2 : truediv (Z.of_nat n) (Z.of_nat n) * float_of_int 100 == inject_Z 100).
  { rewrite T, H. reflexivity. }
  assert (P : 0 <= truediv (Z.of_nat n) (Z.of_nat n) * float_of_int 100).
  { rewrite E2. discriminate. }
  rewrite (RN_comp _ _ P E2).
  apply (RN_int 100). lia.
Qed.

Lemma percent_floor (i n : nat) : (i <= n)%nat -> (1 <= n)%nat ->
  percent i n = Qfloor (scaled i n).
Proof.
  intros Hi Hn. unfold percent. apply int_of_float_nonneg.
  apply (scaled_bounds i n Hi Hn).
Qed.

Lemma percent_bounds (i n : nat) : (i <= n)%nat -> (1 <= n)%nat ->
  (0 <= percent i n <= 100)%Z.
Proof.
  intros Hi Hn. rewrite percent_floor by assumption.
  destruct (scaled_bounds i n Hi Hn) as [L U]. split.
  - change 0%Z with (Qfloor 0). apply Qfloor_resp_le. exact L.
  - change 100%Z with (Qfloor 100). apply Qfloor_resp_le. exact U.
Qed.

Lemma percent_mono (i j n : nat) : (i <= j)%nat -> (j <= n)%nat -> (1 <= n)%nat ->
  (percent i n <= percent j n)%Z.
Proof.
  intros Hij Hj Hn. rewrite !percent_floor by lia.
  apply Qfloor_resp_le. apply scaled_mono; assumption.
Qed.

Lemma percent_full (n : nat) : (1 <= n)%nat -> percent n n = 100%Z.
Proof.
  intros Hn. rewrite percent_floor by lia.
  rewrite (Qfloor_comp _ _ (scaled_full n Hn)). reflexivity.
Qed.

End Percent.

(** ** The percentage and the exact floor *)

Section PercentExact.

Import PyFloat PyFloatFacts PyFloatError.
Local Open Scope Q_scope.

Lemma scaled_near_exact (i n : nat) : (i <= n)%nat -> (1 <= n)%nat ->
  inject_Z (100 * Z.of_nat i) / inject_Z (Z.of_nat n) - (1 # 17592186044416) <= scaled i n
  /\ scaled i n <= inject_Z (100 * Z.of_nat i) / inject_Z (Z.of_nat n) + (1 # 17592186044416).
Proof.
  intros Hi Hn.
  destruct (fraction_bounds i n Hi Hn) as [X0 X1].
  assert (Pn : 0 < inject_Z (Z.of_nat n)).
  { change 0 with (inject_Z 0). rewrite <- Zlt_Qlt. lia. }
  assert (E : inject_Z (100 * Z.of_nat i) / inject_Z (Z.of_nat n)
              == 100 * (inject_Z (Z.of_nat i) / inject_Z (Z.of_nat n))).
  { rewrite inject_Z_mult. change (inject_Z 100) with 100. field.
    intro C. rewrite C in Pn. discriminate. }
  rewrite E. clear E.
  unfold scaled, fmul, truediv.
  set (x := inject_Z (Z.of_nat i) / inject_Z (Z.of_nat n)) in *.
  destruct (RN_within x X0) as [Q0 Q1].
  pose proof (RN_nonneg x X0) as Qp.
  set (q := RN x) in *.
  pose proof hundred as H.
  assert (P : 0 <= q * float_of_int 100) by (rewrite H; lra).
  destruct (RN_within (q * float_of_int 100) P) as [P0 P1].
  set (r := RN (q * float_of_int 100)) in *.
  rewrite H in P0, P1.
  split; lra.
Qed.

(** For fewer than [2 ^ 44] records the percentage is the exact floor of
    [100 * i / n], or one less. *)
Lemma percent_near_floor (i n : nat) : (i <= n)%nat -> (1 <= n)%nat ->
  (Z.of_nat n < 2 ^ 44)%Z ->
  (100 * Z.of_nat i / Z.of_nat n - 1 <= percent i n <= 100 * Z.of_nat i / Z.of_nat n)%Z.
Proof.
  intros Hi Hn Hsmall. rewrite percent_floor by assumption.
  destruct (scaled_near_exact i n Hi Hn) as [L U].
  destruct (quotient_bounds (100 * Z.of_nat i) (Z.of_nat n) ltac:(lia)) as [K0 K1].
  pose proof (inverse_above (Z.of_nat n) 17592186044416 ltac:(lia)) as D.
  set (k := (100 * Z.of_nat i / Z.of_nat n)%Z) in *.
  split.
  - apply Qfloor_above. unfold Z.sub. rewrite inject_Z_plus, inject_Z_opp. change (inject_Z 1) with 1.
    revert L U K0 K1 D.
    generalize (inject_Z (100 * Z.of_nat i) / inject_Z (Z.of_nat n)) (inject_Z k)
      (/ inject_Z (Z.of_nat n)) (scaled i n).
    intros; lra.
  - apply Z.lt_succ_r. apply Qfloor_below.
    unfold Z.succ. rewrite inject_Z_plus. change (inject_Z 1) with 1.
    revert L U K0 K1 D.
    generalize (inject_Z (100 * Z.of_nat i) / inject_Z (Z.of_nat n)) (inject_Z k)
      (/ inject_Z (Z.of_nat n)) (scaled i n).
    intros; lra.
Qed.

End PercentExact.

(** ** Agreement with the Standard Library's binary64

    On a grid of operands the rounding above and [SpecFloat]'s
    operations give the same numbers, for the two computations the
    worker and the gradient make. *)

Lemma scaled_agrees_with_binary64 :
  forallb (fun n =>
    forallb (fun i =>
      Qeq_bool
        (Binary64.value
           (Binary64.mul
              (Binary64.div (Binary64.of_int (Z.of_nat i)) (Binary64.of_int (Z.of_nat n)))
              (Binary64.of_int 100)))
        (scaled i n))
      (seq 1 n))
    (seq 1 24 ++ [100])%list%nat = true.
Proof. vm_compute. reflexivity. Qed.

Lemma blend_agrees_with_binary64 :
  forallb (fun h =>
    forallb (fun i =>
      forallb (fun c1 =>
        forallb (fun c2 =>
          let ratio := Binary64.div (Binary64.of_int (Z.of_nat i))
                                    (Binary64.of_int (Z.of_nat h)) in
          Qeq_bool
            (Binary64.value
               (Binary64.add
                  (Binary64.mul (Binary64.of_int c1)
                                (Binary64.sub (Binary64.of_int 1) ratio))
                  (Binary64.mul (Binary64.of_int c2) ratio)))
            (blend_value c1 c2 (PyFloat.truediv (Z.of_nat i) (Z.of_nat h))))
          [0; 29; 255]%Z)
        [0; 29; 255]%Z)
      (seq 0 h))
    (seq 1 8) = true.
Proof. vm_compute. reflexivity. Qed.

(** ** Strings and paths *)

Lemma prefix_app (a b s : string) :
  String.prefix (a ++ b) s = true -> String.prefix a s = true.
Proof.
  revert s. induction a as [|c a IH]; intros s H.
  - destruct s; reflexivity.
  - destruct s as [|d s]; simpl in *; [discriminate|].
    destruct (ascii_dec c d); [apply IH; exact H | discriminate].
Qed.

Lemma startswith_longer (s a b : string) :
  PyStr.startswith s a = false -> PyStr.startswith s (a ++ b) = false.
Proof.
  unfold PyStr.startswith. intros H.
  destruct (String.prefix (a ++ b) s) eqn:E; [|reflexivity].
  apply prefix_app in E. congruence.
Qed.

(** C2. A payload that starts with [WIFI:], [TEL:], [mailto:] or [http]
    is returned unchanged; every other payload gets [https://] in
    front. *)
Theorem detect_data_type_prefixes (data : string) :
  detect_data_type data =
  if PyStr.startswith data "WIFI:" || PyStr.startswith data "TEL:"
     || PyStr.startswith data "mailto:" || PyStr.startswith data "http"
  then data
  else "https://" ++ data.
Proof.
  unfold detect_data_type.
  destruct (PyStr.startswith data "WIFI:"); [reflexivity|].
  destruct (PyStr.startswith data "TEL:"); [reflexivity|].
  destruct (PyStr.startswith data "mailto:"); [reflexivity|].
  destruct (PyStr.startswith data "http") eqn:H; [reflexivity|].
  pose proof (startswith_longer data "http" "://" H) as H1.
  pose proof (startswith_longer data "http" "s://" H) as H2.
  change ("http" ++ "://") with "http://" in H1.
  change ("http" ++ "s://") with "https://" in H2.
  rewrite H1, H2. reflexivity.
Qed.

(** ** Template lookup *)

Section TemplateLookup.

Context {QRCode Image : Type} (env : collaborators QRCode Image).

Lemma load_custom_ok (t : custom_template) :
  exists f, load_custom env t = Ok f.
Proof.
  unfold load_custom. destruct (py_exec env (ct_code t)); eauto.
Qed.

Lemma find_custom_ok (selected : Z) (ts : list custom_template) :
  exists f, find_custom env selected ts = Ok f.
Proof.
  induction ts as [|t ts IH]; simpl; [eauto|].
  destruct (ct_id t =? selected)%Z; [apply load_custom_ok | exact IH].
Qed.

Lemma find_custom_find (selected : Z) (ts : list custom_template) :
  find_custom env selected ts =
  match List.find (fun t => (ct_id t =? selected)%Z) ts with
  | Some t => load_custom env t
  | None => Ok (template_modern_gradient env)
  end.
Proof.
  induction ts as [|t ts IH]; simpl; [reflexivity|].
  destruct (ct_id t =? selected)%Z; [reflexivity | exact IH].
Qed.

Lemma get_template_function_custom (p : parent) :
  (8 < selected_template p)%Z ->
  get_template_function env p = find_custom env (selected_template p) (custom_templates p).
Proof.
  intros H. unfold get_template_function.
  repeat match goal with
  | |- context [(selected_template p =? ?k)%Z] =>
      destruct (Z.eqb_spec (selected_template p) k); [lia|]
  end.
  reflexivity.
Qed.





End TemplateLookup.



(** ** The fallback palette *)

Section Palette.

Lemma color_distance_sym (c d : rgb) : color_distance c d = color_distance d c.
Proof. destruct c as [[r1 g1] b1], d as [[r2 g2] b2]. unfold color_distance. lia. Qed.

Lemma pairwise_far_nil : pairwise_far [].
Proof. intros i j c d _ H. rewrite lookup_nil in H. discriminate. Qed.

Lemma pairwise_far_snoc (sel : list rgb) (color : rgb) :
  pairwise_far sel ->
  forallb (fun c => (80 <? color_distance color c)%Z) sel = true ->
  pairwise_far (sel ++ [color]).
Proof.
  intros Hsel Hall i j c d Hij Hi Hj.
  rewrite forallb_forall in Hall.
  assert (Hfar : forall k x, sel !! k = Some x -> (80 < color_distance color x)%Z).
  { intros k x Hk. apply Z.ltb_lt, Hall. apply list_elem_of_In.
    eapply list_elem_of_lookup_2. exact Hk. }
  destruct (lt_dec i (length sel)) as [Li|Li]; destruct (lt_dec j (length sel)) as [Lj|Lj].
  - rewrite lookup_app_l in Hi, Hj by assumption. eapply Hsel; eassumption.
  - rewrite lookup_app_l in Hi by assumption.
    rewrite lookup_app_r in Hj by lia.
    destruct (j - length sel)%nat; simpl in Hj; [|rewrite lookup_nil in Hj; discriminate].
    inversion Hj; subst d. rewrite color_distance_sym. eapply Hfar; eassumption.
  - rewrite lookup_app_l in Hj by assumption.
    rewrite lookup_app_r in Hi by lia.
    destruct (i - length sel)%nat; simpl in Hi; [|rewrite lookup_nil in Hi; discriminate].
    inversion Hi; subst c. eapply Hfar; eassumption.
  - rewrite lookup_app_r in Hi, Hj by lia.
    destruct (i - length sel)%nat eqn:Ei; simpl in Hi; [|rewrite lookup_nil in Hi; discriminate].
    destruct (j - length sel)%nat eqn:Ej; simpl in Hj; [|rewrite lookup_nil in Hj; discriminate].
    lia.
Qed.

Lemma select_colors_far (n : nat) (cands : list (rgb * nat)) (sel : list rgb) :
  pairwise_far sel -> pairwise_far (select_colors n cands sel).
Proof.
  revert sel. induction cands as [|[color k] cands IH]; intros sel Hsel; simpl; [exact Hsel|].
  destruct (match sel with [] => true | _ => false end
            || forallb (fun c => (80 <? color_distance color c)%Z) sel) eqn:E.
  - assert (Hall : forallb (fun c => (80 <? color_distance color c)%Z) sel = true).
    { destruct sel; [reflexivity|]. exact E. }
    pose proof (pairwise_far_snoc sel color Hsel Hall) as Hfar.
    destruct (n <=? length (sel ++ [color]))%nat; [exact Hfar | apply IH; exact Hfar].
  - apply IH. exact Hsel.
Qed.

Lemma select_colors_prefix (n : nat) (cands : list (rgb * nat)) (sel : list rgb) :
  exists ext, select_colors n cands sel = (sel ++ ext)%list.
Proof.
  revert sel. induction cands as [|[color k] cands IH]; intros sel; simpl.
  - exists []. rewrite app_nil_r. reflexivity.
  - destruct (_ || _).
    + destruct (n <=? length (sel ++ [color]))%nat.
      * exists [color]. reflexivity.
      * destruct (IH (sel ++ [color])%list) as [ext ->]. exists (color :: ext).
        rewrite <- app_assoc. reflexivity.
    + apply IH.
Qed.

Lemma select_colors_length (n : nat) (cands : list (rgb * nat)) (sel : list rgb) :
  (length sel < n)%nat -> (length (select_colors n cands sel) <= n)%nat.
Proof.
  revert sel. induction cands as [|[color k] cands IH]; intros sel Hlen; simpl; [lia|].
  destruct (_ || _); [|apply IH; exact Hlen].
  destruct (Nat.leb_spec n (length (sel ++ [color]))) as [L|L].
  - rewrite length_app in *. simpl in *. lia.
  - apply IH. exact L.
Qed.

Lemma select_colors_first (n : nat) (color : rgb) (k : nat) (cands : list (rgb * nat)) :
  exists rest, select_colors n ((color, k) :: cands) [] = color :: rest.
Proof.
  simpl. destruct (n <=? 1)%nat; [exists []; reflexivity|].
  destruct (select_colors_prefix n cands [color]) as [ext ->]. exists ext. reflexivity.
Qed.

Lemma pad_colors_fill (fuel n : nat) (first : rgb) (rest : list rgb) :
  (n - length (first :: rest) <= fuel)%nat ->
  pad_colors fuel n (first :: rest) =
  Ok ((first :: rest) ++ repeat (darken first) (n - length (first :: rest)))%list.
Proof.
  revert rest. induction fuel as [|fuel IH]; intros rest Hfuel.
  - simpl pad_colors. replace (n - length (first :: rest))%nat with 0%nat by lia.
    simpl. rewrite app_nil_r. reflexivity.
  - cbn [pad_colors]. destruct (Nat.ltb_spec (length (first :: rest)) n) as [L|L].
    + change ((first :: rest) ++ [darken first])%list with (first :: (rest ++ [darken first]))%list.
      rewrite IH by (cbn [length] in *; rewrite length_app; simpl; lia).
      f_equal. cbn [length] in *. rewrite length_app. cbn [length].
      replace (n - S (length rest))%nat with (S (n - S (length rest + 1)))%nat by lia.
      cbn [repeat app]. f_equal. rewrite <- app_assoc. reflexivity.
    + replace (n - length (first :: rest))%nat with 0%nat by lia.
      simpl. rewrite app_nil_r. reflexivity.
Qed.

Lemma counter_add_cons (c : rgb) (counts : list (rgb * nat)) :
  exists x rest, counter_add c counts = x :: rest.
Proof.
  destruct counts as [|[k n] counts]; simpl; [eauto|].
  destruct (rgb_eqb k c); eauto.
Qed.

Lemma Counter_cons (p : rgb) (pixels : list rgb) :
  exists x rest, Counter (p :: pixels) = x :: rest.
Proof.
  unfold Counter.
  assert (H : forall l x rest, exists y rest',
             fold_left (fun counts q => counter_add q counts) l (x :: rest) = y :: rest').
  { induction l as [|q l IH]; intros x rest; cbn [fold_left]; [eauto|].
    destruct (counter_add_cons q (x :: rest)) as (y & r & ->). apply IH. }
  cbn [fold_left]. destruct (counter_add_cons p []) as (y & r & ->). apply H.
Qed.

Lemma insert_by_count_cons (x : rgb * nat) (sorted : list (rgb * nat)) :
  exists y rest, insert_by_count x sorted = y :: rest.
Proof.
  destruct sorted as [|y sorted]; simpl; [eauto|].
  destruct (snd x <? snd y)%nat; eauto.
Qed.

Lemma most_common_cons (n : nat) (x : rgb * nat) (counts : list (rgb * nat)) :
  exists y rest, most_common (S n) (x :: counts) = y :: rest.
Proof.
  unfold most_common. simpl fold_right.
  destruct (insert_by_count_cons x (fold_right insert_by_count [] counts)) as (y & r & ->).
  simpl. eauto.
Qed.

Lemma default_palette_far : pairwise_far default_palette.
Proof.
  intros i j c d Hij Hi Hj.
  destruct i as [|[|[|i]]]; destruct j as [|[|[|j]]];
    cbn in Hi, Hj; try congruence; try discriminate;
    inversion Hi; inversion Hj; subst; vm_compute; reflexivity.
Qed.

(** The palette of the fallback on decoded pixels: the greedy choice,
    then copies of its first colour darkened once. *)
Lemma fallback_palette_shape (data : list rgb) :
  match fallback_palette data 3 with
  | Ok palette =>
      exists first rest k,
        palette = ((first :: rest) ++ repeat (darken first) k)%list
        /\ pairwise_far (first :: rest) /\ length palette = 3%nat
  | Raise _ => data = []
  end.
Proof.
  unfold fallback_palette.
  set (pixels := filter (fun p => negb (near_white_or_black p)) data).
  set (counted := match pixels with [] => data | _ => pixels end).
  destruct counted as [|p counted'] eqn:Ec.
  - assert (data = []) as ->.
    { unfold counted in Ec. destruct pixels; [exact Ec | discriminate]. }
    reflexivity.
  - destruct (Counter_cons p counted') as (x & cs & ->).
    change (3 * 5)%nat with 15%nat.
    destruct (most_common_cons 14 x cs) as ([color k] & cands & ->).
    pose proof (select_colors_far 3 ((color, k) :: cands) [] pairwise_far_nil) as Hfar.
    pose proof (select_colors_length 3 ((color, k) :: cands) [] ltac:(simpl; lia)) as Hlen.
    destruct (select_colors_first 3 color k cands) as [rest Hsel].
    rewrite Hsel in *.
    rewrite pad_colors_fill by (simpl; lia).
    exists color, rest, (3 - length (color :: rest))%nat.
    assert (Hl : length ((color :: rest) ++ repeat (darken color) (3 - length (color :: rest))) = 3%nat).
    { rewrite length_app, repeat_length. lia. }
    rewrite firstn_all2 by lia.
    auto.
Qed.

Variable get_palette : string -> nat -> result (list rgb).
Variable open_resized : string -> result (list rgb).

(** C6 (amended). Without the quantization library the extractor
    returns exactly 3 entries: a non-empty run of colours that are
    pairwise more than 80 apart (the greedy choice, or the default
    palette), followed by copies of the first colour darkened by 40,
    which are not compared with anything. *)
Theorem fallback_palette_three_entries (logo_path : string) :
  exists first rest k,
    extract_colors_from_logo false get_palette open_resized logo_path 3
      = ((first :: rest) ++ repeat (darken first) k)%list
    /\ pairwise_far (first :: rest)
    /\ length (extract_colors_from_logo false get_palette open_resized logo_path 3) = 3%nat.
Proof.
  unfold extract_colors_from_logo.
  assert (D : exists first rest k,
             default_palette = ((first :: rest) ++ repeat (darken first) k)%list
             /\ pairwise_far (first :: rest) /\ length default_palette = 3%nat).
  { exists (26, 35, 126)%Z, [(74, 0, 224); (138, 43, 226)]%Z, 0%nat.
    split; [reflexivity|]. split; [exact default_palette_far | reflexivity]. }
  destruct (open_resized logo_path) as [data|e]; [|exact D].
  pose proof (fallback_palette_shape data) as H.
  destruct (fallback_palette data 3) as [palette|e]; [exact H | exact D].
Qed.

Lemma Counter_repeat (c : rgb) (n : nat) : Counter (repeat c (S n)) = [(c, S n)].
Proof.
  unfold Counter. simpl.
  assert (H : forall k m, fold_left (fun counts p => counter_add p counts) (repeat c k) [(c, m)]
                          = [(c, (m + k)%nat)]).
  { induction k as [|k IH]; intros m; simpl.
    - rewrite Nat.add_0_r. reflexivity.
    - assert (E : rgb_eqb c c = true).
      { destruct c as [[r g] b]. simpl. rewrite !Z.eqb_refl. reflexivity. }
      rewrite E. rewrite IH. f_equal. f_equal. lia. }
  rewrite H. reflexivity.
Qed.

(** C7 (amended). On a decodable all-white logo the fallback does not
    crash and does not answer with the default palette: with every
    pixel dropped by the thresholds it counts the unfiltered pixels, and
    returns white followed by two copies of white darkened by 40. *)
Theorem all_white_logo_palette (logo_path : string) (n : nat) :
  open_resized logo_path = Ok (repeat (255, 255, 255)%Z (S n)) ->
  extract_colors_from_logo false get_palette open_resized logo_path 3
  = [(255, 255, 255); (215, 215, 215); (215, 215, 215)]%Z.
Proof.
  intros H. unfold extract_colors_from_logo. rewrite H.
  unfold fallback_palette.
  assert (F : filter (fun p => negb (near_white_or_black p)) (repeat (255, 255, 255)%Z (S n)) = []).
  { clear H. generalize (S n). intros k.
    induction k as [|k IH]; [reflexivity|]. simpl. exact IH. }
  rewrite F. rewrite Counter_repeat. reflexivity.
Qed.

End Palette.

(** The 150 x 150 all-white logo. *)
Lemma all_white_logo_palette_witness :
  extract_colors_from_logo false Demo.no_color_thief Demo.open_resized "white.png" 3
  = [(255, 255, 255); (215, 215, 215); (215, 215, 215)]%Z.
Proof.
  apply (all_white_logo_palette Demo.no_color_thief Demo.open_resized "white.png" (150 * 150 - 1)).
  reflexivity.
Defined.

(** C6, as stated, fails on a logo of one colour: the two padding
    entries are equal. *)
Lemma fallback_palette_duplicates :
  extract_colors_from_logo false Demo.no_color_thief Demo.open_resized "grey.png" 3
    = [(100, 100, 100); (60, 60, 60); (60, 60, 60)]%Z
  /\ ~ pairwise_far
         (extract_colors_from_logo false Demo.no_color_thief Demo.open_resized "grey.png" 3).
Proof.
  assert (E : extract_colors_from_logo false Demo.no_color_thief Demo.open_resized "grey.png" 3
              = [(100, 100, 100); (60, 60, 60); (60, 60, 60)]%Z) by (vm_compute; reflexivity).
  split; [exact E|].
  rewrite E. intros H.
  specialize (H 1%nat 2%nat (60, 60, 60)%Z (60, 60, 60)%Z ltac:(lia) eq_refl eq_refl).
  vm_compute in H. discriminate.
Qed.

(** C7, as stated, fails on the all-white logo: the answer is not the
    default palette. *)
Lemma all_white_logo_not_default :
  extract_colors_from_logo false Demo.no_color_thief Demo.open_resized "white.png" 3
  <> default_palette.
Proof. vm_compute. discriminate. Qed.

(** ** Gradients *)

Section Gradient.

Import PyFloat PyFloatFacts.

Lemma RN_times_zero (x : Q) : RN (x * 0) = 0%Q.
Proof. unfold RN. cbn [Qnum Qmult]. rewrite Z.mul_0_r. reflexivity. Qed.

Lemma truediv_zero (b : Z) : truediv 0 b = 0%Q.
Proof. reflexivity. Qed.

(** At ratio 0 the blend is the first colour's channel, exactly. *)
Lemma blend_at_zero (c1 c2 : Z) : (0 <= c1 < 2 ^ 53)%Z -> blend c1 c2 0%Q = c1.
Proof.
  intros Hc. unfold blend, blend_value, fadd, fmul, fsub, float_of_int.
  rewrite RN_times_zero.
  pose proof (RN_int 1 ltac:(lia)) as H1.
  pose proof (RN_int c1 Hc) as Hc1.
  assert (P1 : (0 <= inject_Z 1)%Q) by discriminate.
  assert (Pc : (0 <= inject_Z c1)%Q).
  { change 0%Q with (inject_Z 0). rewrite <- Zle_Qle. lia. }
  assert (S1 : (RN (RN (inject_Z 1) - 0) == 1)%Q).
  { rewrite (RN_comp (RN (inject_Z 1) - 0) (inject_Z 1)).
    - exact H1.
    - rewrite H1. discriminate.
    - rewrite H1. ring. }
  assert (T1 : (RN (RN (inject_Z c1) * RN (RN (inject_Z 1) - 0)) == inject_Z c1)%Q).
  { rewrite (RN_comp _ (inject_Z c1)).
    - exact Hc1.
    - rewrite Hc1, S1. rewrite Qmult_1_r. exact Pc.
    - rewrite Hc1, S1. ring. }
  apply int_of_float_Z; [lia|].
  rewrite (RN_comp _ (inject_Z c1)).
  - exact Hc1.
  - rewrite T1. rewrite Qplus_0_r. exact Pc.
  - rewrite T1. ring.
Qed.

Lemma scanline_at_zero (color1 color2 : rgb) (extent : nat) :
  is_rgb color1 -> scanline color1 color2 extent 0 = color1.
Proof.
  destruct color1 as [[r1 g1] b1], color2 as [[r2 g2] b2].
  intros (Hr & Hg & Hb). unfold scanline.
  change (Z.of_nat 0) with 0%Z. rewrite truediv_zero.
  rewrite !blend_at_zero by lia. reflexivity.
Qed.

Variable fill : nat -> rgb.

Lemma draw_rows_length (width : nat) (k : nat) (base : raster) :
  length (fold_left (fun b i => draw_row width b i (fill i)) (seq 0 k) base) = length base.
Proof.
  induction k as [|k IH]; [reflexivity|].
  rewrite seq_S, fold_left_app. cbn [fold_left Nat.add]. unfold draw_row at 1.
  rewrite length_insert. exact IH.
Qed.

Lemma draw_rows_lookup (width : nat) (k : nat) (base : raster) (y : nat) :
  (k <= length base)%nat ->
  fold_left (fun b i => draw_row width b i (fill i)) (seq 0 k) base !! y
  = if (y <? k)%nat then Some (repeat (fill y) width) else base !! y.
Proof.
  induction k as [|k IH]; intros Hk; [reflexivity|].
  rewrite seq_S, fold_left_app. cbn [fold_left Nat.add]. unfold draw_row at 1.
  destruct (Nat.eq_dec y k) as [->|Hne].
  - rewrite list_lookup_insert_eq by (rewrite draw_rows_length; lia).
    destruct (Nat.ltb_spec k (S k)); [reflexivity | lia].
  - rewrite list_lookup_insert_ne by congruence.
    rewrite IH by lia.
    destruct (Nat.ltb_spec y k); destruct (Nat.ltb_spec y (S k)); try lia; reflexivity.
Qed.

Lemma draw_columns_rows (k : nat) (base : raster) :
  fold_left (fun b i => draw_column b i (fill i)) (seq 0 k) base
  = map (fun row => fold_left (fun r i => <[i := fill i]> r) (seq 0 k) row) base.
Proof.
  induction k as [|k IH].
  - simpl. rewrite map_id. reflexivity.
  - rewrite seq_S, fold_left_app. cbn [fold_left Nat.add]. rewrite IH. unfold draw_column.
    rewrite map_map. apply map_ext. intros row.
    rewrite fold_left_app. reflexivity.
Qed.

Lemma draw_cells_length (k : nat) (row : list rgb) :
  length (fold_left (fun r i => <[i := fill i]> r) (seq 0 k) row) = length row.
Proof.
  induction k as [|k IH]; [reflexivity|].
  rewrite seq_S, fold_left_app. cbn [fold_left Nat.add]. rewrite length_insert. exact IH.
Qed.

Lemma draw_cells_lookup (k : nat) (row : list rgb) (x : nat) :
  (k <= length row)%nat ->
  fold_left (fun r i => <[i := fill i]> r) (seq 0 k) row !! x
  = if (x <? k)%nat then Some (fill x) else row !! x.
Proof.
  induction k as [|k IH]; intros Hk; [reflexivity|].
  rewrite seq_S, fold_left_app. cbn [fold_left Nat.add].
  destruct (Nat.eq_dec x k) as [->|Hne].
  - rewrite list_lookup_insert_eq by (rewrite draw_cells_length; lia).
    destruct (Nat.ltb_spec k (S k)); [reflexivity | lia].
  - rewrite list_lookup_insert_ne by congruence.
    rewrite IH by lia.
    destruct (Nat.ltb_spec x k); destruct (Nat.ltb_spec x (S k)); try lia; reflexivity.
Qed.

End Gradient.

(** ** The channels of a gradient and the exact blend *)

Section BlendExact.

Import PyFloat PyFloatFacts PyFloatError.
Local Open Scope Q_scope.

Lemma product_bound (c s C S : Q) : 0 <= c <= C -> 0 <= s <= S -> 0 <= c * s <= C * S.
Proof.
  intros [c0 c1] [s0 s1]. split.
  - apply Qmult_le_0_compat; assumption.
  - apply Qle_trans with (c * S).
    + rewrite (Qmult_comm c s), (Qmult_comm c S). apply Qmult_le_compat_r; assumption.
    + apply Qmult_le_compat_r; lra.
Qed.

Lemma product_error (c d e C : Q) : 0 <= c <= C -> - e <= d <= e ->
  - (C * e) <= c * d <= C * e.
Proof.
  intros [c0 c1] [d0 d1].
  assert (E : 0 <= e) by lra.
  assert (A : c * d <= c * e).
  { rewrite (Qmult_comm c d), (Qmult_comm c e). apply Qmult_le_compat_r; assumption. }
  assert (B : c * (- e) <= c * d).
  { rewrite (Qmult_comm c (- e)), (Qmult_comm c d). apply Qmult_le_compat_r; assumption. }
  assert (D : c * e <= C * e) by (apply Qmult_le_compat_r; assumption).
  split; lra.
Qed.

(** The float that [int] cuts in [blend], at scanline [i] of [h]. *)
Lemma blend_value_near (c1 c2 : Z) (i h : nat) :
  (0 <= c1 <= 255)%Z -> (0 <= c2 <= 255)%Z -> (i < h)%nat -> (Z.of_nat h < 2 ^ 31)%Z ->
  let ratio := truediv (Z.of_nat i) (Z.of_nat h) in
  let value := fadd (fmul (float_of_int c1) (fsub (float_of_int 1) ratio))
                    (fmul (float_of_int c2) ratio) in
  let exact := inject_Z (c1 * (Z.of_nat h - Z.of_nat i) + c2 * Z.of_nat i)
               / inject_Z (Z.of_nat h) in
  0 <= value
  /\ exact - (1 # 2199023255552) <= value
  /\ value <= exact + (1 # 2199023255552).
Proof.
  intros Hc1 Hc2 Hi Hh ratio value exact.
  assert (Ph : 0 < inject_Z (Z.of_nat h)).
  { change 0 with (inject_Z 0). rewrite <- Zlt_Qlt. lia. }
  destruct (fraction_bounds i h ltac:(lia) ltac:(lia)) as [X0 _].
  pose proof (inverse_above (Z.of_nat h) 2147483648 ltac:(lia)) as D.
  set (x := inject_Z (Z.of_nat i) / inject_Z (Z.of_nat h)) in *.
  set (d := / inject_Z (Z.of_nat h)) in *.
  assert (X1 : x + d <= 1).
  { assert (E : x + d == inject_Z (Z.of_nat i + 1) / inject_Z (Z.of_nat h)).
    { unfold x, d. rewrite inject_Z_plus. change (inject_Z 1) with 1. field.
      intro C. rewrite C in Ph. discriminate. }
    rewrite E. apply Qle_shift_div_r; [exact Ph|]. rewrite Qmult_1_l, <- Zle_Qle. lia. }
  assert (EX : exact == inject_Z c1 * (1 - x) + inject_Z c2 * x).
  { unfold exact, x. rewrite inject_Z_plus, !inject_Z_mult.
    unfold Z.sub. rewrite inject_Z_plus, inject_Z_opp. field.
    intro C. rewrite C in Ph. discriminate. }
  assert (C1 : 0 <= inject_Z c1 <= 255).
  { change 0 with (inject_Z 0). change 255 with (inject_Z 255). rewrite <- !Zle_Qle. lia. }
  assert (C2 : 0 <= inject_Z c2 <= 255).
  { change 0 with (inject_Z 0). change 255 with (inject_Z 255). rewrite <- !Zle_Qle. lia. }
  pose proof (RN_int c1 ltac:(lia)) as F1. pose proof (RN_int c2 ltac:(lia)) as F2.
  pose proof (RN_int 1 ltac:(lia)) as F0. change (inject_Z 1) with 1 in F0 at 2.
  (* ratio *)
  destruct (RN_within x X0) as [R0 R1]. pose proof (RN_nonneg x X0) as Rp.
  unfold value, fadd, fmul, fsub, float_of_int, ratio, truediv. fold x.
  set (rt := RN x) in *.
  (* 1 - ratio *)
  assert (A0 : 0 <= RN (inject_Z 1) - rt) by (rewrite F0; lra).
  destruct (RN_within _ A0) as [S0 S1]. pose proof (RN_nonneg _ A0) as Sp.
  set (st := RN (RN (inject_Z 1) - rt)) in *. rewrite F0 in S0, S1.
  (* c1 * (1 - ratio) *)
  assert (M1 : 0 <= RN (inject_Z c1) * st <= 255 * 2).
  { rewrite F1. apply product_bound; [exact C1 | lra]. }
  assert (E1 : - (255 * (1 # 2251799813685248)) <= inject_Z c1 * (st - (1 - x))
               <= 255 * (1 # 2251799813685248)).
  { apply product_error; [exact C1 | lra]. }
  destruct (RN_within _ (proj1 M1)) as [T0 T1]. pose proof (RN_nonneg _ (proj1 M1)) as Tp.
  set (t1 := RN (RN (inject_Z c1) * st)) in *. rewrite F1 in M1, T0, T1.
  (* c2 * ratio *)
  assert (M2 : 0 <= RN (inject_Z c2) * rt <= 255 * 2).
  { rewrite F2. apply product_bound; [exact C2 | lra]. }
  assert (E2 : - (255 * (1 # 4503599627370496)) <= inject_Z c2 * (rt - x)
               <= 255 * (1 # 4503599627370496)).
  { apply product_error; [exact C2 | lra]. }
  destruct (RN_within _ (proj1 M2)) as [V0 V1]. pose proof (RN_nonneg _ (proj1 M2)) as Vp.
  set (t2 := RN (RN (inject_Z c2) * rt)) in *. rewrite F2 in M2, V0, V1.
  (* the sum *)
  assert (Z0 : 0 <= t1 + t2) by lra.
  destruct (RN_within _ Z0) as [W0 W1]. pose proof (RN_nonneg _ Z0) as Wp.
  set (v := RN (t1 + t2)) in *.
  rewrite EX.
  split; [exact Wp|].
  clear - E1 E2 T0 T1 V0 V1 W0 W1 M1 M2 Tp Vp.
  revert E1 E2 T0 T1 V0 V1 W0 W1 M1 M2 Tp Vp.
  generalize (inject_Z c1) (inject_Z c2). intros k1 k2. intros.
  split; lra.
Qed.

Lemma blend_floor (c1 c2 : Z) (i h : nat) :
  (0 <= c1 <= 255)%Z -> (0 <= c2 <= 255)%Z -> (i < h)%nat -> (Z.of_nat h < 2 ^ 31)%Z ->
  blend c1 c2 (truediv (Z.of_nat i) (Z.of_nat h))
  = Qfloor (fadd (fmul (float_of_int c1)
                       (fsub (float_of_int 1) (truediv (Z.of_nat i) (Z.of_nat h))))
                 (fmul (float_of_int c2) (truediv (Z.of_nat i) (Z.of_nat h)))).
Proof.
  intros Hc1 Hc2 Hi Hh. unfold blend. apply int_of_float_nonneg.
  apply (blend_value_near c1 c2 i h Hc1 Hc2 Hi Hh).
Qed.

(** A channel of a scanline is the floor of the exact blend, or one
    less. *)
Lemma blend_near_exact (c1 c2 : Z) (i h : nat) :
  (0 <= c1 <= 255)%Z -> (0 <= c2 <= 255)%Z -> (i < h)%nat -> (Z.of_nat h < 2 ^ 31)%Z ->
  (exact_blend c1 c2 h i - 1 <= blend c1 c2 (truediv (Z.of_nat i) (Z.of_nat h))
   <= exact_blend c1 c2 h i)%Z.
Proof.
  intros Hc1 Hc2 Hi Hh. rewrite blend_floor by assumption.
  destruct (blend_value_near c1 c2 i h Hc1 Hc2 Hi Hh) as (_ & L & U).
  destruct (quotient_bounds (c1 * (Z.of_nat h - Z.of_nat i) + c2 * Z.of_nat i) (Z.of_nat h)
              ltac:(lia)) as [K0 K1].
  pose proof (inverse_above (Z.of_nat h) 2147483648 ltac:(lia)) as D.
  unfold exact_blend.
  set (k := ((c1 * (Z.of_nat h - Z.of_nat i) + c2 * Z.of_nat i) / Z.of_nat h)%Z) in *.
  split.
  - apply Qfloor_above. unfold Z.sub at 1. rewrite inject_Z_plus, inject_Z_opp.
    change (inject_Z 1) with 1.
    revert L U K0 K1 D.
    generalize (inject_Z (c1 * (Z.of_nat h - Z.of_nat i) + c2 * Z.of_nat i)
                / inject_Z (Z.of_nat h)) (inject_Z k) (/ inject_Z (Z.of_nat h)).
    intros X K d. intros. lra.
  - apply Z.lt_succ_r. apply Qfloor_below.
    unfold Z.succ. rewrite inject_Z_plus. change (inject_Z 1) with 1.
    revert L U K0 K1 D.
    generalize (inject_Z (c1 * (Z.of_nat h - Z.of_nat i) + c2 * Z.of_nat i)
                / inject_Z (Z.of_nat h)) (inject_Z k) (/ inject_Z (Z.of_nat h)).
    intros X K d. intros. lra.
Qed.

Lemma exact_step (n m h : Z) : (0 < h)%Z -> (n + 1 <= m)%Z ->
  inject_Z n / inject_Z h + / inject_Z h <= inject_Z m / inject_Z h.
Proof.
  intros Hh Hnm.
  assert (Ph : 0 < inject_Z h) by (change 0 with (inject_Z 0); rewrite <- Zlt_Qlt; lia).
  assert (E : inject_Z n / inject_Z h + / inject_Z h == inject_Z (n + 1) / inject_Z h).
  { rewrite inject_Z_plus. change (inject_Z 1) with 1. field.
    intro C. rewrite C in Ph. discriminate. }
  rewrite E. apply Qmult_le_compat_r.
  - rewrite <- Zle_Qle. exact Hnm.
  - apply Qlt_le_weak, Qinv_lt_0_compat, Ph.
Qed.

(** Where the two colours differ in a channel, the channel moves from
    the first toward the second and never back. *)
Lemma blend_increasing (c1 c2 : Z) (i j h : nat) :
  (0 <= c1 <= 255)%Z -> (0 <= c2 <= 255)%Z -> (c1 < c2)%Z ->
  (i <= j)%nat -> (j < h)%nat -> (Z.of_nat h < 2 ^ 31)%Z ->
  (blend c1 c2 (truediv (Z.of_nat i) (Z.of_nat h))
   <= blend c1 c2 (truediv (Z.of_nat j) (Z.of_nat h)))%Z.
Proof.
  intros Hc1 Hc2 Hlt Hij Hj Hh.
  destruct (Nat.eq_dec i j) as [->|Hne]; [lia|].
  rewrite !blend_floor by (assumption || lia).
  apply Qfloor_resp_le.
  destruct (blend_value_near c1 c2 i h Hc1 Hc2 ltac:(lia) Hh) as (_ & _ & Ui).
  destruct (blend_value_near c1 c2 j h Hc1 Hc2 Hj Hh) as (_ & Lj & _).
  pose proof (inverse_above (Z.of_nat h) 2147483648 ltac:(lia)) as D.
  pose proof (exact_step (c1 * (Z.of_nat h - Z.of_nat i) + c2 * Z.of_nat i)
                (c1 * (Z.of_nat h - Z.of_nat j) + c2 * Z.of_nat j) (Z.of_nat h)
                ltac:(lia) ltac:(nia)) as S.
  revert Ui Lj D S.
  generalize (inject_Z (c1 * (Z.of_nat h - Z.of_nat i) + c2 * Z.of_nat i) / inject_Z (Z.of_nat h))
    (inject_Z (c1 * (Z.of_nat h - Z.of_nat j) + c2 * Z.of_nat j) / inject_Z (Z.of_nat h))
    (/ inject_Z (Z.of_nat h)).
  intros Xi Xj d. intros. lra.
Qed.

Lemma blend_decreasing (c1 c2 : Z) (i j h : nat) :
  (0 <= c1 <= 255)%Z -> (0 <= c2 <= 255)%Z -> (c2 < c1)%Z ->
  (i <= j)%nat -> (j < h)%nat -> (Z.of_nat h < 2 ^ 31)%Z ->
  (blend c1 c2 (truediv (Z.of_nat j) (Z.of_nat h))
   <= blend c1 c2 (truediv (Z.of_nat i) (Z.of_nat h)))%Z.
Proof.
  intros Hc1 Hc2 Hlt Hij Hj Hh.
  destruct (Nat.eq_dec i j) as [->|Hne]; [lia|].
  rewrite !blend_floor by (assumption || lia).
  apply Qfloor_resp_le.
  destruct (blend_value_near c1 c2 i h Hc1 Hc2 ltac:(lia) Hh) as (_ & Li & _).
  destruct (blend_value_near c1 c2 j h Hc1 Hc2 Hj Hh) as (_ & _ & Uj).
  pose proof (inverse_above (Z.of_nat h) 2147483648 ltac:(lia)) as D.
  pose proof (exact_step (c1 * (Z.of_nat h - Z.of_nat j) + c2 * Z.of_nat j)
                (c1 * (Z.of_nat h - Z.of_nat i) + c2 * Z.of_nat i) (Z.of_nat h)
                ltac:(lia) ltac:(nia)) as S.
  revert Li Uj D S.
  generalize (inject_Z (c1 * (Z.of_nat h - Z.of_nat i) + c2 * Z.of_nat i) / inject_Z (Z.of_nat h))
    (inject_Z (c1 * (Z.of_nat h - Z.of_nat j) + c2 * Z.of_nat j) / inject_Z (Z.of_nat h))
    (/ inject_Z (Z.of_nat h)).
  intros Xi Xj d. intros. lra.
Qed.

End BlendExact.

Lemma lookup_repeat {A} (x : A) (n i : nat) :
  (i < n)%nat -> repeat x n !! i = Some x.
Proof.
  revert i. induction n as [|n IH]; intros i H; [lia|].
  destruct i as [|i]; [reflexivity|]. simpl. apply IH. lia.
Qed.

Lemma Image_new_lookup (width height y : nat) :
  (y < height)%nat -> Image_new width height !! y = Some (repeat (0, 0, 0)%Z width).
Proof.
  intros H. unfold Image_new. apply lookup_repeat. exact H.
Qed.

(** Every pixel of the gradient carries the colour of its scanline. *)
Lemma create_gradient_pixel (width height : nat) (color1 color2 : rgb)
  (direction : string) (x y : nat) :
  (x < width)%nat -> (y < height)%nat ->
  pixel (create_gradient width height color1 color2 direction) x y
  = Some (if String.eqb direction "vertical"
          then scanline color1 color2 height y
          else scanline color1 color2 width x).
Proof.
  intros Hx Hy. unfold create_gradient, pixel.
  destruct (String.eqb direction "vertical").
  - rewrite (draw_rows_lookup (scanline color1 color2 height) width height)
      by (unfold Image_new; rewrite repeat_length; lia).
    destruct (Nat.ltb_spec y height); [|lia].
    apply lookup_repeat. exact Hx.
  - rewrite (draw_columns_rows (scanline color1 color2 width)).
    rewrite list_lookup_fmap. rewrite Image_new_lookup by exact Hy. simpl.
    rewrite draw_cells_lookup by (rewrite repeat_length; lia).
    destruct (Nat.ltb_spec x width); [reflexivity | lia].
Qed.

Lemma scanline_channel (color1 color2 : rgb) (extent i k : nat) (a b v : Z) :
  channels color1 !! k = Some a -> channels color2 !! k = Some b ->
  channels (scanline color1 color2 extent i) !! k = Some v ->
  v = blend a b (PyFloat.truediv (Z.of_nat i) (Z.of_nat extent)).
Proof.
  destruct color1 as [[r1 g1] b1], color2 as [[r2 g2] b2].
  unfold scanline, channels.
  destruct k as [|[|[|k]]]; intros Ha Hb Hv;
    cbv [lookup list_lookup] in Ha, Hb, Hv; congruence.
Qed.

Lemma is_rgb_channel (c : rgb) (k : nat) (a : Z) :
  is_rgb c -> channels c !! k = Some a -> (0 <= a <= 255)%Z.
Proof.
  destruct c as [[r g] b]. intros (Hr & Hg & Hb).
  destruct k as [|[|[|k]]]; cbn; intros H; inversion H; subst; assumption.
Qed.

(** C5 (amended). [create_gradient] gives every pixel the colour of its
    scanline, whose channels are [int(A * (1 - ratio) + B * ratio)]
    with [ratio = position / extent], computed in double precision and
    cut toward zero, not rounded: the floor of the exact blend, or one
    less.  The scanline at position 0 is colour A exactly.  A channel
    in which A and B differ moves from A toward B and never back.
    (The last two for extents below [2 ^ 31].) *)
Theorem create_gradient_scanlines (width height : nat) (color1 color2 : rgb)
  (direction : string) :
  is_rgb color1 -> is_rgb color2 ->
  let extent := if String.eqb direction "vertical" then height else width in
  let position (x y : nat) := if String.eqb direction "vertical" then y else x in
  (forall x y, (x < width)%nat -> (y < height)%nat ->
     pixel (create_gradient width height color1 color2 direction) x y
     = Some (scanline color1 color2 extent (position x y)))
  /\ (forall i k a b v,
        channels color1 !! k = Some a -> channels color2 !! k = Some b ->
        channels (scanline color1 color2 extent i) !! k = Some v ->
        v = PyFloat.int_of_float
              (PyFloat.fadd
                 (PyFloat.fmul (PyFloat.float_of_int a)
                    (PyFloat.fsub (PyFloat.float_of_int 1)
                       (PyFloat.truediv (Z.of_nat i) (Z.of_nat extent))))
                 (PyFloat.fmul (PyFloat.float_of_int b)
                    (PyFloat.truediv (Z.of_nat i) (Z.of_nat extent)))))
  /\ (forall x y, (x < width)%nat -> (y < height)%nat -> position x y = 0%nat ->
        pixel (create_gradient width height color1 color2 direction) x y = Some color1)
  /\ ((Z.of_nat extent < 2 ^ 31)%Z ->
      forall i k a b v, (i < extent)%nat ->
        channels color1 !! k = Some a -> channels color2 !! k = Some b ->
        channels (scanline color1 color2 extent i) !! k = Some v ->
        (exact_blend a b extent i - 1 <= v <= exact_blend a b extent i)%Z)
  /\ ((Z.of_nat extent < 2 ^ 31)%Z ->
      forall i j k a b vi vj, (i <= j)%nat -> (j < extent)%nat ->
        channels color1 !! k = Some a -> channels color2 !! k = Some b ->
        channels (scanline color1 color2 extent i) !! k = Some vi ->
        channels (scanline color1 color2 extent j) !! k = Some vj ->
        ((a < b)%Z -> (vi <= vj)%Z) /\ ((b < a)%Z -> (vj <= vi)%Z)).
Proof.
  intros Hrgb1 Hrgb2 extent position.
  assert (P : forall x y, (x < width)%nat -> (y < height)%nat ->
            pixel (create_gradient width height color1 color2 direction) x y
            = Some (scanline color1 color2 extent (position x y))).
  { intros x y Hx Hy. rewrite create_gradient_pixel by assumption.
    unfold extent, position. destruct (String.eqb direction "vertical"); reflexivity. }
  split; [exact P|]. split; [|split; [|split]].
  - intros i k a b v Ha Hb Hv. apply (scanline_channel _ _ _ _ _ _ _ _ Ha Hb Hv).
  - intros x y Hx Hy H0. rewrite P by assumption. rewrite H0.
    rewrite scanline_at_zero by exact Hrgb1. reflexivity.
  - intros Hext i k a b v Hi Ha Hb Hv.
    rewrite (scanline_channel _ _ _ _ _ _ _ _ Ha Hb Hv).
    apply blend_near_exact; eauto using is_rgb_channel.
  - intros Hext i j k a b vi vj Hij Hj Ha Hb Hvi Hvj.
    rewrite (scanline_channel _ _ _ _ _ _ _ _ Ha Hb Hvi).
    rewrite (scanline_channel _ _ _ _ _ _ _ _ Ha Hb Hvj).
    split; intros Hlt.
    + apply blend_increasing; eauto using is_rgb_channel.
    + apply blend_decreasing; eauto using is_rgb_channel.
Qed.

(** Black to white over two rows: the first row is black. *)
Lemma create_gradient_scanlines_witness :
  pixel (create_gradient 1 2 (0, 0, 0)%Z (255, 255, 255)%Z "vertical") 0 0
  = Some (0, 0, 0)%Z.
Proof.
  refine (proj1 (proj2 (proj2 (create_gradient_scanlines 1 2 (0, 0, 0)%Z (255, 255, 255)%Z
                                 "vertical" _ _))) 0%nat 0%nat _ _ _).
  - simpl. lia.
  - simpl. lia.
  - lia.
  - lia.
  - reflexivity.
Defined.

(** C5, as stated, fails.  Black to white over two rows: the last row
    is (127, 127, 127), neither white nor 127.5 rounded.  A gradient of
    seven rows between two colours with red 29: the red channel is 28
    in row 3 and 29 in the other rows.  The Standard Library's binary64
    gives the same sum for that row,
    [8162774324609023 * 2 ^ -48], which is below 29. *)
Lemma create_gradient_far_end :
  pixel (create_gradient 1 2 (0, 0, 0)%Z (255, 255, 255)%Z "vertical") 0 1
    = Some (127, 127, 127)%Z
  /\ map (fun row => map red row)
         (create_gradient 1 7 (29, 0, 0)%Z (29, 0, 255)%Z "vertical")
     = [[29]; [29]; [29]; [28]; [29]; [29]; [29]]%Z
  /\ ~ monotonic [29; 29; 29; 28; 29; 29; 29]%Z
  /\ (let ratio := Binary64.div (Binary64.of_int 3) (Binary64.of_int 7) in
      Binary64.add
        (Binary64.mul (Binary64.of_int 29) (Binary64.sub (Binary64.of_int 1) ratio))
        (Binary64.mul (Binary64.of_int 29) ratio))
     = S754_finite false 8162774324609023 (-48).
Proof.
  split; [vm_compute; reflexivity|].
  split; [vm_compute; reflexivity|].
  split; [|vm_compute; reflexivity].
  intros [H|H].
  - specialize (H 2%nat 3%nat 29%Z 28%Z ltac:(lia) eq_refl eq_refl). lia.
  - specialize (H 3%nat 4%nat 28%Z 29%Z ltac:(lia) eq_refl eq_refl). lia.
Qed.

(** ** Paths *)

Lemma append_cons (x : ascii) (a b : string) : String x a ++ b = String x (a ++ b).
Proof. reflexivity. Qed.

Lemma append_assoc (a b c : string) : (a ++ b) ++ c = a ++ (b ++ c).
Proof. induction a as [|x a IH]; [reflexivity|]. rewrite !append_cons, IH. reflexivity. Qed.

Lemma length_append (a b : string) :
  String.length (a ++ b) = (String.length a + String.length b)%nat.
Proof.
  induction a as [|x a IH]; [reflexivity|].
  rewrite append_cons. cbn [String.length]. rewrite IH. reflexivity.
Qed.

Lemma last_char_append (a b : string) :
  b <> "" -> PyStr.last_char (a ++ b) = PyStr.last_char b.
Proof.
  intros Hb. induction a as [|x a IH]; [reflexivity|].
  rewrite append_cons. cbn [PyStr.last_char]. destruct (a ++ b) eqn:E; [|exact IH].
  destruct a; [change ("" ++ b) with b in E; congruence|].
  rewrite append_cons in E. discriminate.
Qed.

Lemma append_nonempty (a b : string) : b <> "" -> a ++ b <> "".
Proof.
  intros Hb. destruct a; [exact Hb|]. rewrite append_cons. discriminate.
Qed.

Lemma os_path_join_suffix (a b : string) : exists pre, os_path_join a b = pre ++ b.
Proof.
  unfold os_path_join.
  destruct (PyStr.startswith b "/"); [exists ""; reflexivity|].
  destruct (_ || _); [exists a; reflexivity|].
  exists (a ++ "/"). rewrite append_assoc. reflexivity.
Qed.

Lemma last_char_join (a b : string) :
  b <> "" -> PyStr.last_char (os_path_join a b) = PyStr.last_char b.
Proof.
  intros Hb. destruct (os_path_join_suffix a b) as [pre ->].
  apply last_char_append. exact Hb.
Qed.

Section Paths.

Variable p : parent.

Lemma last_char_formatted_file :
  PyStr.last_char (formatted_file p) = Some "t"%char.
Proof. unfold formatted_file. rewrite last_char_join by discriminate. reflexivity. Qed.

Lemma last_char_history_file :
  PyStr.last_char (history_file p) = Some "n"%char.
Proof. unfold history_file. rewrite last_char_join by discriminate. reflexivity. Qed.

Lemma last_char_output_file (index : nat) (ext : string) :
  PyStr.lower (output_format p) = ext -> ext <> "" ->
  PyStr.last_char (output_file p index) = PyStr.last_char ext.
Proof.
  intros E Hext. unfold output_file. rewrite E.
  assert (N1 : "." ++ ext <> "") by (rewrite append_cons; discriminate).
  assert (N2 : label p index ++ "." ++ ext <> "") by (apply append_nonempty; exact N1).
  assert (N3 : "_" ++ label p index ++ "." ++ ext <> "") by (rewrite append_cons; discriminate).
  rewrite last_char_join by (apply append_nonempty; exact N3).
  rewrite !last_char_append by assumption.
  reflexivity.
Qed.

(** A saved card never lands on [formatted_links.txt]. *)
Lemma output_file_not_formatted (index : nat) :
  card_format p -> output_file p index <> formatted_file p.
Proof.
  intros Hf E.
  assert (L : PyStr.last_char (output_file p index) = Some "t"%char)
    by (rewrite E; apply last_char_formatted_file).
  destruct Hf as [H|[H|H]].
  - rewrite (last_char_output_file index "png") in L by first [discriminate | rewrite H; reflexivity].
    discriminate.
  - rewrite (last_char_output_file index "jpg") in L by first [discriminate | rewrite H; reflexivity].
    discriminate.
  - rewrite (last_char_output_file index "webp") in L by first [discriminate | rewrite H; reflexivity].
    discriminate.
Qed.

Lemma history_file_not_formatted : history_file p <> formatted_file p.
Proof.
  intros E. pose proof last_char_history_file as L.
  rewrite E, last_char_formatted_file in L. discriminate.
Qed.

End Paths.

(** ** The concrete setting *)

Lemma length_le_concat (name : string) (l : list string) :
  In name l -> (String.length name <= String.length (String.concat "" l))%nat.
Proof.
  induction l as [|x l IH]; intros H; [destruct H|].
  assert (E : String.length (String.concat "" (x :: l))
              = (String.length x + String.length (String.concat "" l))%nat).
  { destruct l as [|y l]; simpl; [lia|]. rewrite length_append. reflexivity. }
  rewrite E. destruct H as [->|H]; [lia|]. specialize (IH H). lia.
Qed.

Lemma demo_long_name_fresh (d : gmap string (file string)) :
  d !! Demo.long_name d = None.
Proof.
  destruct (d !! Demo.long_name d) as [v|] eqn:E; [exfalso|reflexivity].
  assert (H : In (Demo.long_name d) (Demo.names d)).
  { unfold Demo.names. apply in_map_iff. exists (Demo.long_name d, v). split; [reflexivity|].
    apply list_elem_of_In. apply elem_of_map_to_list. exact E. }
  apply length_le_concat in H. unfold Demo.long_name in H at 1.
  rewrite !length_append in H. simpl in H. lia.
Qed.

Lemma demo_long_name_not_card (d : gmap string (file string)) (index : nat) :
  Demo.long_name d <> output_file Demo.window index.
Proof. discriminate. Qed.

(** ** One record *)

Section RecordFacts.

Context {QRCode Image : Type} (env : collaborators QRCode Image).
Variable p : parent.
Variable template_func : template Image.
Variable total : nat.

(** [tempfile.mkstemp] hands out a name that is not on the disk. *)
Hypothesis mkstemp_fresh : forall d, d !! mkstemp env d = None.

Lemma render_record_effect (index : nat) (qr : QRCode) (temp : string) (w : world Image) :
  match render_record env p template_func total index qr temp w with
  | (r, w') =>
      history w' = history w /\ finished w' = finished w
      /\ progress w' = (progress w ++ emitted total r index)%list
      /\ (forall path, path <> temp -> (card_format p -> path <> output_file p index) ->
            disk w' !! path = disk w !! path)
      /\ (forall path, is_Some (disk w !! path) -> is_Some (disk w' !! path))
      /\ (r = Ok tt -> card_format p -> is_Some (disk w' !! output_file p index))
  end.
Proof.
  unfold render_record, bind, save_qr, Image_open, save_card, Image_save, ret,
    emit_progress, set_disk.
  destruct (qr_save env qr (qr_scale p)) as [img|e]; cbn [disk dirs history progress finished].
  2: { repeat split; auto; try (simpl; rewrite app_nil_r; reflexivity); discriminate. }
  rewrite lookup_insert_eq.
  destruct (template_func _ _ _ _ _ _) as [final_img|e].
  2: { cbn [disk dirs history progress finished emitted].
       repeat split; auto; try (rewrite app_nil_r; reflexivity); try discriminate.
       - intros path H1 _. apply lookup_insert_ne. congruence.
       - intros path H. apply lookup_insert_is_Some'. auto. }
  destruct (String.eqb_spec (output_format p) "PNG") as [E1|E1];
    [|destruct (String.eqb_spec (output_format p) "JPG") as [E2|E2];
      [|destruct (String.eqb_spec (output_format p) "WEBP") as [E3|E3]]];
    cbn beta iota; cbn [disk dirs history progress finished];
    try match goal with
        | |- context [fault env ?d ?c] => destruct (fault env d c) as [e|]
        end;
    cbn [disk dirs history progress finished emitted].
  all: repeat split; auto; try (rewrite app_nil_r; reflexivity); try discriminate.
  all: try (intros path H1 H2; rewrite ?lookup_insert_ne; auto;
            unfold card_format in H2; intros <-; apply H2; auto; fail).
  all: try (intros path H; rewrite ?lookup_insert_is_Some'; auto; fail).
  all: try (intros _ _; rewrite lookup_insert_eq; eauto; fail).
  all: try (intros path H1 _; rewrite ?lookup_insert_ne; auto; fail).
  all: intros _ [H|[H|H]]; congruence.
Qed.

Lemma record_body_effect (index : nat) (link : string) (w : world Image) :
  match record_body env p template_func total (index, link) w with
  | (r, w') =>
      history w' = history w /\ finished w' = finished w
      /\ progress w' = (progress w ++ emitted total r index)%list
      /\ (forall path, is_Some (disk w !! path) -> is_Some (disk w' !! path))
      /\ (forall c, disk w !! formatted_file p = Some (TextFile c) ->
            disk w' !! formatted_file p = Some (TextFile (c ++ entry p index link)))
      /\ (r = Ok tt -> card_format p ->
          temp_of env p index link w <> output_file p index ->
          is_Some (disk w' !! output_file p index))
      /\ disk w' !! temp_of env p index link w = None
  end.
Proof.
  unfold temp_of, record_body, bind, write_text, lift, make_temp, try_finally,
    unlink_if_exists, set_disk.
  cbn [fst snd disk dirs history progress finished].
  set (d1 := alter (append_text (entry p index link)) (formatted_file p) (disk w)).
  assert (D1 : forall path, is_Some (disk w !! path) -> is_Some (d1 !! path)).
  { intros path H. apply lookup_alter_is_Some. exact H. }
  assert (F1 : forall c, disk w !! formatted_file p = Some (TextFile c) ->
               d1 !! formatted_file p = Some (TextFile (c ++ entry p index link))).
  { intros c H. unfold d1. rewrite lookup_alter_eq, H. reflexivity. }
  destruct (segno_make env (detect_data_type link)) as [qr|e].
  2: { cbn [disk dirs history progress finished emitted].
       repeat split; auto; try (rewrite app_nil_r; reflexivity); discriminate. }
  set (temp := mkstemp env d1).
  pose proof (mkstemp_fresh d1) as Fresh. fold temp in Fresh.
  match goal with
  | |- context [render_record env p template_func total index qr temp ?w2] =>
      pose proof (render_record_effect index qr temp w2) as R;
      destruct (render_record env p template_func total index qr temp w2) as [r w3]
  end.
  cbn [disk dirs history progress finished] in *.
  destruct R as (Rh & Rf & Rp & Rd & Rs & Ro).
  assert (Present : forall path, is_Some (d1 !! path) -> path <> temp).
  { intros path [v Hv] ->. congruence. }
  repeat split; auto.
  - intros path H. apply lookup_delete_is_Some. split.
    + intros E. apply (Present path (D1 path H)). congruence.
    + apply Rs. apply lookup_insert_is_Some'. right. apply D1. exact H.
  - intros c H. pose proof (F1 c H) as H1.
    assert (Hne : formatted_file p <> temp) by (apply Present; rewrite H1; eauto).
    rewrite lookup_delete_ne by congruence.
    rewrite Rd.
    + rewrite lookup_insert_ne by congruence. exact H1.
    + exact Hne.
    + intros Hf E. symmetry in E. revert E. apply output_file_not_formatted. exact Hf.
  - intros Hr Hf Hne. apply lookup_delete_is_Some. split; [exact Hne | apply Ro; assumption].
  - apply lookup_delete_eq.
Qed.

(** ** The loop *)

Lemma for_each_app {A} (xs ys : list A) (body : A -> M Image unit) (w : world Image) :
  for_each (xs ++ ys) body w = bind (for_each xs body) (fun _ => for_each ys body) w.
Proof.
  revert w. induction xs as [|x xs IH]; intros w.
  - reflexivity.
  - cbn [for_each app]. unfold bind. destruct (body x w) as [[[]|e] w1]; [|reflexivity].
    rewrite IH. reflexivity.
Qed.

Lemma enumerate_app {A} (start : nat) (xs ys : list A) :
  enumerate start (xs ++ ys) = (enumerate start xs ++ enumerate (start + length xs) ys)%list.
Proof.
  revert start. induction xs as [|x xs IH]; intros start; cbn [app enumerate length].
  - rewrite Nat.add_0_r. reflexivity.
  - rewrite IH. replace (start + S (length xs))%nat with (S start + length xs)%nat by lia.
    reflexivity.
Qed.

Lemma entries_app (start : nat) (xs ys : list string) :
  entries p start (xs ++ ys) = entries p start xs ++ entries p (start + length xs) ys.
Proof.
  revert start. induction xs as [|x xs IH]; intros start; cbn [app entries length].
  - rewrite Nat.add_0_r. reflexivity.
  - rewrite IH, append_assoc.
    replace (start + S (length xs))%nat with (S start + length xs)%nat by lia.
    reflexivity.
Qed.

Lemma append_empty_r (s : string) : s ++ "" = s.
Proof. induction s as [|c s IH]; [reflexivity|]. rewrite append_cons, IH. reflexivity. Qed.

(** The records that ran to their end, in a loop that ran to its end. *)
Lemma loop_effect (links : list string) (start : nat) (w : world Image) :
  match for_each (enumerate start links) (record_body env p template_func total) w with
  | (r, w') =>
      history w' = history w /\ finished w' = finished w
      /\ (forall path, is_Some (disk w !! path) -> is_Some (disk w' !! path))
      /\ (r = Ok tt ->
          progress w' = (progress w ++ map (fun i => percent i total) (seq start (length links)))%list
          /\ (forall c, disk w !! formatted_file p = Some (TextFile c) ->
                disk w' !! formatted_file p = Some (TextFile (c ++ entries p start links)))
          /\ (card_format p -> (forall d j, mkstemp env d <> output_file p j) ->
              forall j, (start <= j < start + length links)%nat ->
                is_Some (disk w' !! output_file p j)))
  end.
Proof.
  revert start w. induction links as [|link links IH]; intros start w.
  - cbn [enumerate for_each ret length seq map entries].
    split; [reflexivity|]. split; [reflexivity|]. split; [auto|].
    intros _. split; [|split].
    + rewrite app_nil_r. reflexivity.
    + intros c Hc. rewrite append_empty_r. exact Hc.
    + intros _ _ j Hj. lia.
  - cbn [enumerate for_each]. unfold bind.
    pose proof (record_body_effect start link w) as B.
    destruct (record_body env p template_func total (start, link) w) as [[[]|e] w1].
    + destruct B as (Bh & Bf & Bp & Bs & Bt & Bo & _).
      specialize (IH (S start) w1).
      destruct (for_each (enumerate (S start) links) (record_body env p template_func total) w1)
        as [r w2].
      destruct IH as (Ih & If & Is & Ir).
      split; [congruence|]. split; [congruence|]. split; [auto|].
      intros Hr. destruct (Ir Hr) as (Ip & It & Io). split; [|split].
      * rewrite Ip, Bp. cbn [emitted length seq map].
        rewrite <- app_assoc. reflexivity.
      * intros c Hc.
        rewrite (It _ (Bt c Hc)). cbn [entries]. rewrite append_assoc. reflexivity.
      * intros Hf Hn j Hj.
        destruct (Nat.eq_dec j start) as [->|Hne].
        -- apply Is. apply Bo; auto. unfold temp_of. apply Hn.
        -- apply Io; auto. cbn [length] in Hj. lia.
    + destruct B as (Bh & Bf & Bp & Bs & Bt & Bo & _).
      split; [exact Bh|]. split; [exact Bf|]. split; [exact Bs|]. discriminate.
Qed.

End RecordFacts.

(** ** The signals of a job *)

Section Signals.

Context {QRCode Image : Type} (env : collaborators QRCode Image).
Variable p : parent.
Variable template_func : template Image.
Variable total : nat.

Lemma record_body_signals (index : nat) (link : string) (w : world Image) :
  match record_body env p template_func total (index, link) w with
  | (r, w') =>
      history w' = history w /\ finished w' = finished w
      /\ progress w' = (progress w ++ emitted total r index)%list
  end.
Proof.
  unfold record_body, bind, write_text, lift, make_temp, try_finally, unlink_if_exists,
    render_record, bind, save_qr, Image_open, save_card, Image_save, ret,
    emit_progress, set_disk.
  cbn [fst snd disk dirs history progress finished].
  destruct (segno_make env (detect_data_type link)) as [qr|e];
    cbn [disk dirs history progress finished emitted].
  2: { rewrite app_nil_r. auto. }
  destruct (qr_save env qr (qr_scale p)) as [img|e];
    cbn [disk dirs history progress finished emitted].
  2: { rewrite app_nil_r. auto. }
  rewrite lookup_insert_eq.
  destruct (template_func _ _ _ _ _ _) as [final_img|e];
    cbn [disk dirs history progress finished emitted].
  2: { rewrite app_nil_r. auto. }
  destruct (output_format p =? "PNG")%string;
    [|destruct (output_format p =? "JPG")%string;
      [|destruct (output_format p =? "WEBP")%string]];
    cbn beta iota; cbn [disk dirs history progress finished];
    try match goal with
        | |- context [fault env ?d ?c] => destruct (fault env d c) as [e|]
        end;
    cbn [disk dirs history progress finished emitted];
    rewrite ?app_nil_r; auto.
Qed.

(** A loop that runs to its end emits the percentage of every record,
    in order; no turn touches the history or the completion channel. *)
Lemma loop_signals (links : list string) (start : nat) (w : world Image) :
  match for_each (enumerate start links) (record_body env p template_func total) w with
  | (r, w') =>
      history w' = history w /\ finished w' = finished w
      /\ (r = Ok tt ->
          progress w' = (progress w ++ map (fun i => percent i total) (seq start (length links)))%list)
  end.
Proof.
  revert start w. induction links as [|link links IH]; intros start w.
  - cbn [enumerate for_each ret length seq map]. rewrite app_nil_r. auto.
  - cbn [enumerate for_each]. unfold bind.
    pose proof (record_body_signals start link w) as B.
    destruct (record_body env p template_func total (start, link) w) as [[[]|e] w1];
      destruct B as (Bh & Bf & Bp).
    + specialize (IH (S start) w1).
      destruct (for_each (enumerate (S start) links) (record_body env p template_func total) w1)
        as [r w2].
      destruct IH as (Ih & If & Ip).
      split; [congruence|]. split; [congruence|].
      intros Hr. rewrite (Ip Hr), Bp. cbn [emitted length seq map].
      rewrite <- app_assoc. reflexivity.
    + split; [exact Bh|]. split; [exact Bf|]. discriminate.
Qed.

End Signals.

(** ** The job around the loop *)

Section JobFacts.

Context {QRCode Image : Type} (env : collaborators QRCode Image).
Variable p : parent.

Lemma get_template_function_total : exists f, get_template_function env p = Ok f.
Proof.
  unfold get_template_function.
  repeat match goal with
  | |- context [if ?b then _ else _] => destruct b; [eauto|]
  end.
  apply find_custom_ok.
Qed.

(** What the statements before the loop have done when they hand over
    to it. *)
Lemma prologue_inv (w w0 : world Image) (links : list string) (template_func : template Image) :
  prologue env p w = (Ok (links, template_func), w0) ->
  exists content,
    disk w !! input_file p = Some (TextFile content)
    /\ links = stripped_lines (PyStr.readlines content)
    /\ disk w0 = <[formatted_file p := TextFile ""]> (disk w)
    /\ history w0 = history w
    /\ progress w0 = (progress w ++ [0%Z])%list
    /\ finished w0 = finished w.
Proof.
  unfold prologue, bind, os_makedirs, read_lines, emit_progress, lift, open_write, ret, set_disk.
  destruct (fault env (disk w) (Makedirs (output_dir p))); [discriminate|].
  cbn [disk dirs history progress finished].
  destruct (disk w !! input_file p) as [[content| |]|] eqn:E; try discriminate.
  cbn [disk dirs history progress finished].
  destruct (get_template_function env p) as [f|e]; [|discriminate].
  cbn [disk dirs history progress finished].
  destruct (fault env (disk w) (OpenWrite (formatted_file p))); [discriminate|].
  intros H. inversion H; subst. exists content. cbn. repeat split; reflexivity.
Qed.

Lemma run_completed (w w0 w1 : world Image) (links : list string) (template_func : template Image) :
  prologue env p w = (Ok (links, template_func), w0) ->
  records_loop env p links template_func w0 = (Ok tt, w1) ->
  job env p w = epilogue env p (length links) w1
  /\ run env p w = snd (epilogue env p (length links) w1).
Proof.
  intros Hp Hl. unfold run, try_except, job, bind. rewrite Hp. cbn [fst snd]. rewrite Hl.
  split; [reflexivity|].
  unfold epilogue, bind, append_history, save_history, emit_finished, set_disk.
  cbn [disk dirs history progress finished].
  destruct (fault env (disk w1) (OpenWrite (history_file p))); reflexivity.
Qed.

Lemma run_aborted (w w0 w2 : world Image) (links : list string) (template_func : template Image)
  (e : exn) :
  prologue env p w = (Ok (links, template_func), w0) ->
  records_loop env p links template_func w0 = (Raise e, w2) ->
  run env p w = match e with
                | Exception text => snd (emit_finished false (failure_message text) w2)
                | BaseException _ => w2
                end.
Proof.
  intros Hp Hl. unfold run, try_except, job, bind. rewrite Hp. cbn [fst snd]. rewrite Hl.
  destruct e; reflexivity.
Qed.

(** A loop stopped by the record after [done]. *)
Lemma loop_stopped (template_func : template Image) (done rest : list string) (link : string)
  (e : exn) (w0 w1 w2 : world Image) :
  for_each (enumerate 1 done)
    (record_body env p template_func (length (done ++ link :: rest))) w0 = (Ok tt, w1) ->
  record_body env p template_func (length (done ++ link :: rest)) (S (length done), link) w1
    = (Raise e, w2) ->
  records_loop env p (done ++ link :: rest) template_func w0 = (Raise e, w2).
Proof.
  intros Hd Hb. unfold records_loop. rewrite enumerate_app, for_each_app.
  unfold bind. rewrite Hd. cbn [enumerate for_each Nat.add]. unfold bind. rewrite Hb.
  reflexivity.
Qed.

Lemma concat_cons (x : string) (l : list string) :
  String.concat "" (x :: l) = x ++ String.concat "" l.
Proof.
  destruct l as [|y l]; cbn [String.concat]; [symmetry; apply append_empty_r | reflexivity].
Qed.

(** What the loop writes is what the specification asks for. *)
Lemma entries_formatted (start : nat) (links : list string) :
  entries p start links
  = String.concat ""
      (map (fun record : nat * string =>
              name_prefix p ++ " " ++ PyStr.str_nat (fst record)
              ++ String "010" ("`" ++ snd record ++ "`" ++ String "010" (String "010" "")))
           (enumerate start links)).
Proof.
  revert start. induction links as [|link links IH]; intros start; [reflexivity|].
  cbn [entries enumerate map]. rewrite concat_cons, IH. f_equal.
  unfold entry, label. cbn [fst snd]. rewrite !append_assoc. reflexivity.
Qed.

Lemma entries_formatted_links (links : list string) :
  entries p 1 links = formatted_links (name_prefix p) links.
Proof. apply entries_formatted. Qed.

End JobFacts.

(** ** The claims about a batch run *)

Section RunClaims.

Context {QRCode Image : Type} (env : collaborators QRCode Image).
Variable p : parent.

(** C1 (amended). When the body of the loop raises for the record
    after [done], what [run] reports depends on the class of the
    exception.  For an [Exception] it emits one completion signal, a
    failure whose message is the banner, a newline and the text of the
    error; for an exception that does not derive from [Exception] it
    emits none.  In both cases the history is as it was, and every file
    that was on disk when the failing record began is still there,
    among them the cards of the records before it. *)
Theorem run_reports_record_failure (w w0 w1 w2 : world Image)
  (template_func : template Image) (done rest : list string) (link : string) (e : exn) :
  (forall d, d !! mkstemp env d = None) ->
  (forall d j, mkstemp env d <> output_file p j) ->
  prologue env p w = (Ok (done ++ link :: rest, template_func), w0)%list ->
  for_each (enumerate 1 done)
    (record_body env p template_func (length (done ++ link :: rest))) w0 = (Ok tt, w1) ->
  record_body env p template_func (length (done ++ link :: rest)) (S (length done), link) w1
    = (Raise e, w2) ->
  finished (run env p w)
    = match e with
      | Exception text =>
          (finished w ++ [(false, ("❌ Failed to generate QR codes:"
                                   ++ String "010" text)%string)])%list
      | BaseException _ => finished w
      end
  /\ history (run env p w) = history w
  /\ (forall path, is_Some (disk w1 !! path) -> is_Some (disk (run env p w) !! path))
  /\ (card_format p -> forall j, (1 <= j <= length done)%nat ->
        is_Some (disk (run env p w) !! output_file p j)).
Proof.
  intros Fresh NotCard Hp Hd Hb.
  rewrite (run_aborted env p w w0 w2 _ template_func e Hp
             (loop_stopped env p template_func done rest link e w0 w1 w2 Hd Hb)).
  destruct (prologue_inv env p w w0 _ _ Hp) as (content & _ & _ & _ & Ph & _ & Pf).
  pose proof (loop_effect env p template_func (length (done ++ link :: rest)) Fresh done 1 w0) as L.
  rewrite Hd in L. destruct L as (Lh & Lf & Ls & Lr).
  destruct (Lr eq_refl) as (_ & _ & Lo).
  pose proof (record_body_effect env p template_func (length (done ++ link :: rest)) Fresh
                (S (length done)) link w1) as B.
  rewrite Hb in B. destruct B as (Bh & Bf & _ & Bs & _).
  destruct e as [text|text]; cbn [emit_finished snd disk dirs history progress finished].
  - split; [rewrite Bf, Lf, Pf; reflexivity|]. split; [congruence|]. split; [exact Bs|].
    intros Hf j Hj. apply Bs. apply Lo; auto. lia.
  - split; [congruence|]. split; [congruence|]. split; [exact Bs|].
    intros Hf j Hj. apply Bs. apply Lo; auto. lia.
Qed.

(** C3 (amended). A job over N >= 1 records that ends without an
    exception emits 0 and then, after record i, [int((i / N) * 100)]
    as Python computes it in double precision.  These values lie in
    0..100, never decrease, and end with 100; each is the exact floor
    of 100 * i / N or one less (for N below [2 ^ 44]). *)
Theorem progress_of_completed_job (w w' : world Image) (content : string) :
  disk w !! input_file p = Some (TextFile content) ->
  (1 <= length (stripped_lines (PyStr.readlines content)))%nat ->
  job env p w = (Ok tt, w') ->
  let N := length (stripped_lines (PyStr.readlines content)) in
  progress (run env p w)
    = (progress w ++ 0%Z :: map (fun i => percent i N) (seq 1 N))%list
  /\ (forall i, (1 <= i <= N)%nat -> (0 <= percent i N <= 100)%Z)
  /\ (forall i j, (1 <= i)%nat -> (i <= j)%nat -> (j <= N)%nat ->
        (percent i N <= percent j N)%Z)
  /\ percent N N = 100%Z
  /\ ((Z.of_nat N < 2 ^ 44)%Z ->
      forall i, (1 <= i <= N)%nat ->
        (100 * Z.of_nat i / Z.of_nat N - 1 <= percent i N <= 100 * Z.of_nat i / Z.of_nat N)%Z).
Proof.
  intros Hin HN Hjob N.
  split; [|split; [|split; [|split]]].
  - unfold job, bind in Hjob.
    destruct (prologue env p w) as [[[links template_func]|e] w0] eqn:Hp; [|discriminate].
    cbn [fst snd] in Hjob.
    destruct (records_loop env p links template_func w0) as [[[]|e] w1] eqn:Hl; [|discriminate].
    destruct (run_completed env p w w0 w1 links template_func Hp Hl) as [_ ->].
    destruct (prologue_inv env p w w0 _ _ Hp) as (content' & Hc & Hlinks & _ & _ & Pp & _).
    assert (content' = content) as -> by congruence.
    pose proof (loop_signals env p template_func (length links) links 1 w0) as L.
    unfold records_loop in Hl. rewrite Hl in L. destruct L as (_ & _ & Lp).
    unfold epilogue, bind, append_history, save_history, emit_finished, set_disk.
    cbn [disk dirs history progress finished].
    destruct (fault env (disk w1) (OpenWrite (history_file p)));
      cbn [snd progress]; rewrite (Lp eq_refl), Pp, <- app_assoc; subst links; reflexivity.
  - intros i Hi. apply percent_bounds; lia.
  - intros i j Hi Hij Hj. apply percent_mono; lia.
  - apply percent_full. exact HN.
  - intros Hsmall i Hi. apply percent_near_floor; lia.
Qed.

(** C9. The file that [mkstemp] creates for a record is on disk while
    the record is rendered and is gone when the body of the loop ends
    for that record, whether the body returns or raises. *)
Theorem temp_bitmap_released (w w' : world Image) (template_func : template Image)
  (total index : nat) (link : string) (qr : QRCode) (r : result unit) :
  segno_make env (detect_data_type link) = Ok qr ->
  record_body env p template_func total (index, link) w = (r, w') ->
  disk (snd (make_temp env (snd (write_text (formatted_file p) (entry p index link) w))))
    !! temp_of env p index link w = Some (TextFile "")
  /\ disk w' !! temp_of env p index link w = None.
Proof.
  intros Hqr Hbody. split.
  - unfold temp_of, make_temp, set_disk. cbn [snd disk]. apply lookup_insert_eq.
  - unfold temp_of, record_body, bind, write_text, lift, make_temp, try_finally,
      unlink_if_exists, set_disk in *.
    cbn [fst snd disk dirs history progress finished] in *.
    rewrite Hqr in Hbody.
    match type of Hbody with
    | (let (_, _) := ?x in _) = _ => destruct x as [r3 w3]
    end.
    inversion Hbody; subst. cbn [disk]. apply lookup_delete_eq.
Qed.

(** C10. A run that reaches the loop leaves [formatted_links.txt] in
    the output directory.  It holds, for each record in input order,
    the label (prefix, space, index from 1) on a line, the payload as
    read from the input between backticks, and an empty line: for
    every record when the loop ends, and for the records up to and
    including the failing one when a record raises, since an entry is
    written before its record is encoded. *)
Theorem formatted_links_written (w w0 : world Image) (links : list string)
  (template_func : template Image) :
  (forall d, d !! mkstemp env d = None) ->
  prologue env p w = (Ok (links, template_func), w0) ->
  (exists content,
     disk w !! input_file p = Some (TextFile content)
     /\ links = filter (fun s => negb (String.eqb s ""))
                       (map PyStr.strip (PyStr.readlines content)))
  /\ (forall w1, records_loop env p links template_func w0 = (Ok tt, w1) ->
        disk (run env p w) !! os_path_join (output_dir p) "formatted_links.txt"
        = Some (TextFile (formatted_links (name_prefix p) links)))
  /\ (forall done link rest e w1 w2,
        links = (done ++ link :: rest)%list ->
        for_each (enumerate 1 done) (record_body env p template_func (length links)) w0
          = (Ok tt, w1) ->
        record_body env p template_func (length links) (S (length done), link) w1
          = (Raise e, w2) ->
        disk (run env p w) !! os_path_join (output_dir p) "formatted_links.txt"
        = Some (TextFile (formatted_links (name_prefix p) (done ++ [link])))).
Proof.
  intros Fresh Hp. change (os_path_join (output_dir p) "formatted_links.txt") with (formatted_file p).
  destruct (prologue_inv env p w w0 _ _ Hp) as (content & Hc & Hlinks & Pd & _).
  assert (F0 : disk w0 !! formatted_file p = Some (TextFile "")).
  { rewrite Pd. apply lookup_insert_eq. }
  split; [exists content; split; [exact Hc | exact Hlinks]|].
  split.
  - intros w1 Hl.
    destruct (run_completed env p w w0 w1 links template_func Hp Hl) as [_ ->].
    pose proof (loop_effect env p template_func (length links) Fresh links 1 w0) as L.
    unfold records_loop in Hl. rewrite Hl in L. destruct L as (_ & _ & _ & Lr).
    destruct (Lr eq_refl) as (_ & Lt & _). specialize (Lt "" F0).
    rewrite <- entries_formatted_links.
    unfold epilogue, bind, append_history, save_history, emit_finished, set_disk.
    cbn [disk dirs history progress finished].
    destruct (fault env (disk w1) (OpenWrite (history_file p))); cbn [snd disk].
    + exact Lt.
    + rewrite lookup_insert_ne by apply history_file_not_formatted. exact Lt.
  - intros done link rest e w1 w2 -> Hd Hb.
    rewrite (run_aborted env p w w0 w2 _ template_func e Hp
               (loop_stopped env p template_func done rest link e w0 w1 w2 Hd Hb)).
    pose proof (loop_effect env p template_func (length (done ++ link :: rest)) Fresh done 1 w0) as L.
    rewrite Hd in L. destruct L as (_ & _ & _ & Lr).
    destruct (Lr eq_refl) as (_ & Lt & _). specialize (Lt "" F0).
    pose proof (record_body_effect env p template_func (length (done ++ link :: rest)) Fresh
                  (S (length done)) link w1) as B.
    rewrite Hb in B. destruct B as (_ & _ & _ & _ & Bt & _).
    rewrite <- entries_formatted_links.
    assert (G : disk w2 !! formatted_file p
                = Some (TextFile (entries p 1 (done ++ [link])))).
    { rewrite (Bt _ Lt). rewrite entries_app. cbn [entries Nat.add].
      rewrite append_empty_r. reflexivity. }
    destruct e; cbn [emit_finished snd disk]; exact G.
Qed.

(** C4 (amended). [start_generation] asks for an input path that is
    set and of which [os.path.exists] holds; otherwise it warns and
    nothing else happens (no file, no history record, no signal).
    With both it launches the worker, whatever the path names.  It
    does not look into the file: with no non-blank line the job runs
    over zero records, makes the output directory, creates an empty
    [formatted_links.txt], appends a history record with count 0 and
    reports success.  A path that exists and is not a text file, a
    directory for one, launches the worker as well: it makes the
    output directory, then reports the read error as a failure; no
    file is written and the history is as it was. *)
Theorem start_generation_checks_path_only (w : world Image) :
  (input_file p = "" -> start_generation env p w = Warning "Please select input file" w)
  /\ (input_file p <> "" -> path_exists env (disk w) (dirs w) (input_file p) = false ->
      start_generation env p w = Warning "Input file does not exist" w)
  /\ (input_file p <> "" -> path_exists env (disk w) (dirs w) (input_file p) = true ->
      start_generation env p w = Launched (run env p w))
  /\ (forall content,
        disk w !! input_file p = Some (TextFile content) ->
        filter (fun s => negb (String.eqb s "")) (map PyStr.strip (PyStr.readlines content)) = [] ->
        fault env (disk w) (Makedirs (output_dir p)) = None ->
        fault env (disk w) (OpenWrite (formatted_file p)) = None ->
        finished (run env p w)
        = (finished w ++ [(true, ("✅ Generated 0 QR codes successfully!"
                                  ++ String "010" (String "010" ("📁 Path: " ++ output_dir p)))%string)])%list
        /\ history (run env p w)
           = (history w ++ [{| h_date := now env;
                               h_template := get_template_name p;
                               h_count := 0;
                               h_output_dir := output_dir p |}])%list
        /\ progress (run env p w) = (progress w ++ [0%Z])%list
        /\ disk (run env p w) !! os_path_join (output_dir p) "formatted_links.txt"
           = Some (TextFile "")
        /\ output_dir p ∈ dirs (run env p w))
  /\ ((forall content, disk w !! input_file p <> Some (TextFile content)) ->
      fault env (disk w) (Makedirs (output_dir p)) = None ->
      finished (run env p w)
      = (finished w ++ [(false, ("❌ Failed to generate QR codes:"
                                 ++ String "010" (read_error env (disk w) (input_file p)))%string)])%list
      /\ history (run env p w) = history w
      /\ progress (run env p w) = progress w
      /\ disk (run env p w) = disk w
      /\ output_dir p ∈ dirs (run env p w)).
Proof.
  split; [|split; [|split; [|split]]].
  - intros H. unfold start_generation. rewrite H. reflexivity.
  - intros H1 H2. unfold start_generation.
    destruct (String.eqb_spec (input_file p) ""); [contradiction|]. rewrite H2. reflexivity.
  - intros H1 H2. unfold start_generation.
    destruct (String.eqb_spec (input_file p) ""); [contradiction|]. rewrite H2. reflexivity.
  - intros content H2 H3 H4 H5.
    change (os_path_join (output_dir p) "formatted_links.txt") with (formatted_file p).
    destruct (get_template_function_total env p) as [f Hf].
    unfold run, try_except, job, prologue, records_loop, epilogue, bind, os_makedirs,
      read_lines, emit_progress, lift, open_write, ret, append_history, save_history,
      emit_finished, set_disk, stripped_lines.
    rewrite H4. cbn [disk dirs history progress finished fst snd].
    rewrite H2, H3, Hf. cbn [disk dirs history progress finished fst snd].
    rewrite H5. cbn [disk dirs history progress finished fst snd length enumerate for_each ret].
    destruct (fault env _ (OpenWrite (history_file p)));
      cbn [disk dirs history progress finished fst snd].
    + repeat split; try reflexivity; [apply lookup_insert_eq | set_solver].
    + repeat split; try reflexivity; [|set_solver].
      rewrite lookup_insert_ne by apply history_file_not_formatted. apply lookup_insert_eq.
  - intros H2 H4.
    unfold run, try_except, job, prologue, bind, os_makedirs, read_lines.
    rewrite H4. cbn [disk dirs history progress finished fst snd].
    destruct (disk w !! input_file p) as [[content| |]|] eqn:E;
      try (exfalso; apply (H2 content); reflexivity);
      cbn [emit_finished disk dirs history progress finished fst snd];
      (repeat split; try reflexivity; set_solver).
Qed.

End RunClaims.

(** ** The claims on the concrete setting *)

(** Three records, the second of which cannot be rendered. *)
Lemma run_reports_record_failure_witness :
  finished (run Demo.failing Demo.window (Demo.world_with Demo.three_links))
    = [(false, "❌ Failed to generate QR codes:" ++ String "010" "cannot render")]
  /\ history (run Demo.failing Demo.window (Demo.world_with Demo.three_links)) = []
  /\ is_Some (disk (run Demo.failing Demo.window (Demo.world_with Demo.three_links))
                !! "qr_results/Modern Gradient_VPN 1.png").
Proof.
  pose (w := Demo.world_with Demo.three_links).
  pose (done := ["https://a.example"]).
  pose (link := "WIFI:T:WPA;S:net;P:pw;;").
  pose (rest := ["example.com"]).
  pose (body := record_body Demo.failing Demo.window (Demo.draw_unless "VPN 2") 3).
  pose (w0 := snd (prologue Demo.failing Demo.window w)).
  pose (w1 := snd (for_each (enumerate 1 done) body w0)).
  pose (w2 := snd (body (2%nat, link) w1)).
  destruct (run_reports_record_failure Demo.failing Demo.window w w0 w1 w2
              (Demo.draw_unless "VPN 2") done rest link (Exception "cannot render"))
    as (A & B & C & D).
  - exact demo_long_name_fresh.
  - exact demo_long_name_not_card.
  - vm_compute. reflexivity.
  - vm_compute. reflexivity.
  - vm_compute. reflexivity.
  - split; [exact A|]. split; [exact B|].
    apply (D (or_introl eq_refl) 1%nat). simpl. lia.
Defined.

(** C1, as stated, fails: the body of the loop raises for the second
    of three records, the exception does not derive from [Exception],
    and [run] ends without a completion signal.  The first card is on
    disk and the history is empty, as the claim says. *)
Lemma run_silent_when_a_template_exits :
  fst (record_body Demo.exiting Demo.window (Demo.exit_on "VPN 2") 3
         (2%nat, "WIFI:T:WPA;S:net;P:pw;;")
         (snd (for_each (enumerate 1 ["https://a.example"])
                 (record_body Demo.exiting Demo.window (Demo.exit_on "VPN 2") 3)
                 (snd (prologue Demo.exiting Demo.window (Demo.world_with Demo.three_links))))))
  = Raise (BaseException "stop")
  /\ finished (run Demo.exiting Demo.window (Demo.world_with Demo.three_links)) = []
  /\ history (run Demo.exiting Demo.window (Demo.world_with Demo.three_links)) = []
  /\ is_Some (disk (run Demo.exiting Demo.window (Demo.world_with Demo.three_links))
                !! "qr_results/Modern Gradient_VPN 1.png").
Proof.
  split; [vm_compute; reflexivity|].
  split; [vm_compute; reflexivity|].
  split; [vm_compute; reflexivity|].
  vm_compute. eauto.
Qed.

(** Three records, all rendered. *)
Lemma progress_of_completed_job_witness :
  progress (run Demo.env Demo.window (Demo.world_with Demo.three_links))
  = [0; 33; 66; 100]%Z.
Proof.
  rewrite (proj1 (progress_of_completed_job Demo.env Demo.window
                    (Demo.world_with Demo.three_links)
                    (snd (job Demo.env Demo.window (Demo.world_with Demo.three_links)))
                    Demo.three_links
                    ltac:(reflexivity) ltac:(vm_compute; lia) ltac:(vm_compute; reflexivity))).
  vm_compute. reflexivity.
Defined.

(** C3, as stated, fails: in a completed job of 100 records the value
    emitted after record 29 is 28, and the floor of 29 / 100 * 100 is
    29.  The Standard Library's binary64 gives the same product,
    [8162774324609023 * 2 ^ -48], which is below 29. *)
Lemma progress_below_exact_floor :
  fst (job Demo.env Demo.window (Demo.world_with Demo.hundred_links)) = Ok tt
  /\ progress (run Demo.env Demo.window (Demo.world_with Demo.hundred_links)) !! 29%nat
     = Some 28%Z
  /\ Qfloor (inject_Z 29 / inject_Z 100 * 100) = 29%Z
  /\ Binary64.mul (Binary64.div (Binary64.of_int 29) (Binary64.of_int 100))
                  (Binary64.of_int 100)
     = S754_finite false 8162774324609023 (-48)
  /\ (Binary64.value (S754_finite false 8162774324609023 (-48)) < 29)%Q.
Proof.
  split; [vm_compute; reflexivity|].
  split; [vm_compute; reflexivity|].
  split; [vm_compute; reflexivity|].
  split; vm_compute; reflexivity.
Qed.

(** An input file of blank lines. *)
Lemma start_generation_checks_path_only_witness :
  start_generation Demo.env Demo.window (Demo.world_with Demo.blank_lines)
  = Launched (run Demo.env Demo.window (Demo.world_with Demo.blank_lines))
  /\ finished (run Demo.env Demo.window (Demo.world_with Demo.blank_lines))
     = [(true, "✅ Generated 0 QR codes successfully!"
               ++ String "010" (String "010" "📁 Path: qr_results"))]
  /\ history (run Demo.env Demo.window (Demo.world_with Demo.blank_lines))
     = [{| h_date := "2024-01-01 00:00:00"; h_template := "Modern Gradient";
           h_count := 0; h_output_dir := "qr_results" |}]
  /\ progress (run Demo.env Demo.window (Demo.world_with Demo.blank_lines)) = [0%Z]
  /\ disk (run Demo.env Demo.window (Demo.world_with Demo.blank_lines))
       !! "qr_results/formatted_links.txt" = Some (TextFile "")
  /\ "qr_results" ∈ dirs (run Demo.env Demo.window (Demo.world_with Demo.blank_lines)).
Proof.
  split.
  - apply (proj1 (proj2 (proj2 (start_generation_checks_path_only Demo.env Demo.window
                                  (Demo.world_with Demo.blank_lines))))).
    + discriminate.
    + vm_compute. reflexivity.
  - apply (proj1 (proj2 (proj2 (proj2 (start_generation_checks_path_only Demo.env Demo.window
                                         (Demo.world_with Demo.blank_lines)))))
             Demo.blank_lines).
    + reflexivity.
    + vm_compute. reflexivity.
    + reflexivity.
    + reflexivity.
Defined.

(** C4, as stated, fails: an input file that exists and holds only
    blank lines starts a job, which writes [formatted_links.txt],
    appends a history record and reports success. *)
Lemma start_generation_accepts_blank_file :
  exists w',
    start_generation Demo.env Demo.window (Demo.world_with Demo.blank_lines) = Launched w'
    /\ finished w' = [(true, "✅ Generated 0 QR codes successfully!"
                             ++ String "010" (String "010" "📁 Path: qr_results"))]
    /\ length (history w') = 1%nat
    /\ is_Some (disk w' !! "qr_results/formatted_links.txt").
Proof.
  eexists. split; [vm_compute; reflexivity|].
  split; [vm_compute; reflexivity|].
  split; [vm_compute; reflexivity|].
  vm_compute. eauto.
Qed.

(** A directory given as the input: cards of an earlier run lie in
    [qr_results], which is chosen as the input path.  The worker is
    launched and reports the read error. *)
Lemma start_generation_launches_on_a_directory :
  let w := {| disk := {[ "qr_results/Modern Gradient_VPN 1.png" := CardFile "PNG" 98 "card" ]};
              dirs := ∅; history := []; progress := []; finished := [] |} in
  let p := Demo.window_reading "qr_results" in
  exists w',
    start_generation Demo.env p w = Launched w'
    /\ finished w' = [(false, "❌ Failed to generate QR codes:"
                              ++ String "010" "[Errno 21] Is a directory: 'qr_results'")]
    /\ history w' = []
    /\ disk w' = disk w.
Proof.
  eexists. split; [vm_compute; reflexivity|].
  split; [vm_compute; reflexivity|].
  split; reflexivity.
Qed.

(** The second of three records, whose rendering fails. *)
Lemma temp_bitmap_released_witness :
  disk (snd (record_body Demo.failing Demo.window (Demo.draw_unless "VPN 2") 3
               (2%nat, "example.com")
               (snd (prologue Demo.failing Demo.window (Demo.world_with Demo.three_links)))))
    !! temp_of Demo.failing Demo.window 2 "example.com"
         (snd (prologue Demo.failing Demo.window (Demo.world_with Demo.three_links)))
  = None.
Proof.
  refine (proj2 (temp_bitmap_released Demo.failing Demo.window _ _
                   (Demo.draw_unless "VPN 2") 3 2 "example.com" "https://example.com"
                   (fst (record_body Demo.failing Demo.window (Demo.draw_unless "VPN 2") 3
                           (2%nat, "example.com")
                           (snd (prologue Demo.failing Demo.window
                                   (Demo.world_with Demo.three_links)))))
                   _ _)).
  - reflexivity.
  - apply surjective_pairing.
Defined.

(** Three records, the second of which cannot be rendered: two entries. *)
Lemma formatted_links_written_witness :
  disk (run Demo.failing Demo.window (Demo.world_with Demo.three_links))
    !! "qr_results/formatted_links.txt"
  = Some (TextFile ("VPN 1" ++ String "010" ("`https://a.example`" ++ String "010" (String "010"
                   ("VPN 2" ++ String "010" ("`WIFI:T:WPA;S:net;P:pw;;`" ++ String "010"
                   (String "010" ""))))))).
Proof.
  pose (w := Demo.world_with Demo.three_links).
  pose (body := record_body Demo.failing Demo.window (Demo.draw_unless "VPN 2") 3).
  pose (w0 := snd (prologue Demo.failing Demo.window w)).
  pose (w1 := snd (for_each (enumerate 1 ["https://a.example"]) body w0)).
  pose (w2 := snd (body (2%nat, "WIFI:T:WPA;S:net;P:pw;;") w1)).
  exact (proj2 (proj2 (formatted_links_written Demo.failing Demo.window w w0
                   ["https://a.example"; "WIFI:T:WPA;S:net;P:pw;;"; "example.com"]
                   (Demo.draw_unless "VPN 2") demo_long_name_fresh
                   ltac:(vm_compute; reflexivity)))
            ["https://a.example"] "WIFI:T:WPA;S:net;P:pw;;" ["example.com"]
            (Exception "cannot render") w1 w2 eq_refl
            ltac:(vm_compute; reflexivity) ltac:(vm_compute; reflexivity)).
Defined.

(** ** More on payloads and file names *)

Lemma startswith_app (a b : string) : PyStr.startswith (a ++ b) a = true.
Proof.
  unfold PyStr.startswith. induction a as [|c a IH]; [destruct b; reflexivity|].
  rewrite append_cons. simpl. destruct (ascii_dec c c); [exact IH | congruence].
Qed.

Lemma detect_data_type_fixed (data : string) :
  PyStr.startswith data "WIFI:" || PyStr.startswith data "TEL:"
  || PyStr.startswith data "mailto:" || PyStr.startswith data "http" = true ->
  detect_data_type data = data.
Proof.
  unfold detect_data_type. intros H.
  destruct (PyStr.startswith data "WIFI:"); [reflexivity|].
  destruct (PyStr.startswith data "TEL:"); [reflexivity|].
  destruct (PyStr.startswith data "mailto:"); [reflexivity|].
  destruct (PyStr.startswith data "http"); [reflexivity | discriminate].
Qed.

(** X1. What [detect_data_type] returns starts with one of the four
    recognised prefixes, so a second pass changes nothing. *)
Theorem detect_data_type_idempotent (data : string) :
  (PyStr.startswith (detect_data_type data) "WIFI:"
   || PyStr.startswith (detect_data_type data) "TEL:"
   || PyStr.startswith (detect_data_type data) "mailto:"
   || PyStr.startswith (detect_data_type data) "http" = true)
  /\ detect_data_type (detect_data_type data) = detect_data_type data.
Proof.
  assert (R : PyStr.startswith (detect_data_type data) "WIFI:"
              || PyStr.startswith (detect_data_type data) "TEL:"
              || PyStr.startswith (detect_data_type data) "mailto:"
              || PyStr.startswith (detect_data_type data) "http" = true).
  { assert (B : forall a b c d, a || b || c || d = true <-> a = true \/ b = true \/ c = true \/ d = true).
    { intros [] [] [] []; simpl; intuition discriminate. }
    apply B. unfold detect_data_type.
    destruct (PyStr.startswith data "WIFI:") eqn:W; [auto|].
    destruct (PyStr.startswith data "TEL:") eqn:T; [auto|].
    destruct (PyStr.startswith data "mailto:") eqn:M; [auto|].
    destruct (PyStr.startswith data "http") eqn:H; [auto|].
    pose proof (startswith_longer data "http" "://" H) as H1.
    pose proof (startswith_longer data "http" "s://" H) as H2.
    change ("http" ++ "://") with "http://" in H1.
    change ("http" ++ "s://") with "https://" in H2.
    rewrite H1, H2. cbn [orb negb].
    right. right. right.
    change "https://" with ("http" ++ "s://"). rewrite append_assoc.
    apply startswith_app. }
  split; [exact R | apply detect_data_type_fixed; exact R].
Qed.

Lemma append_cancel_l (a b c : string) : a ++ b = a ++ c -> b = c.
Proof.
  induction a as [|x a IH]; intros H; [exact H|].
  rewrite !append_cons in H. inversion H. auto.
Qed.

Lemma append_cancel_r (a b c : string) : a ++ c = b ++ c -> a = b.
Proof.
  revert b. induction a as [|x a IH]; intros b H.
  - destruct b as [|y b]; [reflexivity|].
    apply (f_equal String.length) in H. change ("" ++ c) with c in H.
    rewrite append_cons in H. cbn [String.length] in H. rewrite length_append in H. lia.
  - destruct b as [|y b].
    + apply (f_equal String.length) in H. change ("" ++ c) with c in H.
      rewrite append_cons in H. cbn [String.length] in H. rewrite length_append in H. lia.
    + rewrite !append_cons in H. inversion H. f_equal. auto.
Qed.

Lemma str_nat_injective (i j : nat) : PyStr.str_nat i = PyStr.str_nat j -> i = j.
Proof.
  unfold PyStr.str_nat. intros H.
  apply (f_equal NilEmpty.uint_of_string) in H. rewrite !NilEmpty.usu in H.
  inversion H as [E]. apply (f_equal Nat.of_uint) in E.
  rewrite !Unsigned.of_to in E. exact E.
Qed.

Lemma startswith_common (c a b : string) :
  c <> "" -> PyStr.startswith (c ++ a) "/" = PyStr.startswith (c ++ b) "/".
Proof.
  destruct c as [|x c]; [congruence|]. intros _.
  unfold PyStr.startswith. rewrite !append_cons. cbn [String.prefix].
  destruct (ascii_dec "/" x); [|reflexivity].
  destruct (c ++ a), (c ++ b); reflexivity.
Qed.

(** [os.path.join] keeps apart two names that start alike. *)
Lemma os_path_join_cancel (dir c a b : string) :
  c <> "" -> os_path_join dir (c ++ a) = os_path_join dir (c ++ b) -> a = b.
Proof.
  intros Hc. unfold os_path_join. rewrite (startswith_common c a b Hc).
  destruct (PyStr.startswith (c ++ b) "/").
  - apply append_cancel_l.
  - destruct (_ || _); intros H.
    + apply append_cancel_l in H. apply append_cancel_l in H. exact H.
    + apply append_cancel_l in H. rewrite !append_cons in H. inversion H as [E].
      exact (append_cancel_l c a b E).
Qed.

(** X2. Two records of one run never share a card file: different
    indices give different file names, whatever the prefix, the
    template name and the format. *)
Theorem output_files_distinct (p : parent) (i j : nat) :
  i <> j -> output_file p i <> output_file p j.
Proof.
  intros Hij H. apply Hij. unfold output_file, label in H.
  rewrite <- !(append_assoc (get_template_name p) "_") in H.
  apply os_path_join_cancel in H.
  - apply append_cancel_r in H. apply append_cancel_l in H.
    apply (append_cancel_l " ") in H. apply str_nat_injective. exact H.
  - apply append_nonempty. discriminate.
Qed.

Lemma output_files_distinct_witness :
  output_file Demo.window 1 <> output_file Demo.window 11.
Proof. apply output_files_distinct. lia. Defined.

(** ** More on template lookup *)

Section TemplateSelection.

Context {QRCode Image : Type} (env : collaborators QRCode Image).

(** X3. For a selected id from 1 to 8 neither the name nor the function
    depends on the stored templates: a stored template that carries
    such an id is never reached. *)
Theorem builtin_ids_shadow_stored_templates (p p' : parent) :
  (1 <= selected_template p <= 8)%Z ->
  selected_template p' = selected_template p ->
  get_template_name p' = get_template_name p
  /\ get_template_function env p' = get_template_function env p.
Proof.
  intros H E. unfold get_template_name, get_template_function. rewrite E.
  repeat match goal with
  | |- context [(selected_template p =? ?k)%Z] =>
      destruct (Z.eqb_spec (selected_template p) k); [split; reflexivity|]
  end.
  lia.
Qed.

Lemma lookup_outside_builtin (p : parent) :
  (selected_template p < 1 \/ 8 < selected_template p)%Z ->
  get_template_name p
  = match List.find (fun t => (ct_id t =? selected_template p)%Z) (custom_templates p) with
    | Some t => ct_name t
    | None => "Custom"
    end
  /\ get_template_function env p
     = find_custom env (selected_template p) (custom_templates p).
Proof.
  intros H. unfold get_template_name, get_template_function.
  repeat match goal with
  | |- context [(selected_template p =? ?k)%Z] =>
      destruct (Z.eqb_spec (selected_template p) k); [lia|]
  end.
  split; reflexivity.
Qed.

(** X4. For any other selected id the name and the function come from
    one stored template, the first that carries the id: the name is its
    name, and the function is what its code binds to [template_custom].
    Without such a template the name is [Custom]. *)
Theorem stored_template_selected (p : parent) :
  (selected_template p < 1 \/ 8 < selected_template p)%Z ->
  (forall t,
     List.find (fun t => (ct_id t =? selected_template p)%Z) (custom_templates p) = Some t ->
     get_template_name p = ct_name t
     /\ ct_id t = selected_template p
     /\ forall namespace f,
          py_exec env (ct_code t) = Ok namespace ->
          namespace !! "template_custom" = Some f ->
          get_template_function env p = Ok f)
  /\ (List.find (fun t => (ct_id t =? selected_template p)%Z) (custom_templates p) = None ->
      get_template_name p = "Custom").
Proof.
  intros H. destruct (lookup_outside_builtin p H) as [N F]. rewrite N, F.
  rewrite find_custom_find. split.
  - intros t Ht. rewrite Ht. split; [reflexivity|]. split.
    + apply find_some in Ht. destruct Ht as [_ Ht]. apply Z.eqb_eq. exact Ht.
    + intros ns f Hns Hf. unfold load_custom. rewrite Hns, Hf. reflexivity.
  - intros ->. reflexivity.
Qed.

End TemplateSelection.

(** A stored template with id 9 whose code binds [template_custom]. *)
Lemma stored_template_selected_witness :
  get_template_name
    (Demo.window_with 9 [{| ct_id := 9; ct_name := "Mine"; ct_description := "";
                            ct_code := "def template_custom(*a): ..." |}]) = "Mine"
  /\ get_template_function Demo.env
       (Demo.window_with 9 [{| ct_id := 9; ct_name := "Mine"; ct_description := "";
                               ct_code := "def template_custom(*a): ..." |}]) = Ok Demo.draw.
Proof.
  pose (t := {| ct_id := 9; ct_name := "Mine"; ct_description := "";
                ct_code := "def template_custom(*a): ..." |}).
  destruct (proj1 (stored_template_selected Demo.env (Demo.window_with 9 [t])
                     (or_intror eq_refl)) t eq_refl) as (N & _ & F).
  split; [exact N|].
  apply (F {[ "template_custom" := Demo.draw ]} Demo.draw); reflexivity.
Defined.

Lemma builtin_ids_shadow_stored_templates_witness :
  get_template_name
    (Demo.window_with 3 [{| ct_id := 3; ct_name := "Mine"; ct_description := "";
                            ct_code := "def template_custom(*a): ..." |}])
  = get_template_name (Demo.window_with 3 []).
Proof.
  refine (proj1 (builtin_ids_shadow_stored_templates Demo.env (Demo.window_with 3 []) _ _ _)).
  - simpl. lia.
  - reflexivity.
Defined.

(** ** The size of a gradient *)

(** X5. [create_gradient] returns a buffer of [height] rows of [width]
    pixels, whatever the direction. *)
Theorem create_gradient_size (width height : nat) (color1 color2 : rgb)
  (direction : string) :
  length (create_gradient width height color1 color2 direction) = height
  /\ forall row, In row (create_gradient width height color1 color2 direction) ->
       length row = width.
Proof.
  unfold create_gradient. destruct (String.eqb direction "vertical").
  - split.
    + rewrite draw_rows_length. unfold Image_new. apply repeat_length.
    + intros row Hrow. apply list_elem_of_In, list_elem_of_lookup in Hrow.
      destruct Hrow as [y Hy].
      rewrite (draw_rows_lookup (scanline color1 color2 height) width height) in Hy
        by (unfold Image_new; rewrite repeat_length; lia).
      destruct (y <? height)%nat.
      * inversion Hy. apply repeat_length.
      * unfold Image_new in Hy. apply list_elem_of_lookup_2, list_elem_of_In in Hy.
        apply repeat_spec in Hy. subst row. apply repeat_length.
  - rewrite (draw_columns_rows (scanline color1 color2 width)). split.
    + rewrite length_map. unfold Image_new. apply repeat_length.
    + intros row Hrow. apply in_map_iff in Hrow. destruct Hrow as (r0 & <- & Hr0).
      rewrite draw_cells_length. unfold Image_new in Hr0.
      apply repeat_spec in Hr0. subst r0. apply repeat_length.
Qed.

(** ** More on the fallback palette *)

Section PaletteOrigin.

Lemma counter_add_keys (c k : rgb) (counts : list (rgb * nat)) :
  In k (map fst (counter_add c counts)) -> k = c \/ In k (map fst counts).
Proof.
  induction counts as [|[k0 n0] counts IH]; simpl.
  - intros [H|[]]; auto.
  - destruct (rgb_eqb k0 c); simpl; intros [H|H]; auto.
    destruct (IH H); auto.
Qed.

Lemma Counter_keys (pixels : list rgb) (k : rgb) :
  In k (map fst (Counter pixels)) -> In k pixels.
Proof.
  unfold Counter.
  assert (G : forall l acc, In k (map fst (fold_left (fun counts q => counter_add q counts) l acc)) ->
                            In k l \/ In k (map fst acc)).
  { induction l as [|q l IH]; intros acc H; cbn [fold_left] in H; [auto|].
    destruct (IH _ H) as [H1|H1]; [left; right; exact H1|].
    destruct (counter_add_keys q k acc H1) as [->|H2]; [left; left; reflexivity | auto]. }
  intros H. destruct (G pixels [] H) as [H1|[]]. exact H1.
Qed.

Lemma insert_by_count_In (x y : rgb * nat) (sorted : list (rgb * nat)) :
  In y (insert_by_count x sorted) -> y = x \/ In y sorted.
Proof.
  induction sorted as [|z sorted IH]; simpl.
  - intros [H|[]]; auto.
  - destruct (snd x <? snd z)%nat; simpl; intros [H|H]; auto.
    destruct (IH H); auto.
Qed.

Lemma In_firstn {A} (n : nat) (l : list A) (x : A) : In x (firstn n l) -> In x l.
Proof.
  revert l. induction n as [|n IH]; intros [|y l]; simpl; try tauto.
  intros [H|H]; auto.
Qed.

Lemma most_common_In (n : nat) (counts : list (rgb * nat)) (y : rgb * nat) :
  In y (most_common n counts) -> In y counts.
Proof.
  unfold most_common. intros H. apply In_firstn in H.
  induction counts as [|x counts IH]; simpl in H; [exact H|].
  destruct (insert_by_count_In _ _ _ H) as [->|H1]; [left; reflexivity | right; auto].
Qed.

Lemma select_colors_In (n : nat) (cands : list (rgb * nat)) (sel : list rgb) (c : rgb) :
  In c (select_colors n cands sel) -> In c sel \/ In c (map fst cands).
Proof.
  revert sel. induction cands as [|[color k] cands IH]; intros sel H; simpl in H; [auto|].
  destruct (_ || _) in H.
  - destruct (n <=? length (sel ++ [color]))%nat.
    + apply in_app_or in H. destruct H as [H|[<-|[]]]; [auto | right; left; reflexivity].
    + destruct (IH _ H) as [H1|H1]; [|right; right; exact H1].
      apply in_app_or in H1. destruct H1 as [H1|[<-|[]]]; [auto | right; left; reflexivity].
  - destruct (IH _ H); [auto | right; right; assumption].
Qed.

(** The pixels the fallback counts. *)
Lemma fallback_palette_picks (data : list rgb) (n : nat) :
  (1 <= n)%nat -> data <> [] ->
  exists first rest k,
    fallback_palette data n = Ok ((first :: rest) ++ repeat (darken first) k)%list
    /\ length ((first :: rest) ++ repeat (darken first) k) = n
    /\ pairwise_far (first :: rest)
    /\ forall c, In c (first :: rest) ->
         In c (match filter (fun p => negb (near_white_or_black p)) data with
               | [] => data
               | _ => filter (fun p => negb (near_white_or_black p)) data
               end).
Proof.
  intros Hn Hdata. unfold fallback_palette.
  set (pixels := filter (fun p => negb (near_white_or_black p)) data).
  set (counted := match pixels with [] => data | _ => pixels end).
  destruct counted as [|q counted'] eqn:Eq.
  { exfalso. unfold counted in Eq. destruct pixels; [congruence | discriminate]. }
  assert (Keys : forall y, In y (most_common (n * 5) (Counter (q :: counted'))) ->
                           In (fst y) (q :: counted')).
  { intros y Hy. apply Counter_keys. apply in_map. eapply most_common_In. exact Hy. }
  revert Keys.
  destruct (Counter_cons q counted') as (x & cs & ->).
  destruct (n * 5)%nat as [|m] eqn:Em; [lia|].
  destruct (most_common_cons m x cs) as ([color k] & cands & ->).
  intros Keys.
  pose proof (select_colors_far n ((color, k) :: cands) [] pairwise_far_nil) as Hfar.
  pose proof (select_colors_length n ((color, k) :: cands) [] ltac:(simpl; lia)) as Hlen.
  pose proof (select_colors_In n ((color, k) :: cands) []) as Hin.
  destruct (select_colors_first n color k cands) as [rest Hsel].
  rewrite Hsel in *.
  rewrite pad_colors_fill by (simpl; lia).
  assert (Hl : length ((color :: rest) ++ repeat (darken color) (n - length (color :: rest))) = n).
  { rewrite length_app, repeat_length. lia. }
  rewrite firstn_all2 by lia.
  exists color, rest, (n - length (color :: rest))%nat.
  split; [reflexivity|]. split; [exact Hl|]. split; [exact Hfar|].
  intros c Hc. destruct (Hin c Hc) as [[]|H].
  apply in_map_iff in H. destruct H as (y & <- & Hy). apply Keys. exact Hy.
Qed.

Variable get_palette : string -> nat -> result (list rgb).
Variable open_resized : string -> result (list rgb).

(** X6. Without the quantization library, for a logo that opens and
    for every requested number of colours [n >= 1], the extractor
    returns exactly [n] entries: colours picked from the pixels of the
    resized logo, then copies of the first pick darkened by 40.  When
    some pixel of the logo is neither near white nor near black, no
    pick is near white or near black. *)
Theorem fallback_palette_from_logo (logo_path : string) (n : nat) (data : list rgb) :
  (1 <= n)%nat ->
  open_resized logo_path = Ok data -> data <> [] ->
  exists first rest k,
    extract_colors_from_logo false get_palette open_resized logo_path n
      = ((first :: rest) ++ repeat (darken first) k)%list
    /\ length (extract_colors_from_logo false get_palette open_resized logo_path n) = n
    /\ (forall c, In c (first :: rest) -> In c data)
    /\ ((exists q, In q data /\ near_white_or_black q = false) ->
        forall c, In c (first :: rest) -> near_white_or_black c = false).
Proof.
  intros Hn Hopen Hdata. unfold extract_colors_from_logo. rewrite Hopen.
  destruct (fallback_palette_picks data n Hn Hdata) as (first & rest & k & -> & Hl & _ & Hin).
  exists first, rest, k. split; [reflexivity|]. split; [exact Hl|].
  set (pixels := filter (fun p => negb (near_white_or_black p)) data) in *.
  split.
  - intros c Hc. specialize (Hin c Hc).
    destruct pixels as [|x pixels'] eqn:E; [exact Hin|].
    rewrite <- E in Hin. unfold pixels in Hin. apply filter_In in Hin. tauto.
  - intros (q & Hq & Hnear) c Hc. specialize (Hin c Hc).
    assert (Hqp : In q pixels).
    { unfold pixels. apply filter_In. rewrite Hnear. auto. }
    destruct pixels as [|x pixels'] eqn:E; [destruct Hqp|].
    rewrite <- E in Hin. unfold pixels in Hin. apply filter_In in Hin.
    destruct Hin as [_ Hin]. destruct (near_white_or_black c); [discriminate | reflexivity].
Qed.

End PaletteOrigin.

(** The grey logo of 150 x 150 pixels, five colours asked for. *)
Lemma fallback_palette_from_logo_witness :
  length (extract_colors_from_logo false Demo.no_color_thief Demo.open_resized "grey.png" 5)
  = 5%nat.
Proof.
  destruct (fallback_palette_from_logo Demo.no_color_thief Demo.open_resized "grey.png" 5
              (repeat (100, 100, 100)%Z (150 * 150)))
    as (first & rest & k & _ & L & _).
  - lia.
  - reflexivity.
  - discriminate.
  - exact L.
Defined.

(** ** More on a batch run *)

Section RunOutcome.

Context {QRCode Image : Type} (env : collaborators QRCode Image).
Variable p : parent.

(** The statements before the loop touch neither the history nor the
    completion channel, and when one of them raises the disk is as it
    was. *)
Lemma prologue_effect (w : world Image) :
  match prologue env p w with
  | (r, w0) =>
      history w0 = history w /\ finished w0 = finished w
      /\ (forall e, r = Raise e -> disk w0 = disk w)
      /\ (forall ctx, r = Ok ctx -> disk w0 = <[formatted_file p := TextFile ""]> (disk w))
  end.
Proof.
  unfold prologue, bind, os_makedirs, read_lines, emit_progress, lift, open_write, ret, set_disk.
  destruct (fault env (disk w) (Makedirs (output_dir p))).
  { repeat split; auto; discriminate. }
  cbn [disk dirs history progress finished].
  destruct (disk w !! input_file p) as [[content| |]|];
    try (repeat split; auto; discriminate).
  cbn [disk dirs history progress finished].
  destruct (get_template_function env p) as [f|e];
    [|repeat split; auto; discriminate].
  cbn [disk dirs history progress finished].
  destruct (fault env (disk w) (OpenWrite (formatted_file p)));
    cbn [disk dirs history progress finished]; repeat split; auto; discriminate.
Qed.

Lemma epilogue_effect (total : nat) (w : world Image) :
  fst (epilogue env p total w) = Ok tt
  /\ history (snd (epilogue env p total w))
     = (history w ++ [{| h_date := now env; h_template := get_template_name p;
                         h_count := total; h_output_dir := output_dir p |}])%list
  /\ finished (snd (epilogue env p total w))
     = (finished w ++ [(true, success_message total (output_dir p))])%list
  /\ progress (snd (epilogue env p total w)) = progress w
  /\ (forall path, path <> history_file p ->
        disk (snd (epilogue env p total w)) !! path = disk w !! path)
  /\ (fault env (disk w) (OpenWrite (history_file p)) = None ->
      disk (snd (epilogue env p total w)) !! history_file p
      = Some (TextFile (json_dump env (history (snd (epilogue env p total w)))))).
Proof.
  unfold epilogue, bind, append_history, save_history, emit_finished, set_disk.
  cbn [disk dirs history progress finished].
  destruct (fault env (disk w) (OpenWrite (history_file p)));
    cbn [fst snd disk dirs history progress finished].
  - repeat split; auto. discriminate.
  - repeat split; auto.
    + intros path H. apply lookup_insert_ne. congruence.
    + intros _. apply lookup_insert_eq.
Qed.

(** X7. A run emits at most one completion signal, and which one
    follows from how its job ends.  A job that ends without an
    exception gives the success message with the number of records of
    the input and appends one history record with that number; a job
    that raises an [Exception] gives the failure banner followed by
    the text of the exception, and the history is as it was; a job
    left by an exception that does not derive from [Exception] gives
    no signal, and the history is as it was. *)
Theorem run_reports_once (w : world Image) :
  match fst (job env p w) with
  | Ok _ =>
      exists content,
        disk w !! input_file p = Some (TextFile content)
        /\ finished (run env p w)
           = (finished w
              ++ [(true,
                   ("✅ Generated "
                    ++ PyStr.str_nat
                         (length (filter (fun s => negb (String.eqb s ""))
                                         (map PyStr.strip (PyStr.readlines content))))
                    ++ " QR codes successfully!"
                    ++ String "010" (String "010" ("📁 Path: " ++ output_dir p)))%string)])%list
        /\ history (run env p w)
           = (history w
              ++ [{| h_date := now env; h_template := get_template_name p;
                     h_count := length (filter (fun s => negb (String.eqb s ""))
                                               (map PyStr.strip (PyStr.readlines content)));
                     h_output_dir := output_dir p |}])%list
  | Raise (Exception text) =>
      finished (run env p w)
      = (finished w ++ [(false, ("❌ Failed to generate QR codes:"
                                 ++ String "010" text)%string)])%list
      /\ history (run env p w) = history w
  | Raise (BaseException _) =>
      finished (run env p w) = finished w /\ history (run env p w) = history w
  end.
Proof.
  unfold run, try_except, job, bind.
  pose proof (prologue_effect w) as P.
  destruct (prologue env p w) as [[[links template_func]|e] w0] eqn:Hp;
    destruct P as (Ph & Pf & _).
  - cbn [fst snd].
    destruct (prologue_inv env p w w0 _ _ Hp) as (content & Hc & Hlinks & _).
    pose proof (loop_signals env p template_func (length links) links 1 w0) as L.
    unfold records_loop.
    destruct (for_each (enumerate 1 links) (record_body env p template_func (length links)) w0)
      as [[[]|e] w1]; destruct L as (Lh & Lf & _).
    + destruct (epilogue_effect (length links) w1) as (Er & Eh & Ef & _).
      destruct (epilogue env p (length links) w1) as [r w2]. cbn [fst snd] in *. subst r.
      cbn [snd]. exists content. split; [exact Hc|].
      rewrite Ef, Eh, Lf, Lh, Pf, Ph. subst links. split; reflexivity.
    + cbn [fst]. destruct e as [text|text];
        cbn [emit_finished snd finished history];
        (split; [rewrite Lf, Pf; reflexivity | congruence]).
  - cbn [fst]. destruct e as [text|text];
      cbn [emit_finished snd finished history];
      (split; [rewrite Pf; reflexivity | congruence]).
Qed.

Hypothesis mkstemp_fresh : forall d, d !! mkstemp env d = None.

Lemma record_body_frame (template_func : template Image) (total index : nat)
  (link path : string) (w : world Image) :
  path <> formatted_file p -> path <> output_file p index ->
  disk (snd (record_body env p template_func total (index, link) w)) !! path = disk w !! path.
Proof.
  intros Hf Ho.
  unfold record_body, bind, write_text, lift, make_temp, try_finally, unlink_if_exists, set_disk.
  cbn [fst snd disk dirs history progress finished].
  set (d1 := alter (append_text (entry p index link)) (formatted_file p) (disk w)).
  assert (D1 : d1 !! path = disk w !! path).
  { unfold d1. apply lookup_alter_ne. congruence. }
  destruct (segno_make env (detect_data_type link)) as [qr|e]; [|exact D1].
  set (temp := mkstemp env d1).
  pose proof (mkstemp_fresh d1) as Fresh. fold temp in Fresh.
  match goal with
  | |- context [render_record env p template_func total index qr temp ?w2] =>
      pose proof (render_record_effect env p template_func total index qr temp w2) as R;
      destruct (render_record env p template_func total index qr temp w2) as [r w3]
  end.
  cbn [snd disk dirs history progress finished] in *.
  destruct R as (_ & _ & _ & Rd & _).
  destruct (String.string_dec path temp) as [->|Hne].
  - rewrite lookup_delete_eq. rewrite <- D1. symmetry. exact Fresh.
  - rewrite lookup_delete_ne by congruence.
    rewrite Rd by auto. rewrite lookup_insert_ne by congruence. exact D1.
Qed.

Lemma loop_frame (template_func : template Image) (total : nat) (path : string)
  (links : list string) (start : nat) (w : world Image) :
  path <> formatted_file p -> (forall j, path <> output_file p j) ->
  disk (snd (for_each (enumerate start links) (record_body env p template_func total) w)) !! path
  = disk w !! path.
Proof.
  intros Hf Ho. revert start w. induction links as [|link links IH]; intros start w.
  - reflexivity.
  - cbn [enumerate for_each]. unfold bind.
    pose proof (record_body_frame template_func total start link path w Hf (Ho start)) as B.
    destruct (record_body env p template_func total (start, link) w) as [[[]|e] w1];
      cbn [snd] in B.
    + rewrite IH. exact B.
    + exact B.
Qed.

(** What is in a card, for the paths that a part of the loop does not
    write. *)
Lemma loop_frame_from (template_func : template Image) (total : nat) (path : string)
  (links : list string) (start : nat) (w : world Image) :
  path <> formatted_file p ->
  (forall j, (start <= j < start + length links)%nat -> path <> output_file p j) ->
  disk (snd (for_each (enumerate start links) (record_body env p template_func total) w)) !! path
  = disk w !! path.
Proof.
  intros Hf. revert start w. induction links as [|link links IH]; intros start w Ho.
  - reflexivity.
  - cbn [enumerate for_each]. unfold bind.
    pose proof (record_body_frame template_func total start link path w Hf
                  (Ho start ltac:(cbn [length]; lia))) as B.
    destruct (record_body env p template_func total (start, link) w) as [[[]|e] w1];
      cbn [snd] in B.
    + rewrite IH; [exact B|]. intros j Hj. apply Ho. cbn [length]. lia.
    + exact B.
Qed.

Lemma output_file_injective (i j : nat) : output_file p i = output_file p j -> i = j.
Proof.
  intros H. unfold output_file, label in H.
  rewrite <- !(append_assoc (get_template_name p) "_") in H.
  apply os_path_join_cancel in H.
  - apply append_cancel_r in H. apply append_cancel_l in H.
    apply (append_cancel_l " ") in H. apply str_nat_injective. exact H.
  - apply append_nonempty. discriminate.
Qed.

Lemma output_file_not_history (j : nat) :
  card_format p -> output_file p j <> history_file p.
Proof.
  intros Hfmt E. pose proof (last_char_history_file p) as Lc. rewrite <- E in Lc.
  destruct Hfmt as [H|[H|H]].
  - rewrite (last_char_output_file p j "png") in Lc
      by first [discriminate | rewrite H; reflexivity]. discriminate.
  - rewrite (last_char_output_file p j "jpg") in Lc
      by first [discriminate | rewrite H; reflexivity]. discriminate.
  - rewrite (last_char_output_file p j "webp") in Lc
      by first [discriminate | rewrite H; reflexivity]. discriminate.
Qed.

(** The card that the inner [try] block saves. *)
Lemma render_record_card (template_func : template Image) (total index : nat) (link : string)
  (qr : QRCode) (temp : string) (w w' : world Image) :
  segno_make env (detect_data_type link) = Ok qr ->
  render_record env p template_func total index qr temp w = (Ok tt, w') ->
  card_format p ->
  exists f,
    disk w' !! output_file p index = Some f
    /\ card_of env p template_func (job_colors p) index link f.
Proof.
  intros Hqr. unfold render_record, bind, save_qr, Image_open, save_card, Image_save, ret,
    emit_progress, set_disk.
  destruct (qr_save env qr (qr_scale p)) as [img|e] eqn:Hsave;
    cbn [disk dirs history progress finished]; [|discriminate].
  rewrite lookup_insert_eq.
  destruct (template_func _ _ _ _ _ _) as [final_img|e] eqn:Hdraw; [|discriminate].
  intros Hr Hfmt.
  assert (Card : exists d,
            template_func d img (name_prefix p ++ " " ++ PyStr.str_nat index) (job_colors p)
              (if String.eqb (logo_file p) "" then None else Some (logo_file p))
              (job_text_settings p) = Ok final_img).
  { eexists. exact Hdraw. }
  destruct Card as [d Hd].
  destruct (String.eqb_spec (output_format p) "PNG") as [E1|E1];
    [|destruct (String.eqb_spec (output_format p) "JPG") as [E2|E2];
      [|destruct (String.eqb_spec (output_format p) "WEBP") as [E3|E3]]];
    cbn beta iota in Hr; cbn [disk dirs history progress finished] in Hr;
    try match type of Hr with
        | context [fault env ?d ?c] => destruct (fault env d c) as [e|]; [discriminate|]
        end;
    cbn [disk dirs history progress finished] in Hr.
  - inversion Hr; subst w'. cbn [disk]. rewrite lookup_insert_eq.
    eexists. split; [reflexivity|].
    exists qr, img, d, final_img. repeat split; auto.
  - inversion Hr; subst w'. cbn [disk]. rewrite lookup_insert_eq.
    eexists. split; [reflexivity|].
    exists qr, img, d, final_img. repeat split; auto.
  - inversion Hr; subst w'. cbn [disk]. rewrite lookup_insert_eq.
    eexists. split; [reflexivity|].
    exists qr, img, d, final_img. repeat split; auto.
  - exfalso. destruct Hfmt as [H|[H|H]]; congruence.
Qed.

Lemma record_body_card (template_func : template Image) (total index : nat) (link : string)
  (w w' : world Image) :
  record_body env p template_func total (index, link) w = (Ok tt, w') ->
  card_format p ->
  temp_of env p index link w <> output_file p index ->
  exists f,
    disk w' !! output_file p index = Some f
    /\ card_of env p template_func (job_colors p) index link f.
Proof.
  unfold temp_of, record_body, bind, write_text, lift, make_temp, try_finally,
    unlink_if_exists, set_disk.
  cbn [fst snd disk dirs history progress finished].
  destruct (segno_make env (detect_data_type link)) as [qr|e] eqn:Hqr; [|discriminate].
  match goal with
  | |- context [render_record env p template_func total index qr ?temp ?w2] =>
      destruct (render_record env p template_func total index qr temp w2) as [r w3] eqn:Hr
  end.
  intros H Hfmt Hne. inversion H; subst r w'. clear H.
  destruct (render_record_card template_func total index link qr _ _ _ Hqr Hr Hfmt)
    as (f & Hf & Hcard).
  exists f. split; [|exact Hcard].
  cbn [disk]. rewrite lookup_delete_ne by congruence. exact Hf.
Qed.

(** The cards of a loop that ran to its end. *)
Lemma loop_cards (template_func : template Image) (total : nat)
  (links : list string) (start : nat) (w w' : world Image) :
  for_each (enumerate start links) (record_body env p template_func total) w = (Ok tt, w') ->
  card_format p ->
  (forall d j, mkstemp env d <> output_file p j) ->
  forall j link, links !! j = Some link ->
    exists f,
      disk w' !! output_file p (start + j) = Some f
      /\ card_of env p template_func (job_colors p) (start + j) link f.
Proof.
  intros Hl Hfmt NotCard. revert start w Hl.
  induction links as [|link0 links IH]; intros start w Hl j link Hj; [discriminate|].
  cbn [enumerate for_each] in Hl. unfold bind in Hl.
  destruct (record_body env p template_func total (start, link0) w) as [[[]|e] w1] eqn:Hb;
    [|discriminate].
  destruct j as [|j].
  - cbn in Hj. inversion Hj; subst link0. rewrite Nat.add_0_r.
    destruct (record_body_card template_func total start link w w1 Hb Hfmt)
      as (f & Hf & Hcard).
    { unfold temp_of. apply NotCard. }
    exists f. split; [|exact Hcard].
    pose proof (loop_frame_from template_func total (output_file p start) links (S start) w1) as Fr.
    rewrite Hl in Fr. cbn [snd] in Fr. rewrite Fr; [exact Hf | |].
    + apply output_file_not_formatted. exact Hfmt.
    + intros k Hk E. apply output_file_injective in E. lia.
  - cbn in Hj. replace (start + S j)%nat with (S start + j)%nat by lia.
    exact (IH (S start) w1 Hl j link Hj).
Qed.

(** The cards of a job that ran to its end. *)
Lemma run_cards (w w' : world Image) (content : string) :
  (forall d j, mkstemp env d <> output_file p j) ->
  disk w !! input_file p = Some (TextFile content) ->
  job env p w = (Ok tt, w') ->
  card_format p ->
  exists template_func,
    get_template_function env p = Ok template_func
    /\ forall j link,
         stripped_lines (PyStr.readlines content) !! j = Some link ->
         exists f,
           disk w' !! output_file p (S j) = Some f
           /\ card_of env p template_func (job_colors p) (S j) link f.
Proof.
  intros NotCard Hin Hjob Hfmt.
  unfold job, bind in Hjob.
  destruct (prologue env p w) as [[[links template_func]|e] w0] eqn:Hp; [|discriminate].
  cbn [fst snd] in Hjob.
  destruct (prologue_inv env p w w0 _ _ Hp) as (content' & Hc & Hlinks & _).
  assert (content' = content) as -> by congruence.
  assert (Htf : get_template_function env p = Ok template_func).
  { revert Hp. unfold prologue, bind, os_makedirs, read_lines, emit_progress, lift,
      open_write, ret, set_disk.
    destruct (fault env (disk w) (Makedirs (output_dir p))); [discriminate|].
    cbn [disk dirs history progress finished]. rewrite Hin.
    cbn [disk dirs history progress finished].
    destruct (get_template_function env p) as [f|e]; [|discriminate].
    cbn [disk dirs history progress finished].
    destruct (fault env (disk w) (OpenWrite (formatted_file p))); [discriminate|].
    intros H. inversion H. reflexivity. }
  unfold records_loop in Hjob.
  destruct (for_each (enumerate 1 links) (record_body env p template_func (length links)) w0)
    as [[[]|e] w1] eqn:Hl; [|discriminate].
  destruct (epilogue_effect (length links) w1) as (_ & _ & _ & _ & Ed & _).
  rewrite Hjob in Ed. cbn [snd] in Ed.
  exists template_func. split; [exact Htf|].
  intros j link Hj. rewrite <- Hlinks in Hj.
  destruct (loop_cards template_func (length links) links 1 w0 w1 Hl Hfmt NotCard j link Hj)
    as (f & Hf & Hcard).
  exists f. split; [|exact Hcard].
  rewrite Ed by (apply output_file_not_history; exact Hfmt). exact Hf.
Qed.

(** X9. A run changes nothing on the disk besides
    [formatted_links.txt], the history file and the cards: every other
    path holds after the run what it held before, and the temporary
    bitmaps are gone. *)
Theorem run_touches_only_its_files (w : world Image) (path : string) :
  path <> formatted_file p -> path <> history_file p ->
  (forall j, path <> output_file p j) ->
  disk (run env p w) !! path = disk w !! path.
Proof.
  intros Hf Hh Ho. unfold run, try_except, job, bind.
  pose proof (prologue_effect w) as P.
  destruct (prologue env p w) as [[[links template_func]|e] w0];
    destruct P as (_ & _ & Pr & Po).
  - cbn [fst snd].
    assert (D0 : disk w0 !! path = disk w !! path).
    { rewrite (Po _ eq_refl). apply lookup_insert_ne. congruence. }
    pose proof (loop_frame template_func (length links) path links 1 w0 Hf Ho) as L.
    unfold records_loop.
    destruct (for_each (enumerate 1 links) (record_body env p template_func (length links)) w0)
      as [[[]|e] w1]; cbn [snd] in L.
    + destruct (epilogue_effect (length links) w1) as (Er & _ & _ & _ & Ed & _).
      destruct (epilogue env p (length links) w1) as [r w2]. cbn [fst snd] in *. subst r.
      cbn [snd]. rewrite Ed by exact Hh. congruence.
    + destruct e; cbn [emit_finished snd disk]; congruence.
  - pose proof (Pr e eq_refl) as D.
    destruct e; cbn [emit_finished snd disk]; rewrite D; reflexivity.
Qed.

(** X10. A run whose job ends without an exception reports success
    with the number of records, appends one history record with that
    number, writes the history, the new record included, to the
    history file, and leaves a card for every record: under the name
    of the record, the picture that the selected template draws from
    the record's payload, label and the colours of the run, in the
    chosen format and quality. *)
Theorem run_success (w w' : world Image) (content : string) :
  (forall d j, mkstemp env d <> output_file p j) ->
  (forall d, fault env d (OpenWrite (history_file p)) = None) ->
  disk w !! input_file p = Some (TextFile content) ->
  job env p w = (Ok tt, w') ->
  let links := filter (fun s => negb (String.eqb s ""))
                      (map PyStr.strip (PyStr.readlines content)) in
  let N := length links in
  run env p w = w'
  /\ finished w'
     = (finished w
        ++ [(true, ("✅ Generated " ++ PyStr.str_nat N ++ " QR codes successfully!"
                    ++ String "010" (String "010" ("📁 Path: " ++ output_dir p)))%string)])%list
  /\ history w' = (history w ++ [{| h_date := now env; h_template := get_template_name p;
                                    h_count := N; h_output_dir := output_dir p |}])%list
  /\ disk w' !! os_path_join (base_dir p) "qr_generator_history.json"
     = Some (TextFile (json_dump env (history w')))
  /\ (card_format p ->
      exists template_func,
        get_template_function env p = Ok template_func
        /\ forall j link, links !! j = Some link ->
             exists f,
               disk w' !! os_path_join (output_dir p)
                            (get_template_name p ++ "_" ++ name_prefix p ++ " "
                             ++ PyStr.str_nat (S j) ++ "." ++ PyStr.lower (output_format p))
               = Some f
               /\ card_of env p template_func
                    (if use_custom_colors p then
                       match all_colors (custom_colors p) with
                       | Some cs => cs
                       | None => theme_colors p
                       end
                     else theme_colors p)
                    (S j) link f).
Proof.
  intros NotCard NoFault Hin Hjob links N.
  assert (Hrun : run env p w = w').
  { unfold run, try_except. rewrite Hjob. reflexivity. }
  split; [exact Hrun|].
  pose proof (run_cards w w' content NotCard Hin Hjob) as Cards.
  unfold job, bind in Hjob.
  destruct (prologue env p w) as [[[links' template_func]|e] w0] eqn:Hp; [|discriminate].
  cbn [fst snd] in Hjob.
  destruct (prologue_inv env p w w0 _ _ Hp) as (content' & Hc & Hlinks & _ & Ph & _ & Pf).
  assert (content' = content) as -> by congruence.
  assert (links' = links) as -> by exact Hlinks.
  pose proof (loop_signals env p template_func (length links) links 1 w0) as L.
  unfold records_loop in Hjob.
  destruct (for_each (enumerate 1 links) (record_body env p template_func (length links)) w0)
    as [[[]|e] w1] eqn:Hl; [|discriminate].
  destruct L as (Lh & Lf & _).
  destruct (epilogue_effect (length links) w1) as (_ & Eh & Ef & _ & Ed & Ew).
  rewrite Hjob in Eh, Ef, Ed, Ew. cbn [snd] in Eh, Ef, Ed, Ew.
  split; [rewrite Ef, Lf, Pf; reflexivity|].
  split; [rewrite Eh, Lh, Ph; reflexivity|].
  split; [apply Ew, NoFault|].
  intros Hfmt. destruct (Cards Hfmt) as (tf & Htf & Hcards).
  exists tf. split; [exact Htf|].
  intros j link Hj.
  destruct (Hcards j link Hj) as (f & Hf & Hcard).
  exists f. split; [|exact Hcard].
  assert (Ename : os_path_join (output_dir p)
                    (get_template_name p ++ "_" ++ name_prefix p ++ " "
                     ++ PyStr.str_nat (S j) ++ "." ++ PyStr.lower (output_format p))
                  = output_file p (S j)).
  { unfold output_file, label. rewrite !append_assoc. reflexivity. }
  rewrite Ename. exact Hf.
Qed.

End RunOutcome.

(** ** [hex_to_rgb] *)

Lemma int16_hex2 (v : Z) :
  (0 <= v <= 255)%Z -> PyInt.int16 (hex2 v "") = Some v.
Proof.
  intros Hv.
  assert (A : forallb (fun n => match PyInt.int16 (hex2 (Z.of_nat n) "") with
                                | Some z => (z =? Z.of_nat n)%Z
                                | None => false
                                end) (seq 0 256) = true) by (vm_compute; reflexivity).
  rewrite forallb_forall in A. specialize (A (Z.to_nat v)).
  rewrite Z2Nat.id in A by lia.
  assert (I : In (Z.to_nat v) (seq 0 256)) by (apply in_seq; lia).
  specialize (A I). destruct (PyInt.int16 (hex2 v "")) as [z|]; [|discriminate].
  apply Z.eqb_eq in A. congruence.
Qed.

Lemma hex_digit_not_hash (v : Z) :
  (0 <= v < 16)%Z -> Ascii.eqb (hex_digit v) "#"%char = false.
Proof.
  intros Hv.
  assert (A : forallb (fun n => negb (Ascii.eqb (hex_digit (Z.of_nat n)) "#"%char)) (seq 0 16) = true)
    by (vm_compute; reflexivity).
  rewrite forallb_forall in A. specialize (A (Z.to_nat v)).
  rewrite Z2Nat.id in A by lia.
  assert (I : In (Z.to_nat v) (seq 0 16)) by (apply in_seq; lia).
  specialize (A I). destruct (Ascii.eqb _ _); [discriminate | reflexivity].
Qed.

(** X11. Round trip with the colour dialog: for a colour with channels
    from 0 to 255, [hex_to_rgb] reads back from the text
    [QColor.name()] gives ([#rrggbb]) the same three channels. *)
Theorem hex_to_rgb_of_QColor_name (c : rgb) :
  is_rgb c -> hex_to_rgb (QColor_name c) = Some c.
Proof.
  destruct c as [[r g] b]. intros (Hr & Hg & Hb).
  assert (L : lstrip_hash (QColor_name (r, g, b)) = hex2 r (hex2 g (hex2 b ""))).
  { unfold QColor_name. cbn [lstrip_hash]. change (Ascii.eqb "#" "#") with true.
    cbn iota. unfold hex2 at 1. cbn [lstrip_hash].
    rewrite hex_digit_not_hash
      by (split; [apply Z.div_pos; lia | apply Z.div_lt_upper_bound; lia]).
    reflexivity. }
  unfold hex_to_rgb. rewrite L.
  change (substring 0 2 (hex2 r (hex2 g (hex2 b "")))) with (hex2 r "").
  change (substring 2 2 (hex2 r (hex2 g (hex2 b "")))) with (hex2 g "").
  change (substring 4 2 (hex2 r (hex2 g (hex2 b "")))) with (hex2 b "").
  rewrite !int16_hex2 by lia. reflexivity.
Qed.

Lemma hex_to_rgb_of_QColor_name_witness :
  hex_to_rgb "#ff800a" = Some (255, 128, 10)%Z.
Proof.
  apply (hex_to_rgb_of_QColor_name (255, 128, 10)%Z). simpl. lia.
Defined.

Lemma substring_0_0 (s : string) : substring 0 0 s = "".
Proof. destruct s; reflexivity. Qed.

Lemma lstrip_hash_app (s t : string) :
  lstrip_hash s <> "" -> lstrip_hash (s ++ t) = lstrip_hash s ++ t.
Proof.
  induction s as [|c s IH]; [intros H; exfalso; apply H; reflexivity|].
  rewrite append_cons. cbn [lstrip_hash].
  destruct (Ascii.eqb c "#"); [exact IH | intros _; rewrite append_cons; reflexivity].
Qed.

(** X12. The edges of [hex_to_rgb], for ASCII text.  A text with fewer
    than five characters after its leading [#]s (the short form [#fff]
    among them) is refused with a ValueError; only the first six
    characters after the leading [#]s are read, so whatever follows
    them changes nothing; and any number of leading [#]s is dropped. *)
Theorem hex_to_rgb_edges (s t : string) :
  is_ascii s = true ->
  ((String.length (lstrip_hash s) <= 4)%nat -> hex_to_rgb s = None)
  /\ ((6 <= String.length (lstrip_hash s))%nat -> hex_to_rgb (s ++ t) = hex_to_rgb s)
  /\ hex_to_rgb ("#" ++ s) = hex_to_rgb s.
Proof.
  intros _. split; [|split].
  - unfold hex_to_rgb. intros H.
    destruct (lstrip_hash s) as [|c1 [|c2 [|c3 [|c4 [|c5 h]]]]];
      cbn [String.length] in H; try lia; cbn [substring];
      change (PyInt.int16 "") with (@None Z); try reflexivity;
      repeat match goal with
      | |- match ?x with _ => _ end = None => destruct x; try reflexivity
      end.
  - unfold hex_to_rgb. intros H.
    rewrite lstrip_hash_app by (destruct (lstrip_hash s); [simpl in H; lia | discriminate]).
    destruct (lstrip_hash s) as [|c1 [|c2 [|c3 [|c4 [|c5 [|c6 h]]]]]];
      cbn [String.length] in H; try lia.
    rewrite !append_cons. cbn [substring]. rewrite !substring_0_0. reflexivity.
  - reflexivity.
Qed.

Lemma hex_to_rgb_edges_witness :
  hex_to_rgb "#fff" = None
  /\ hex_to_rgb "#ff800a80" = hex_to_rgb "#ff800a"
  /\ hex_to_rgb "##ff800a" = hex_to_rgb "#ff800a".
Proof.
  split; [|split].
  - apply (proj1 (hex_to_rgb_edges "#fff" "" eq_refl)). simpl. lia.
  - apply (proj1 (proj2 (hex_to_rgb_edges "#ff800a" "80" eq_refl))). simpl. lia.
  - apply (proj2 (proj2 (hex_to_rgb_edges "#ff800a" "" eq_refl))).
Defined.

(** ** The stores of [ConfigManager] *)

Section StorageFacts.

Context {QRCode Image : Type} (env : collaborators QRCode Image).

(** What a save that returns has done: the file holds the dumped
    payload, and nothing else has changed. *)
Lemma _save_json_effect {A} (json_dump : A -> string) (self : ConfigManager.manager)
  (path : string) (payload : A) (w w' : world Image) :
  ConfigManager._save_json env json_dump self path payload w = (Ok tt, w') ->
  disk w' !! ConfigManager._resolve self path = Some (TextFile (json_dump payload))
  /\ (forall other, other <> ConfigManager._resolve self path ->
        disk w' !! other = disk w !! other)
  /\ history w' = history w /\ progress w' = progress w /\ finished w' = finished w.
Proof.
  unfold ConfigManager._save_json, ConfigManager._ensure_dir, bind, ret, os_makedirs,
    open_write, write_text, set_disk.
  set (full := ConfigManager._resolve self path).
  assert (G : forall d : gmap string (file Image),
            alter (append_text (json_dump payload)) full (<[full := TextFile ""]> d) !! full
            = Some (TextFile (json_dump payload))
            /\ (forall other, other <> full ->
                  alter (append_text (json_dump payload)) full (<[full := TextFile ""]> d)
                    !! other = d !! other)).
  { intros d. split.
    - rewrite lookup_alter_eq, lookup_insert_eq. reflexivity.
    - intros other Hne. rewrite lookup_alter_ne by congruence.
      apply lookup_insert_ne. congruence. }
  destruct (String.eqb (os_path_dirname full) "");
    [|destruct (fault env (disk w) (Makedirs (os_path_dirname full))); [discriminate|]];
    cbn [disk dirs history progress finished];
    (destruct (fault env (disk w) (OpenWrite full)); [discriminate|]);
    intros H; inversion H; subst w'; cbn [disk dirs history progress finished];
    destruct (G (disk w)) as [G1 G2]; auto.
Qed.

(** X13. Round trip through a store: after [_save_json] has returned,
    [_load_json] of the same path gives the payload back (when
    [json.load] reads back what [json.dump] wrote), whatever the
    default; and the files of the other paths are as they were. *)
Theorem save_then_load {A} (json_dump : A -> string) (json_load : string -> option A)
  (self : ConfigManager.manager) (path : string) (payload default : A)
  (w w' : world Image) :
  json_load (json_dump payload) = Some payload ->
  ConfigManager._save_json env json_dump self path payload w = (Ok tt, w') ->
  ConfigManager._load_json env json_load self path default w' = (Ok payload, w')
  /\ forall other, other <> ConfigManager._resolve self path ->
       disk w' !! other = disk w !! other.
Proof.
  intros Hload Hsave.
  destruct (_save_json_effect json_dump self path payload w w' Hsave) as (Hd & Ho & _).
  split; [|exact Ho].
  unfold ConfigManager._load_json. rewrite Hd, Hload. reflexivity.
Qed.

Lemma load_history_reads (json_load : string -> option (list history_record))
  (p : parent) (w : world Image) :
  history (load_history env json_load p w)
  = match disk w !! history_file p with
    | Some (TextFile content) => default [] (json_load content)
    | _ => []
    end.
Proof.
  unfold load_history, ConfigManager.load_history, ConfigManager._load_json.
  change (ConfigManager._resolve (config_storage p)
            (ConfigManager.history (ConfigManager.paths (config_storage p))))
    with (history_file p).
  cbn [disk dirs history progress finished].
  destruct (disk w !! history_file p) as [[content| |]|]; try reflexivity.
  destruct (json_load content); reflexivity.
Qed.

(** X15. The window's [load_history] never fails and never writes:
    with no history file, with a history file that is not JSON, and
    with something that is not text under that name, the history is
    empty; with a JSON file it is what the file holds. *)
Theorem load_history_never_fails (json_load : string -> option (list history_record))
  (p : parent) (w : world Image) :
  disk (load_history env json_load p w) = disk w
  /\ progress (load_history env json_load p w) = progress w
  /\ finished (load_history env json_load p w) = finished w
  /\ (disk w !! history_file p = None -> history (load_history env json_load p w) = [])
  /\ (forall content,
        disk w !! history_file p = Some (TextFile content) ->
        history (load_history env json_load p w) = default [] (json_load content))
  /\ (forall f, disk w !! history_file p = Some f ->
        (forall content, f <> TextFile content) ->
        history (load_history env json_load p w) = []).
Proof.
  split; [reflexivity|]. split; [reflexivity|]. split; [reflexivity|].
  rewrite load_history_reads.
  split; [|split].
  - intros ->. reflexivity.
  - intros content ->. reflexivity.
  - intros f -> Hf. destruct f as [content| |]; try reflexivity.
    exfalso. apply (Hf content). reflexivity.
Qed.

(** X16. The history survives a restart: after a run whose job ended
    without an exception, [load_history] reads from the disk the
    history the run left in memory, its new record included (when the
    history file can be written and [json.load] reads back what
    [json.dump] wrote). *)
Theorem history_survives_restart (json_load : string -> option (list history_record))
  (p : parent) (w w' : world Image) :
  json_load (json_dump env (history w')) = Some (history w') ->
  (forall d, fault env d (OpenWrite (history_file p)) = None) ->
  job env p w = (Ok tt, w') ->
  history (load_history env json_load p (run env p w)) = history (run env p w)
  /\ exists total,
       history (run env p w)
       = (history w ++ [{| h_date := now env; h_template := get_template_name p;
                           h_count := total; h_output_dir := output_dir p |}])%list.
Proof.
  intros Hload NoFault Hjob.
  assert (Hrun : run env p w = w').
  { unfold run, try_except. rewrite Hjob. reflexivity. }
  rewrite Hrun. unfold job, bind in Hjob.
  pose proof (prologue_effect env p w) as P.
  destruct (prologue env p w) as [[[links template_func]|e] w0]; [|discriminate].
  destruct P as (Ph & _).
  cbn [fst snd] in Hjob.
  pose proof (loop_signals env p template_func (length links) links 1 w0) as L.
  unfold records_loop in Hjob.
  destruct (for_each (enumerate 1 links) (record_body env p template_func (length links)) w0)
    as [[[]|e] w1]; [|discriminate].
  destruct L as (Lh & _).
  destruct (epilogue_effect env p (length links) w1) as (_ & Eh & _ & _ & _ & Ew).
  rewrite Hjob in Eh, Ew. cbn [snd] in Eh, Ew.
  split.
  - rewrite load_history_reads, (Ew (NoFault _)), Hload. reflexivity.
  - exists (length links). congruence.
Qed.

End StorageFacts.

(** A number stored under [n.json] and read back. *)
Lemma save_then_load_witness :
  fst (ConfigManager._load_json Demo.env
         (fun s => if String.eqb s "7" then Some 7%nat else None)
         (ConfigManager.__init__ "/app" None) "n.json" 0%nat
         (snd (ConfigManager._save_json Demo.env PyStr.str_nat
                 (ConfigManager.__init__ "/app" None) "n.json" 7%nat
                 (Demo.world_with ""))))
  = Ok 7%nat.
Proof.
  exact (f_equal fst
           (proj1 (save_then_load Demo.env PyStr.str_nat
                     (fun s => if String.eqb s "7" then Some 7%nat else None)
                     (ConfigManager.__init__ "/app" None) "n.json" 7%nat 0%nat
                     (Demo.world_with "") _ eq_refl eq_refl))).
Defined.

(** Three records rendered, then a restart. *)
Lemma history_survives_restart_witness :
  history (load_history Demo.env
             (fun s => if String.eqb s "[1 records]"
                       then Some [{| h_date := "2024-01-01 00:00:00";
                                     h_template := "Modern Gradient";
                                     h_count := 3; h_output_dir := "qr_results" |}]
                       else None)
             Demo.window
             (run Demo.env Demo.window (Demo.world_with Demo.three_links)))
  = [{| h_date := "2024-01-01 00:00:00"; h_template := "Modern Gradient";
        h_count := 3; h_output_dir := "qr_results" |}].
Proof.
  exact (proj1 (history_survives_restart Demo.env
                  (fun s => if String.eqb s "[1 records]"
                            then Some [{| h_date := "2024-01-01 00:00:00";
                                          h_template := "Modern Gradient";
                                          h_count := 3; h_output_dir := "qr_results" |}]
                            else None)
                  Demo.window (Demo.world_with Demo.three_links)
                  (snd (job Demo.env Demo.window (Demo.world_with Demo.three_links)))
                  ltac:(vm_compute; reflexivity) ltac:(reflexivity)
                  ltac:(vm_compute; reflexivity))).
Defined.

(** ** Stored templates *)

Lemma fold_max_ge (ids : list Z) (id : Z) :
  (id <= fold_left Z.max ids id)%Z
  /\ forall x, In x ids -> (x <= fold_left Z.max ids id)%Z.
Proof.
  revert id. induction ids as [|y ids IH]; intros id; cbn [fold_left].
  - split; [lia | intros x []].
  - destruct (IH (Z.max id y)) as [H1 H2]. split; [lia|].
    intros x [->|Hx]; [lia | auto].
Qed.

Lemma next_template_id_above (stored : list custom_template) (t : custom_template) :
  In t stored -> (ct_id t < next_template_id stored)%Z.
Proof.
  unfold next_template_id. intros H. apply (in_map ct_id) in H.
  destruct (map ct_id stored) as [|id ids]; [destruct H|].
  destruct (fold_max_ge ids id) as [H1 H2].
  destruct H as [<-|H]; [lia|]. specialize (H2 _ H). lia.
Qed.

Lemma find_app_none {A} (f : A -> bool) (l : list A) (x : A) :
  (forall y, In y l -> f y = false) -> f x = true -> List.find f (l ++ [x]) = Some x.
Proof.
  induction l as [|y l IH]; intros Hl Hx; cbn [app List.find].
  - rewrite Hx. reflexivity.
  - rewrite (Hl y (or_introl eq_refl)). apply IH; [|exact Hx].
    intros z Hz. apply Hl. right. exact Hz.
Qed.

Section StoredTemplates.

Context {QRCode Image : Type} (env : collaborators QRCode Image).
Variable json_dump : list custom_template -> string.

Lemma selected_above_builtin (p : parent) :
  (8 < selected_template p)%Z ->
  get_template_name p
  = match List.find (fun t => (ct_id t =? selected_template p)%Z) (custom_templates p) with
    | Some t => ct_name t
    | None => "Custom"
    end
  /\ get_template_function env p
     = match List.find (fun t => (ct_id t =? selected_template p)%Z) (custom_templates p) with
       | Some t => load_custom env t
       | None => Ok (template_modern_gradient env)
       end.
Proof.
  intros H. rewrite <- find_custom_find.
  unfold get_template_name, get_template_function.
  repeat match goal with
  | |- context [(selected_template p =? ?k)%Z] =>
      destruct (Z.eqb_spec (selected_template p) k); [lia|]
  end.
  split; reflexivity.
Qed.

(** X17. A template that passed [validate_and_accept] and was added is
    reachable: its new id is above every stored id, and above 8 when
    there was no stored template or one with an id of at least 8; once
    that id is selected, [get_template_name] gives its stripped name
    and [get_template_function] the function its code binds to
    [template_custom]. *)
Theorem added_template_is_reachable (dialog : TemplateDialog) (p : parent) (w : world Image) :
  validate_and_accept env dialog = accept ->
  (custom_templates p = [] \/ exists t, In t (custom_templates p) /\ (8 <= ct_id t)%Z) ->
  let id := next_template_id (custom_templates p) in
  let p' := on_template_changed id
              (with_custom_templates
                 (fst (add_template_dialog env json_dump (Some dialog) p w)) p) in
  (8 < id)%Z
  /\ (forall t, In t (custom_templates p) -> (ct_id t < id)%Z)
  /\ get_template_name p' = PyStr.strip (name_edit dialog)
  /\ exists namespace f,
       py_exec env (PyStr.strip (code_edit dialog)) = Ok namespace
       /\ namespace !! "template_custom" = Some f
       /\ get_template_function env p' = Ok f.
Proof.
  intros Hv Hs id p'.
  assert (Above : forall t, In t (custom_templates p) -> (ct_id t < id)%Z).
  { intros t Ht. apply next_template_id_above. exact Ht. }
  assert (Hid : (8 < id)%Z).
  { destruct Hs as [E|(t & Ht & H8)].
    - unfold id, next_template_id. rewrite E. reflexivity.
    - specialize (Above t Ht). lia. }
  split; [exact Hid|]. split; [exact Above|].
  assert (Hfind : List.find (fun t => (ct_id t =? selected_template p')%Z) (custom_templates p')
                  = Some (get_template dialog id)).
  { unfold p'. cbn [add_template_dialog fst on_template_changed with_custom_templates
                      selected_template custom_templates].
    apply find_app_none.
    - intros t Ht. specialize (Above t Ht). apply Z.eqb_neq. fold id. lia.
    - cbn [get_template ct_id]. apply Z.eqb_refl. }
  destruct (selected_above_builtin p') as [N F]; [exact Hid|].
  rewrite N, F, Hfind. split; [reflexivity|].
  unfold validate_and_accept in Hv.
  destruct (_ || _); [discriminate|].
  cbn [get_template ct_code load_custom]. unfold load_custom. cbn [get_template ct_code].
  destruct (py_exec env (PyStr.strip (code_edit dialog))) as [ns|e];
    [|destruct e; discriminate].
  destruct (ns !! "template_custom") as [f|] eqn:E; [|discriminate].
  exists ns, f. split; [reflexivity|]. split; [exact E|]. reflexivity.
Qed.

Lemma find_increasing (stored : list custom_template) (t : custom_template) :
  ids_increasing stored -> In t stored ->
  List.find (fun s => (ct_id s =? ct_id t)%Z) stored = Some t.
Proof.
  intros [_ Hinc] Ht. apply list_elem_of_In, list_elem_of_lookup in Ht. destruct Ht as [j Hj].
  revert j Hinc Hj. induction stored as [|s stored IH]; intros j Hinc Hj.
  - rewrite lookup_nil in Hj. discriminate.
  - cbn [List.find]. destruct j as [|j].
    + inversion Hj; subst s. rewrite Z.eqb_refl. reflexivity.
    + assert (Hlt : (ct_id s < ct_id t)%Z).
      { apply (Hinc 0%nat (S j) s t); [lia | reflexivity | exact Hj]. }
      destruct (Z.eqb_spec (ct_id s) (ct_id t)); [lia|].
      apply (IH j).
      * intros i1 i2 a b H12 Ha Hb. apply (Hinc (S i1) (S i2)); [lia | exact Ha | exact Hb].
      * exact Hj.
Qed.

(** X18. [add_template_dialog] keeps the stored ids above 8 and
    increasing, which they are when there is no stored template; and
    while they are, every stored template is reachable under its own
    id: [get_template_name] gives its name. *)
Theorem stored_ids_stay_increasing (accepted : option TemplateDialog) (p : parent)
  (w : world Image) :
  ids_increasing []
  /\ (ids_increasing (custom_templates p) ->
      ids_increasing (fst (add_template_dialog env json_dump accepted p w))
      /\ forall t, In t (custom_templates p) ->
           get_template_name (on_template_changed (ct_id t) p) = ct_name t).
Proof.
  split.
  - split; [intros t [] | intros i j a b _ H; rewrite lookup_nil in H; discriminate].
  - intros Hinc. split.
    + destruct accepted as [dialog|]; [|exact Hinc].
      cbn [add_template_dialog fst].
      destruct Hinc as [H8 Hinc].
      assert (Above : forall t, In t (custom_templates p) ->
                (ct_id t < next_template_id (custom_templates p))%Z).
      { intros t Ht. apply next_template_id_above. exact Ht. }
      split.
      * intros t Ht. apply in_app_or in Ht. destruct Ht as [Ht|[<-|[]]]; [auto|].
        cbn [get_template ct_id]. destruct (custom_templates p) as [|s rest] eqn:E.
        -- reflexivity.
        -- specialize (Above s (or_introl eq_refl)). specialize (H8 s (or_introl eq_refl)). lia.
      * intros i j a b Hij Ha Hb.
        destruct (lt_dec j (length (custom_templates p))) as [Lj|Lj].
        -- rewrite lookup_app_l in Ha, Hb by lia. exact (Hinc i j a b Hij Ha Hb).
        -- rewrite lookup_app_r in Hb by lia.
           destruct (j - length (custom_templates p))%nat eqn:Ej; simpl in Hb;
             [|rewrite lookup_nil in Hb; discriminate].
           inversion Hb; subst b. cbn [get_template ct_id].
           destruct (lt_dec i (length (custom_templates p))) as [Li|Li].
           ++ rewrite lookup_app_l in Ha by lia. apply Above.
              apply list_elem_of_In. eapply list_elem_of_lookup_2. exact Ha.
           ++ rewrite lookup_app_r in Ha by lia.
              destruct (i - length (custom_templates p))%nat eqn:Ei; simpl in Ha;
                [lia | rewrite lookup_nil in Ha; discriminate].
    + intros t Ht.
      destruct (selected_above_builtin (on_template_changed (ct_id t) p)) as [N _].
      { cbn [on_template_changed selected_template]. apply (proj1 Hinc). exact Ht. }
      rewrite N. cbn [on_template_changed selected_template custom_templates].
      rewrite (find_increasing _ t Hinc Ht). reflexivity.
Qed.

(** The first stored template with the selected id, and what is
    before and after it. *)
Lemma find_split (selected : Z) (stored : list custom_template) (t : custom_template) :
  List.find (fun s => (ct_id s =? selected)%Z) stored = Some t ->
  exists before after,
    stored = (before ++ t :: after)%list
    /\ ct_id t = selected
    /\ (forall s, In s before -> ct_id s <> selected).
Proof.
  induction stored as [|s stored IH]; [discriminate|].
  cbn [List.find]. destruct (Z.eqb_spec (ct_id s) selected) as [E|E].
  - intros H. inversion H; subst s. exists [], stored.
    split; [reflexivity|]. split; [exact E|]. intros s [].
  - intros H. destruct (IH H) as (before & after & -> & Hid & Hb).
    exists (s :: before), after. split; [reflexivity|]. split; [exact Hid|].
    intros s' [<-|Hs]; [exact E | apply Hb; exact Hs].
Qed.

Lemma update_template_split (selected : Z) (updated : TemplateDialog)
  (before after : list custom_template) (t : custom_template) :
  ct_id t = selected -> (forall s, In s before -> ct_id s <> selected) ->
  update_template selected updated (before ++ t :: after)
  = (before ++ get_template updated (ct_id t) :: after)%list.
Proof.
  intros Hid. induction before as [|s before IH]; intros Hb; cbn [app update_template].
  - rewrite (proj2 (Z.eqb_eq _ _) Hid). reflexivity.
  - destruct (Z.eqb_spec (ct_id s) selected) as [E|E].
    + exfalso. apply (Hb s (or_introl eq_refl)). exact E.
    + rewrite IH; [reflexivity|]. intros s' Hs. apply Hb. right. exact Hs.
Qed.

Lemma find_before (selected : Z) (before after : list custom_template) (t : custom_template) :
  ct_id t = selected -> (forall s, In s before -> ct_id s <> selected) ->
  List.find (fun s => (ct_id s =? selected)%Z) (before ++ t :: after) = Some t.
Proof.
  intros Hid. induction before as [|s before IH]; intros Hb; cbn [app List.find].
  - rewrite (proj2 (Z.eqb_eq _ _) Hid). reflexivity.
  - destruct (Z.eqb_spec (ct_id s) selected) as [E|E].
    + exfalso. apply (Hb s (or_introl eq_refl)). exact E.
    + apply IH. intros s' Hs. apply Hb. right. exact Hs.
Qed.

(** X19. [edit_template_dialog].  With a selected id of at most 5 it
    shows that built-in templates cannot be edited; with a selected id
    that no stored template carries, that the template was not found;
    in both cases nothing else happens.  An accepted edit replaces the
    name, the description and the code of the first stored template
    with the selected id by the stripped texts of the dialog and keeps
    its id; the templates before and after it, later ones with the
    same id among them, stay as they are; the new list is saved.  The
    rebuild of the combo box then decides the selected id; when it is
    the edited one again and above 8, [get_template_name] gives the
    new name. *)
Theorem edit_template_dialog_effect (accepted : option TemplateDialog)
  (currentData : option Z) (p : parent) (w : world Image) :
  match edit_template_dialog env json_dump accepted currentData p w with
  | edit_refused box =>
      ((selected_template p <= 5)%Z
       /\ box = information "Info" "Built-in templates cannot be edited")
      \/ ((5 < selected_template p)%Z
          /\ (forall t, In t (custom_templates p) -> ct_id t <> selected_template p)
          /\ box = warning "Warning" "Template not found")
  | edit_cancelled =>
      accepted = None /\ (5 < selected_template p)%Z
      /\ exists t, In t (custom_templates p) /\ ct_id t = selected_template p
  | edited p' w' =>
      (5 < selected_template p)%Z
      /\ exists dialog before t after,
           accepted = Some dialog
           /\ custom_templates p = (before ++ t :: after)%list
           /\ ct_id t = selected_template p
           /\ (forall s, In s before -> ct_id s <> selected_template p)
           /\ custom_templates p'
              = (before
                 ++ {| ct_id := ct_id t;
                       ct_name := PyStr.strip (name_edit dialog);
                       ct_description := PyStr.strip (desc_edit dialog);
                       ct_code := PyStr.strip (code_edit dialog) |} :: after)%list
           /\ w' = snd (ConfigManager._save_json env json_dump
                          (ConfigManager.__init__ (base_dir p) None)
                          "custom_templates.json" (custom_templates p') w)
           /\ (fst (ConfigManager._save_json env json_dump
                      (ConfigManager.__init__ (base_dir p) None)
                      "custom_templates.json" (custom_templates p') w) = Ok tt ->
               disk w' !! os_path_join (base_dir p) "custom_templates.json"
               = Some (TextFile (json_dump (custom_templates p'))))
           /\ selected_template p' = default (selected_template p) currentData
           /\ (selected_template p' = selected_template p ->
               (8 < selected_template p)%Z ->
               get_template_name p' = PyStr.strip (name_edit dialog))
  end.
Proof.
  unfold edit_template_dialog.
  destruct (Z.leb_spec (selected_template p) 5) as [L|L]; [left; split; [exact L | reflexivity]|].
  destruct (List.find _ (custom_templates p)) as [t|] eqn:Hfind.
  2: { right. split; [exact L|]. split; [|reflexivity].
       intros t Ht E. apply (find_none _ _ Hfind) in Ht. cbn beta in Ht.
       apply Z.eqb_neq in Ht. contradiction. }
  destruct (find_split _ _ _ Hfind) as (before & after & Hsplit & Hid & Hbefore).
  destruct accepted as [dialog|].
  2: { split; [reflexivity|]. split; [exact L|]. exists t. split; [|exact Hid].
       rewrite Hsplit. apply in_or_app. right. left. reflexivity. }
  split; [exact L|].
  exists dialog, before, t, after.
  assert (Hstored : custom_templates
                      (update_template_list currentData
                         (with_custom_templates
                            (update_template (selected_template p) dialog (custom_templates p)) p))
                    = (before ++ get_template dialog (ct_id t) :: after)%list).
  { rewrite Hsplit at 1. rewrite (update_template_split _ dialog before after t Hid Hbefore).
    destruct currentData; reflexivity. }
  split; [reflexivity|]. split; [exact Hsplit|]. split; [exact Hid|]. split; [exact Hbefore|].
  split; [exact Hstored|].
  split.
  { rewrite Hstored. rewrite Hsplit at 1.
    rewrite (update_template_split _ dialog before after t Hid Hbefore). reflexivity. }
  split.
  { rewrite Hstored. rewrite Hsplit at 1.
    rewrite (update_template_split _ dialog before after t Hid Hbefore).
    set (payload := (before ++ get_template dialog (ct_id t) :: after)%list).
    change (fst (ConfigManager._save_json env json_dump
                   (ConfigManager.__init__ (base_dir p) None)
                   "custom_templates.json" payload w) = Ok tt ->
            disk (snd (ConfigManager._save_json env json_dump
                         (ConfigManager.__init__ (base_dir p) None)
                         "custom_templates.json" payload w))
              !! ConfigManager._resolve (ConfigManager.__init__ (base_dir p) None)
                   "custom_templates.json"
            = Some (TextFile (json_dump payload))).
    destruct (ConfigManager._save_json env json_dump
                (ConfigManager.__init__ (base_dir p) None)
                "custom_templates.json" payload w) as [r w1] eqn:Hsave.
    cbn [fst snd]. intros ->.
    exact (proj1 (_save_json_effect env json_dump _ _ _ w w1 Hsave)). }
  split; [destruct currentData; reflexivity|].
  intros Hsel H8.
  match goal with |- get_template_name ?q = _ => set (p' := q) in * end.
  destruct (selected_above_builtin p') as [N _]; [rewrite Hsel; exact H8|].
  rewrite N, Hstored, Hsel.
  rewrite (find_before (selected_template p) before after (get_template dialog (ct_id t)));
    [reflexivity | exact Hid | exact Hbefore].
Qed.

End StoredTemplates.

(** The first template added to an empty store gets id 9. *)
Lemma added_template_is_reachable_witness :
  get_template_name
    (on_template_changed 9
       (with_custom_templates
          (fst (add_template_dialog Demo.env (fun _ => "[...]")
                  (Some {| name_edit := " Mine "; desc_edit := "";
                           code_edit := "def template_custom(*a): ..." |})
                  Demo.window (Demo.world_with "")))
          Demo.window))
  = "Mine".
Proof.
  exact (proj1 (proj2 (proj2
           (added_template_is_reachable Demo.env (fun _ => "[...]")
              {| name_edit := " Mine "; desc_edit := "";
                 code_edit := "def template_custom(*a): ..." |}
              Demo.window (Demo.world_with "")
              ltac:(vm_compute; reflexivity) (or_introl eq_refl))))).
Defined.

(** ** The first record: [test_qr] and the preview *)

Lemma find_head_filter {A} (f : A -> bool) (l : list A) :
  List.find f l = head (List.filter f l).
Proof.
  induction l as [|x l IH]; [reflexivity|]. cbn [List.find List.filter].
  destruct (f x); [reflexivity | exact IH].
Qed.

Lemma first_line_head (content : string) :
  first_line content = head (stripped_lines (PyStr.readlines content)).
Proof. unfold first_line, stripped_lines. apply find_head_filter. Qed.

Section FirstRecord.

Context {QRCode Image : Type} (env : collaborators QRCode Image).
Variable p : parent.

(** X20. [test_qr] and the preview work on the first record of the
    batch.  With an input file that holds text, [test_qr] opens what
    the QR code of the first record encodes
    ([detect_data_type] of the first record of [run]), and nothing
    when there is no record; the preview encodes the first record, and
    [https://example.com] when there is none or no input file. *)
Theorem first_record_is_tested_and_previewed (w : world Image) (content : string) :
  input_file p <> "" ->
  disk w !! input_file p = Some (TextFile content) ->
  test_qr env p w
  = match stripped_lines (PyStr.readlines content) with
    | link :: _ => opened (detect_data_type link)
    | [] => nothing_opened
    end
  /\ preview_link env p w
     = (Ok (match stripped_lines (PyStr.readlines content) with
            | link :: _ => link
            | [] => "https://example.com"
            end), w).
Proof.
  intros Hne Hin. unfold test_qr, preview_link.
  destruct (String.eqb_spec (input_file p) ""); [contradiction|].
  rewrite Hin, first_line_head.
  destruct (stripped_lines (PyStr.readlines content)) as [|link rest];
    (split; [|reflexivity]); cbn [head]; [reflexivity|].
  unfold detect_data_type.
  repeat match goal with
  | |- context [PyStr.startswith ?a ?b] => destruct (PyStr.startswith a b)
  end; reflexivity.
Qed.

Hypothesis mkstemp_fresh : forall d, d !! mkstemp env d = None.

(** X21. [update_preview] leaves the world as it found it, whether it
    returns an image or fails: the temporary bitmap is removed, no
    other file is touched, and nothing is emitted or appended. *)
Theorem update_preview_leaves_no_trace (quick_preview_mode : bool) (preview_quality : Q)
  (w : world Image) :
  snd (update_preview env quick_preview_mode preview_quality p w) = w.
Proof.
  unfold update_preview, bind, preview_link, lift, make_temp, try_finally, save_qr,
    Image_open, unlink_if_exists, set_disk.
  destruct w as [d ds h pr fi]. cbn [disk dirs history progress finished].
  pose proof (mkstemp_fresh d) as Fresh.
  assert (E1 : forall y, delete (mkstemp env d) (<[mkstemp env d := y]> d) = d).
  { intros y. apply delete_insert_id. exact Fresh. }
  assert (E2 : forall x y,
            delete (mkstemp env d) (<[mkstemp env d := x]> (<[mkstemp env d := y]> d)) = d).
  { intros x y. rewrite insert_insert_eq. apply E1. }
  destruct (String.eqb (input_file p) "");
    [|destruct (d !! input_file p) as [[content| |]|]];
    cbn [disk dirs history progress finished snd]; try reflexivity.
  all: match goal with
       | |- context [segno_make env ?x] => destruct (segno_make env x) as [qr|e]; [|reflexivity]
       end.
  all: cbn [disk dirs history progress finished].
  all: destruct (qr_save env qr _) as [img|e]; cbn [disk dirs history progress finished snd];
         [|rewrite E1; reflexivity].
  all: rewrite lookup_insert_eq.
  all: destruct (get_template_function env p) as [template_func|e];
         cbn [disk dirs history progress finished snd]; rewrite E2; reflexivity.
Qed.

(** X22. The scale of the preview bitmap.  In quick mode it is never
    below 5, and with a quality from 0 to 1 and a slider value of at
    least 5 (and below [2 ^ 53]) it is never above the slider value;
    otherwise it is the slider value. *)
Theorem preview_scale_bounds (quick_preview_mode : bool) (preview_quality : Q) :
  (quick_preview_mode = true ->
   (5 <= preview_scale quick_preview_mode preview_quality p)%Z
   /\ ((0 <= preview_quality <= 1)%Q -> (5 <= qr_scale p < 2 ^ 53)%Z ->
       (preview_scale quick_preview_mode preview_quality p <= qr_scale p)%Z))
  /\ (quick_preview_mode = false ->
      preview_scale quick_preview_mode preview_quality p = qr_scale p).
Proof.
  split; [|intros ->; reflexivity].
  intros ->. unfold preview_scale. split; [lia|].
  intros [Q0 Q1] Hs.
  assert (B : (PyFloat.Qrne (PyFloat.fmul (PyFloat.float_of_int (qr_scale p)) preview_quality)
               <= qr_scale p)%Z).
  { unfold PyFloat.fmul, PyFloat.float_of_int.
    pose proof (PyFloatFacts.RN_int (qr_scale p) ltac:(lia)) as Hint.
    assert (Pos : (0 <= inject_Z (qr_scale p))%Q).
    { change 0%Q with (inject_Z 0). rewrite <- Zle_Qle. lia. }
    assert (Le : (PyFloat.RN (PyFloat.RN (inject_Z (qr_scale p)) * preview_quality)
                  <= inject_Z (qr_scale p))%Q).
    { rewrite <- Hint at 2.
      apply PyFloatFacts.RN_mono.
      - rewrite Hint. apply Qmult_le_0_compat; assumption.
      - rewrite Hint. revert Pos. generalize (inject_Z (qr_scale p)). intros s Pos. nra. }
    pose proof (PyFloatFacts.Qrne_mono _ _ Le) as M.
    rewrite PyFloatFacts.Qrne_Z in M. exact M. }
  lia.
Qed.

End FirstRecord.

(** ** Where the built-in templates paste *)

(** X23. In each of the eight built-in templates, for a QR bitmap of
    any size, the bitmap is pasted wholly on the card, the square of
    the logo circle lies wholly on the card, and the logo is centred
    on the centre of the bitmap ([qr_x + qr_width // 2],
    [qr_y + qr_height // 2]). *)
Theorem builtin_layouts_keep_qr_on_card (make : Z -> Z -> layout) (qr_width qr_height : Z) :
  In make builtin_layouts ->
  (0 <= qr_width)%Z -> (0 <= qr_height)%Z ->
  let l := make qr_width qr_height in
  on_card l (qr_x l) (qr_y l) qr_width qr_height
  /\ on_card l (logo_x l) (logo_y l) (logo_size l) (logo_size l)
  /\ (logo_x l + logo_size l / 2 = qr_x l + qr_width / 2)%Z
  /\ (logo_y l + logo_size l / 2 = qr_y l + qr_height / 2)%Z.
Proof.
  intros Hin Hw Hh.
  unfold builtin_layouts in Hin. cbn [In] in Hin.
  destruct Hin as [<-|[<-|[<-|[<-|[<-|[<-|[<-|[<-|[]]]]]]]]];
    unfold on_card, layout_modern_gradient, layout_glassmorphism, layout_neon_cyberpunk,
      layout_minimalist, layout_3d_card, layout_aurora_glow, layout_split_contrast,
      layout_sunrise_spotlight;
    cbn [card_width card_height qr_x qr_y logo_x logo_y logo_size];
    repeat split; Z.to_euclidean_division_equations; lia.
Qed.

(** The first template around a bitmap of 435 by 435 pixels. *)
Lemma builtin_layouts_keep_qr_on_card_witness :
  on_card (layout_modern_gradient 435 435) 90 100 435 435.
Proof.
  exact (proj1 (builtin_layouts_keep_qr_on_card layout_modern_gradient 435 435
                  (or_introl eq_refl) ltac:(lia) ltac:(lia))).
Defined.

(** ** Palettes from the configuration *)

(** X24. [normalize_palette] is idempotent; it gives three entries
    for a missing or empty palette and otherwise as many entries as it
    was given, neither padding nor cutting the list; and it returns
    unchanged (as tuples) a non-empty palette of colours as
    [save_config] stored them, with its empty slots when [allow_none]
    is set. *)
Theorem normalize_palette_idempotent {V} (palette : option (list (palette_entry V)))
  (allow_none : bool) :
  normalize_palette (Some (normalize_palette palette allow_none)) allow_none
  = normalize_palette palette allow_none
  /\ length (normalize_palette palette allow_none)
     = match palette with
       | None | Some [] => 3%nat
       | Some colors => length colors
       end
  /\ forall colors : list (option rgb),
       colors <> [] ->
       (allow_none = false -> forall color, In color colors -> color <> None) ->
       normalize_palette (V := V) (Some (map stored_color colors)) allow_none
       = map stored_color colors.
Proof.
  assert (Step : forall color : palette_entry V,
            match
              match color with
              | entry_none => if allow_none then entry_none else entry_seq [26; 35; 126]%Z
              | entry_seq channels => entry_seq (firstn 3 channels)
              | entry_other v => entry_other v
              end
            with
            | entry_none => if allow_none then entry_none else entry_seq [26; 35; 126]%Z
            | entry_seq channels => entry_seq (firstn 3 channels)
            | entry_other v => @entry_other V v
            end
            = match color with
              | entry_none => if allow_none then entry_none else entry_seq [26; 35; 126]%Z
              | entry_seq channels => entry_seq (firstn 3 channels)
              | entry_other v => entry_other v
              end).
  { intros [|channels|v]; [destruct allow_none; reflexivity | | reflexivity].
    f_equal. destruct channels as [|a [|b [|c rest]]]; reflexivity. }
  split; [|split].
  - destruct palette as [[|color colors]|].
    + destruct allow_none; reflexivity.
    + unfold normalize_palette. cbn [map]. rewrite Step. f_equal.
      rewrite map_map. apply map_ext. exact Step.
    + destruct allow_none; reflexivity.
  - destruct palette as [[|color colors]|];
      [destruct allow_none; reflexivity | | destruct allow_none; reflexivity].
    unfold normalize_palette. rewrite length_map. reflexivity.
  - intros colors Hne Hnone. destruct colors as [|color colors]; [congruence|].
    unfold normalize_palette. cbn [map stored_color].
    assert (Id : forall c, In c (color :: colors) ->
              match stored_color (V := V) c with
              | entry_none => if allow_none then entry_none else entry_seq [26; 35; 126]%Z
              | entry_seq channels => entry_seq (firstn 3 channels)
              | entry_other v => entry_other v
              end = stored_color c).
    { intros [[[r g] b]|] Hc; [reflexivity|]. cbn [stored_color].
      destruct allow_none; [reflexivity|]. exfalso. exact (Hnone eq_refl None Hc eq_refl). }
    rewrite (Id color (or_introl eq_refl)). f_equal.
    rewrite map_map. apply map_ext_in. intros c Hc. apply Id. right. exact Hc.
Qed.

(** ** The colours of a run after the colour controls *)

Lemma all_colors_Some (colors : list rgb) : all_colors (map Some colors) = Some colors.
Proof.
  induction colors as [|c colors IH]; [reflexivity|]. cbn [map all_colors]. rewrite IH.
  reflexivity.
Qed.

(** X25. Ticking "custom colours" on a window with three colour slots
    and at least three theme colours does not raise; it fills each
    empty slot with the theme colour of the same index, keeps the
    colours already chosen, shows the preset name [Custom], and from
    then on a run uses the three slots. *)
Theorem custom_colors_fill_empty_slots (current_theme_preset : string) (p : parent) :
  length (custom_colors p) = 3%nat -> (3 <= length (theme_colors p))%nat ->
  exists p',
    toggle_custom_colors true current_theme_preset p = (Ok tt, (p', "Custom"))
    /\ use_custom_colors p' = true
    /\ theme_colors p' = theme_colors p
    /\ custom_colors p' = map (merged_color p) [0; 1; 2]%nat
    /\ map Some (job_colors p') = map (merged_color p) [0; 1; 2]%nat.
Proof.
  intros Hc Ht. unfold toggle_custom_colors, merged_color.
  destruct (custom_colors p) as [|c0 [|c1 [|c2 [|c3 rest]]]] eqn:Ec; try discriminate.
  destruct (theme_colors p) as [|t0 [|t1 [|t2 theme]]] eqn:Et; cbn [length] in Ht; try lia.
  destruct c0 as [c0|], c1 as [c1|], c2 as [c2|];
    (eexists; split; [reflexivity|]);
    cbn [with_colors use_custom_colors theme_colors custom_colors];
    (split; [reflexivity|]); (split; [reflexivity|]); split; reflexivity.
Qed.

Section PresetColors.

Context {QRCode Image : Type} (env : collaborators QRCode Image).

(** X26. Choosing one of the five theme presets does not raise; it
    turns custom colours off, makes the three colours of the preset
    the theme colours and leaves the colour slots alone, so that a run
    started afterwards hands those three colours to its template for
    every card.  A name that is not a preset changes nothing on the
    window and shows [Custom]. *)
Theorem theme_preset_sets_run_colors (preset_name current_theme_preset : string)
  (p : parent) :
  (forall colors,
     List.find (fun kv => String.eqb (fst kv) preset_name) theme_presets
     = Some (preset_name, colors) ->
     exists p',
       on_theme_preset_changed preset_name current_theme_preset p
       = (Ok tt, (p', preset_name))
       /\ use_custom_colors p' = false
       /\ theme_colors p' = colors
       /\ custom_colors p' = custom_colors p
       /\ length colors = 3%nat
       /\ forall (w w' : world Image) (content : string),
            (forall d, d !! mkstemp env d = None) ->
            (forall d j, mkstemp env d <> output_file p' j) ->
            disk w !! input_file p' = Some (TextFile content) ->
            job env p' w = (Ok tt, w') ->
            card_format p' ->
            exists template_func,
              get_template_function env p' = Ok template_func
              /\ forall j link,
                   stripped_lines (PyStr.readlines content) !! j = Some link ->
                   exists f,
                     disk (run env p' w) !! output_file p' (S j) = Some f
                     /\ card_of env p' template_func colors (S j) link f)
  /\ (List.find (fun kv => String.eqb (fst kv) preset_name) theme_presets = None ->
      on_theme_preset_changed preset_name current_theme_preset p = (Ok tt, (p, "Custom"))).
Proof.
  unfold on_theme_preset_changed, preset_colors. split.
  - intros colors H. rewrite H. cbn [option_map snd]. eexists.
    assert (L : length colors = 3%nat).
    { revert H. unfold theme_presets. cbn [List.find fst snd].
      repeat match goal with
      | |- context [String.eqb ?a preset_name] => destruct (String.eqb a preset_name)
      end; intros H; inversion H; reflexivity. }
    destruct colors as [|t0 [|t1 [|t2 [|t3 rest]]]]; try discriminate.
    split; [reflexivity|]. split; [reflexivity|]. split; [reflexivity|].
    split; [reflexivity|]. split; [reflexivity|].
    intros w w' content Fresh NotCard Hin Hjob Hfmt.
    assert (Hrun : run env (with_colors false (custom_colors p) [t0; t1; t2] p) w = w').
    { unfold run, try_except. rewrite Hjob. reflexivity. }
    rewrite Hrun.
    exact (run_cards env _ Fresh w w' content NotCard Hin Hjob Hfmt).
  - intros ->. reflexivity.
Qed.

End PresetColors.

Lemma custom_colors_fill_empty_slots_witness :
  exists p',
    toggle_custom_colors true "Sunset" Demo.window = (Ok tt, (p', "Custom"))
    /\ job_colors p' = default_palette.
Proof.
  destruct (custom_colors_fill_empty_slots "Sunset" Demo.window eq_refl ltac:(simpl; lia))
    as (p' & H1 & _ & _ & _ & H2).
  exists p'. split; [exact H1|].
  change (map (merged_color Demo.window) [0; 1; 2]%nat) with (map Some default_palette) in H2.
  revert H2. generalize (job_colors p'), default_palette.
  induction l as [|a l IH]; intros [|b m] H; try discriminate; [reflexivity|].
  inversion H. f_equal. apply IH. assumption.
Defined.

(** ** The extra properties on the concrete setting *)

(** Three records rendered: the input file is as it was. *)
Lemma run_touches_only_its_files_witness :
  disk (run Demo.env Demo.window (Demo.world_with Demo.three_links)) !! "links.txt"
  = Some (TextFile Demo.three_links).
Proof.
  rewrite (run_touches_only_its_files Demo.env Demo.window demo_long_name_fresh
             (Demo.world_with Demo.three_links) "links.txt").
  - reflexivity.
  - discriminate.
  - discriminate.
  - intros j. discriminate.
Defined.

(** Three records rendered: the message, the history record and the
    card of the third record, whose payload gets [https://] in front
    before it is encoded. *)
Lemma run_success_witness :
  finished (run Demo.env Demo.window (Demo.world_with Demo.three_links))
  = [(true, "✅ Generated 3 QR codes successfully!"
            ++ String "010" (String "010" "📁 Path: qr_results"))]
  /\ history (run Demo.env Demo.window (Demo.world_with Demo.three_links))
     = [{| h_date := "2024-01-01 00:00:00"; h_template := "Modern Gradient";
           h_count := 3; h_output_dir := "qr_results" |}]
  /\ (exists template_func f,
        get_template_function Demo.env Demo.window = Ok template_func
        /\ disk (run Demo.env Demo.window (Demo.world_with Demo.three_links))
             !! "qr_results/Modern Gradient_VPN 3.png" = Some f
        /\ card_of Demo.env Demo.window template_func default_palette 3 "example.com" f)
  /\ disk (run Demo.env Demo.window (Demo.world_with Demo.three_links))
       !! "qr_results/Modern Gradient_VPN 3.png"
     = Some (CardFile "PNG" 98 "card(VPN 3,qr(https://example.com))").
Proof.
  pose (w := Demo.world_with Demo.three_links).
  destruct (run_success Demo.env Demo.window demo_long_name_fresh w
              (snd (job Demo.env Demo.window w)) Demo.three_links
              demo_long_name_not_card ltac:(reflexivity) ltac:(reflexivity)
              ltac:(vm_compute; reflexivity))
    as (R & F & H & _ & C).
  fold w. rewrite R. split; [exact F|]. split; [exact H|]. split.
  - destruct (C (or_introl eq_refl)) as (template_func & Htf & Hcards).
    destruct (Hcards 2%nat "example.com" ltac:(vm_compute; reflexivity)) as (f & Hf & Hcard).
    exists template_func, f. split; [exact Htf|]. split; [exact Hf | exact Hcard].
  - vm_compute. reflexivity.
Defined.

(** The first of three records is what is opened and previewed. *)
Lemma first_record_is_tested_and_previewed_witness :
  test_qr Demo.env Demo.window (Demo.world_with Demo.three_links)
  = opened "https://a.example".
Proof.
  rewrite (proj1 (first_record_is_tested_and_previewed Demo.env Demo.window
                    (Demo.world_with Demo.three_links) Demo.three_links
                    ltac:(discriminate) ltac:(reflexivity))).
  vm_compute. reflexivity.
Defined.

Lemma update_preview_leaves_no_trace_witness :
  snd (update_preview Demo.env true (7 # 10) Demo.window (Demo.world_with Demo.three_links))
  = Demo.world_with Demo.three_links.
Proof.
  apply (update_preview_leaves_no_trace Demo.env Demo.window demo_long_name_fresh).
Defined.

(** ** Records and lines *)

Lemma str_rev_append_app (s acc : string) : PyStr.rev_append s acc = PyStr.rev s ++ acc.
Proof.
  unfold PyStr.rev. revert acc. induction s as [|c s IH]; intros acc; [reflexivity|].
  cbn [PyStr.rev_append]. rewrite (IH (String c acc)), (IH (String c "")).
  rewrite append_assoc. reflexivity.
Qed.

Lemma str_rev_cons (c : ascii) (s : string) : PyStr.rev (String c s) = PyStr.rev s ++ String c "".
Proof. unfold PyStr.rev at 1. cbn [PyStr.rev_append]. apply str_rev_append_app. Qed.

Lemma str_rev_app (a b : string) : PyStr.rev (a ++ b) = PyStr.rev b ++ PyStr.rev a.
Proof.
  induction a as [|c a IH].
  - change ("" ++ b) with b. change (PyStr.rev "") with "". rewrite append_empty_r. reflexivity.
  - rewrite append_cons, !str_rev_cons, IH, append_assoc. reflexivity.
Qed.

Lemma str_rev_involutive (s : string) : PyStr.rev (PyStr.rev s) = s.
Proof.
  induction s as [|c s IH]; [reflexivity|].
  rewrite str_rev_cons, str_rev_app, IH. reflexivity.
Qed.

Lemma no_break_app (a b : string) : no_break (a ++ b) = no_break a && no_break b.
Proof.
  induction a as [|c a IH]; [reflexivity|].
  rewrite append_cons. cbn [no_break]. rewrite IH, andb_assoc. reflexivity.
Qed.

Lemma no_break_rev (s : string) : no_break (PyStr.rev s) = no_break s.
Proof.
  induction s as [|c s IH]; [reflexivity|].
  rewrite str_rev_cons, no_break_app, IH. cbn [no_break].
  rewrite andb_true_r, andb_comm. reflexivity.
Qed.

Lemma str_drop_suffix (n : nat) (s : string) : exists pre, s = pre ++ PyStr.drop n s.
Proof.
  revert s. induction n as [|n IH]; intros s; [exists ""; reflexivity|].
  destruct s as [|c s]; [exists ""; reflexivity|].
  destruct (IH s) as [pre E]. exists (String c pre). cbn [PyStr.drop].
  rewrite append_cons, <- E. reflexivity.
Qed.

Lemma str_length_drop (n : nat) (s : string) :
  String.length (PyStr.drop n s) = (String.length s - n)%nat.
Proof.
  revert s. induction n as [|n IH]; intros s; [cbn; lia|].
  destruct s as [|c s]; [reflexivity|]. cbn [PyStr.drop String.length]. rewrite IH. lia.
Qed.

Lemma str_prefix_length (w s : string) :
  String.prefix w s = true -> (String.length w <= String.length s)%nat.
Proof.
  revert s. induction w as [|c w IH]; intros s H; [cbn; lia|].
  destruct s as [|d s]; [discriminate|]. cbn [String.prefix] in H.
  destruct (ascii_dec c d); [|discriminate]. specialize (IH s H). cbn [String.length]. lia.
Qed.

Lemma lstrip_with_suffix (ws : list string) (fuel : nat) (s : string) :
  exists pre, s = pre ++ PyStr.lstrip_with ws fuel s.
Proof.
  revert s. induction fuel as [|fuel IH]; intros s; [exists ""; reflexivity|].
  cbn [PyStr.lstrip_with]. destruct (List.find _ ws) as [w|]; [|exists ""; reflexivity].
  destruct (str_drop_suffix (String.length w) s) as [pre1 E1].
  destruct (IH (PyStr.drop (String.length w) s)) as [pre2 E2].
  exists (pre1 ++ pre2). rewrite append_assoc, <- E2. exact E1.
Qed.

(** With fuel for every character, what is left starts with none of
    the strings to strip. *)
Lemma lstrip_with_done (ws : list string) (fuel : nat) (s : string) :
  (forall w, In w ws -> w <> "") -> (String.length s <= fuel)%nat ->
  forall w, In w ws -> String.prefix w (PyStr.lstrip_with ws fuel s) = false.
Proof.
  intros Hws. revert s. induction fuel as [|fuel IH]; intros s Hlen w Hw.
  - destruct s; [|cbn in Hlen; lia]. cbn [PyStr.lstrip_with].
    destruct w; [exfalso; exact (Hws _ Hw eq_refl) | reflexivity].
  - cbn [PyStr.lstrip_with].
    destruct (List.find (fun w0 => String.prefix w0 s) ws) as [w0|] eqn:F.
    + apply find_some in F. destruct F as [Hin Hpre].
      apply IH; [|exact Hw]. rewrite str_length_drop.
      pose proof (str_prefix_length _ _ Hpre) as L.
      assert (String.length w0 <> 0%nat).
      { destruct w0; [exfalso; exact (Hws _ Hin eq_refl) | discriminate]. }
      lia.
    + exact (find_none _ _ F w Hw).
Qed.

Lemma whitespace_nonempty (w : string) :
  In w PyStr.whitespace \/ In w (map PyStr.rev PyStr.whitespace) -> w <> "".
Proof.
  assert (A : forallb (fun w => negb (String.eqb w ""))
                (PyStr.whitespace ++ map PyStr.rev PyStr.whitespace) = true)
    by (vm_compute; reflexivity).
  rewrite forallb_forall in A. intros H E. subst w.
  specialize (A "" ltac:(apply in_or_app; exact H)). discriminate.
Qed.

(** [strip] cuts a text out of the middle of its argument, and what it
    returns does not end with a line feed. *)
Lemma strip_spec (s : string) :
  (exists pre post, s = pre ++ PyStr.strip s ++ post)
  /\ String.prefix (String "010"%char "") (PyStr.rev (PyStr.strip s)) = false.
Proof.
  unfold PyStr.strip, PyStr.rstrip, PyStr.lstrip.
  destruct (lstrip_with_suffix PyStr.whitespace (String.length s) s) as [pre E1].
  set (L := PyStr.lstrip_with PyStr.whitespace (String.length s) s) in *.
  destruct (lstrip_with_suffix (map PyStr.rev PyStr.whitespace) (String.length L) (PyStr.rev L))
    as [pre2 E2].
  set (R := PyStr.lstrip_with (map PyStr.rev PyStr.whitespace) (String.length L) (PyStr.rev L))
    in *.
  split.
  - exists pre, (PyStr.rev pre2).
    rewrite <- str_rev_app, <- E2, str_rev_involutive. exact E1.
  - rewrite str_rev_involutive. unfold R.
    apply lstrip_with_done.
    + intros w Hw. apply whitespace_nonempty. right. exact Hw.
    + assert (LR : forall x, String.length (PyStr.rev x) = String.length x).
      { induction x as [|c x IH]; [reflexivity|].
        rewrite str_rev_cons, length_append, IH. cbn [String.length]. lia. }
      rewrite LR. lia.
    + vm_compute. right. left. reflexivity.
Qed.

Lemma str_snoc_cases (s : string) : s = "" \/ exists s' c, s = s' ++ String c "".
Proof.
  induction s as [|c s IH]; [left; reflexivity|]. right.
  destruct IH as [->|(s' & d & ->)].
  - exists "", c. reflexivity.
  - exists (String c s'), d. reflexivity.
Qed.

Lemma str_snoc_injective (a b : string) (c d : ascii) :
  a ++ String c "" = b ++ String d "" -> a = b /\ c = d.
Proof.
  revert b. induction a as [|x a IH]; intros [|y b] H.
  - inversion H. auto.
  - rewrite append_cons in H. inversion H as [[E1 E2]]. destruct b; discriminate.
  - rewrite append_cons in H. inversion H as [[E1 E2]]. destruct a; discriminate.
  - rewrite !append_cons in H. inversion H as [[E1 E2]]. destruct (IH b E2) as [-> ->]. auto.
Qed.

(** A line as [readlines] cuts it: no line break, except for a line
    feed at its end. *)
Definition line_shape (line : string) : Prop :=
exists body, no_break body = true /\ (line = body \/ line = body ++ String "010"%char "").

Lemma readlines_go_shape (s cur : string) :
  no_break cur = true -> forall line, In line (PyStr.readlines_go s cur) -> line_shape line.
Proof.
  assert (Closed : forall cur0, no_break cur0 = true ->
            line_shape (PyStr.rev (String "010"%char cur0))).
  { intros cur0 H0. exists (PyStr.rev cur0). rewrite no_break_rev. split; [exact H0|].
    right. apply str_rev_cons. }
  assert (G : forall n s0 cur0, (String.length s0 <= n)%nat -> no_break cur0 = true ->
            forall line, In line (PyStr.readlines_go s0 cur0) -> line_shape line).
  { induction n as [|n IH]; intros s0 cur0 Hlen Hcur line Hline.
    - destruct s0; [|cbn in Hlen; lia]. cbn [PyStr.readlines_go] in Hline.
      destruct cur0 as [|x cur0]; [destruct Hline|].
      destruct Hline as [<-|[]]. exists (PyStr.rev (String x cur0)).
      rewrite no_break_rev. auto.
    - destruct s0 as [|c r]; cbn [PyStr.readlines_go] in Hline.
      + destruct cur0 as [|x cur0]; [destruct Hline|].
        destruct Hline as [<-|[]]. exists (PyStr.rev (String x cur0)).
        rewrite no_break_rev. auto.
      + cbn [String.length] in Hlen.
        destruct (Ascii.eqb c "010") eqn:E10.
        * destruct Hline as [<-|Hline]; [apply Closed; exact Hcur|].
          apply (IH r ""); [lia | reflexivity | exact Hline].
        * destruct (Ascii.eqb c "013") eqn:E13.
          -- destruct r as [|c' r'].
             ++ destruct Hline as [<-|[]]. apply Closed. exact Hcur.
             ++ cbn [String.length] in Hlen. destruct (Ascii.eqb c' "010").
                ** destruct Hline as [<-|Hline]; [apply Closed; exact Hcur|].
                   apply (IH r' ""); [lia | reflexivity | exact Hline].
                ** destruct Hline as [<-|Hline]; [apply Closed; exact Hcur|].
                   apply (IH (String c' r') ""); [cbn; lia | reflexivity | exact Hline].
          -- apply (IH r (String c cur0)); [lia | | exact Hline].
             cbn [no_break]. rewrite E10, E13, Hcur. reflexivity. }
  intros Hcur. apply (G (String.length s) s cur); [lia | exact Hcur].
Qed.

Lemma strip_line_no_break (line : string) :
  line_shape line -> no_break (PyStr.strip line) = true.
Proof.
  intros (body & Hbody & Hline).
  destruct (strip_spec line) as [(pre & post & E) Hend].
  remember (PyStr.strip line) as R eqn:ER. clear ER.
  assert (Inside : forall a b c, no_break (a ++ b ++ c) = true -> no_break b = true).
  { intros a b c H. rewrite !no_break_app in H.
    apply andb_prop in H. destruct H as [_ H]. apply andb_prop in H. tauto. }
  destruct Hline as [-> | ->].
  - apply (Inside pre R post). rewrite <- E. exact Hbody.
  - destruct (str_snoc_cases post) as [->|(post' & c & ->)].
    + rewrite append_empty_r in E.
      destruct (str_snoc_cases R) as [->|(R' & c & HR)]; [reflexivity|].
      exfalso. rewrite HR in E. rewrite <- append_assoc in E.
      apply str_snoc_injective in E. destruct E as [_ <-].
      rewrite HR, str_rev_app in Hend.
      change (PyStr.rev (String "010"%char "")) with (String "010"%char "") in Hend.
      rewrite append_cons in Hend. cbn [String.prefix] in Hend.
      destruct (ascii_dec "010"%char "010"%char); [|congruence].
      destruct ("" ++ PyStr.rev R'); discriminate.
    + rewrite <- !append_assoc in E. apply str_snoc_injective in E. destruct E as [E _].
      apply (Inside pre R post'). rewrite <- append_assoc, <- E. exact Hbody.
Qed.

(** X27. A record never spans lines: every record [run] works on is
    non-empty and holds neither a line feed nor a carriage return, so
    each entry of [formatted_links.txt] has its payload on one line. *)
Theorem records_are_single_lines (content link : string) :
  In link (stripped_lines (PyStr.readlines content)) ->
  link <> "" /\ no_break link = true.
Proof.
  unfold stripped_lines. intros H. apply filter_In in H. destruct H as [H Hne].
  split.
  - intros ->. discriminate.
  - apply in_map_iff in H. destruct H as (line & <- & Hline).
    apply strip_line_no_break.
    apply (readlines_go_shape content "" eq_refl). exact Hline.
Qed.

Lemma records_are_single_lines_witness :
  "example.com" <> "" /\ no_break "example.com" = true.
Proof.
  apply (records_are_single_lines Demo.three_links "example.com").
  vm_compute. auto.
Defined.

(** ** The most frequent colour *)

Section MostFrequent.

Lemma rgb_eqb_eq (c d : rgb) : rgb_eqb c d = true <-> c = d.
Proof.
  destruct c as [[r1 g1] b1], d as [[r2 g2] b2]. unfold rgb_eqb.
  rewrite !andb_true_iff, !Z.eqb_eq. split.
  - intros [[-> ->] ->]. reflexivity.
  - intros H. inversion H. auto.
Qed.

Lemma rgb_eqb_refl (c : rgb) : rgb_eqb c c = true.
Proof. apply rgb_eqb_eq. reflexivity. Qed.

Lemma rgb_eqb_sym (c d : rgb) : rgb_eqb c d = rgb_eqb d c.
Proof.
  destruct (rgb_eqb c d) eqn:E.
  - apply rgb_eqb_eq in E. subst d. symmetry. apply rgb_eqb_refl.
  - destruct (rgb_eqb d c) eqn:E'; [|reflexivity].
    apply rgb_eqb_eq in E'. subst d. rewrite rgb_eqb_refl in E. discriminate.
Qed.

Lemma counter_add_count (p c : rgb) (counts : list (rgb * nat)) :
  count_of (counter_add p counts) c
  = (count_of counts c + if rgb_eqb p c then 1 else 0)%nat.
Proof.
  unfold count_of. induction counts as [|[k n] counts IH]; cbn [counter_add List.find fst snd].
  - destruct (rgb_eqb p c); reflexivity.
  - destruct (rgb_eqb k p) eqn:Ekp; cbn [List.find fst snd].
    + apply rgb_eqb_eq in Ekp. rewrite <- Ekp.
      destruct (rgb_eqb k c); cbn [snd]; lia.
    + destruct (rgb_eqb k c) eqn:Ekc; [|exact IH].
      apply rgb_eqb_eq in Ekc. rewrite <- Ekc, rgb_eqb_sym, Ekp. cbn [snd]. lia.
Qed.

Lemma Counter_count (pixels : list rgb) (c : rgb) :
  count_of (Counter pixels) c = occurrences c pixels.
Proof.
  unfold Counter, occurrences.
  assert (G : forall l acc,
            count_of (fold_left (fun counts q => counter_add q counts) l acc) c
            = (count_of acc c + length (List.filter (rgb_eqb c) l))%nat).
  { induction l as [|q l IH]; intros acc; cbn [fold_left List.filter length]; [lia|].
    rewrite IH, counter_add_count.
    destruct (rgb_eqb q c) eqn:E.
    - apply rgb_eqb_eq in E. subst q. rewrite rgb_eqb_refl. cbn [length]. lia.
    - destruct (rgb_eqb c q) eqn:E'; [|lia].
      apply rgb_eqb_eq in E'. subst q. rewrite rgb_eqb_refl in E. discriminate. }
  rewrite G. reflexivity.
Qed.

Lemma counter_add_NoDup (p : rgb) (counts : list (rgb * nat)) :
  List.NoDup (map fst counts) -> List.NoDup (map fst (counter_add p counts)).
Proof.
  induction counts as [|[k n] counts IH]; cbn [counter_add map fst]; intros H.
  - apply List.NoDup_cons; [intros [] | apply List.NoDup_nil].
  - destruct (rgb_eqb k p) eqn:E; cbn [map fst]; [exact H|].
    apply List.NoDup_cons_iff in H. destruct H as [Hk H].
    apply List.NoDup_cons; [|apply IH; exact H].
    intros Hin. apply counter_add_keys in Hin.
    destruct Hin as [->|Hin]; [|exact (Hk Hin)].
    rewrite rgb_eqb_refl in E. discriminate.
Qed.

Lemma Counter_NoDup (pixels : list rgb) : List.NoDup (map fst (Counter pixels)).
Proof.
  unfold Counter.
  assert (G : forall l acc, List.NoDup (map fst acc) ->
            List.NoDup (map fst (fold_left (fun counts q => counter_add q counts) l acc))).
  { induction l as [|q l IH]; intros acc H; cbn [fold_left]; [exact H|].
    apply IH. apply counter_add_NoDup. exact H. }
  apply G. apply List.NoDup_nil.
Qed.

Lemma count_of_entry (counts : list (rgb * nat)) (k : rgb) (n : nat) :
  List.NoDup (map fst counts) -> In (k, n) counts -> count_of counts k = n.
Proof.
  unfold count_of. induction counts as [|[k0 n0] counts IH]; intros Hnd Hin; [destruct Hin|].
  cbn [map fst] in Hnd. apply List.NoDup_cons_iff in Hnd. destruct Hnd as [Hk Hnd].
  cbn [List.find fst snd]. destruct Hin as [E|Hin].
  - inversion E; subst. rewrite rgb_eqb_refl. reflexivity.
  - destruct (rgb_eqb k0 k) eqn:E.
    + apply rgb_eqb_eq in E. subst k0. exfalso. apply Hk.
      apply (in_map fst) in Hin. exact Hin.
    + apply IH; assumption.
Qed.

Lemma count_of_zero_or_entry (counts : list (rgb * nat)) (c : rgb) :
  count_of counts c = 0%nat \/ In (c, count_of counts c) counts.
Proof.
  unfold count_of. destruct (List.find _ counts) as [[k n]|] eqn:F; [|left; reflexivity].
  right. apply find_some in F. destruct F as [Hin E]. cbn [fst snd] in *.
  apply rgb_eqb_eq in E. subst k. exact Hin.
Qed.

Lemma insert_by_count_In_inv (x y : rgb * nat) (sorted : list (rgb * nat)) :
  y = x \/ In y sorted -> In y (insert_by_count x sorted).
Proof.
  induction sorted as [|z sorted IH]; cbn [insert_by_count].
  - intros [->|[]]. left. reflexivity.
  - destruct (snd x <? snd z)%nat; cbn [In]; intros [->|[->|H]]; auto.
Qed.

(** The first entry of the sorted counts has the largest count. *)
Lemma sorted_head_max (counts : list (rgb * nat)) :
  match fold_right insert_by_count [] counts with
  | [] => counts = []
  | top :: _ => forall z, In z counts -> (snd z <= snd top)%nat
  end.
Proof.
  induction counts as [|x counts IH]; [reflexivity|].
  cbn [fold_right]. destruct (fold_right insert_by_count [] counts) as [|y sorted].
  - subst counts. cbn [insert_by_count]. intros z [<-|[]]. lia.
  - cbn [insert_by_count]. destruct (Nat.ltb_spec (snd x) (snd y)).
    + intros z [<-|Hz]; [lia | auto].
    + intros z [<-|Hz]; [lia|]. specialize (IH z Hz). lia.
Qed.

Variable get_palette : string -> nat -> result (list rgb).
Variable open_resized : string -> result (list rgb).

(** X28. Without the quantization library, for a logo that opens and
    [n >= 1] colours asked for, the first colour of the palette is a
    most frequent one among the pixels counted: those that are neither
    near white nor near black, or all pixels when there is no such
    pixel. *)
Theorem first_color_is_most_frequent (logo_path : string) (n : nat) (data : list rgb) :
  (1 <= n)%nat ->
  open_resized logo_path = Ok data -> data <> [] ->
  let pixels := List.filter (fun p => negb (near_white_or_black p)) data in
  let counted := match pixels with [] => data | _ => pixels end in
  exists first rest,
    extract_colors_from_logo false get_palette open_resized logo_path n = first :: rest
    /\ (1 <= occurrences first counted)%nat
    /\ forall c, (occurrences c counted <= occurrences first counted)%nat.
Proof.
  intros Hn Hopen Hdata pixels counted.
  unfold extract_colors_from_logo. rewrite Hopen. unfold fallback_palette.
  fold pixels. fold counted.
  assert (Hcounted : counted <> []).
  { unfold counted. destruct pixels; [exact Hdata | discriminate]. }
  pose proof (sorted_head_max (Counter counted)) as Hmax.
  pose proof (Counter_NoDup counted) as Hnd.
  assert (Hin : forall y, In y (fold_right insert_by_count [] (Counter counted)) ->
                          In y (Counter counted)).
  { intros y Hy. apply (most_common_In (length (fold_right insert_by_count [] (Counter counted)))).
    unfold most_common. rewrite firstn_all. exact Hy. }
  unfold most_common.
  destruct (fold_right insert_by_count [] (Counter counted)) as [|[color k] sorted] eqn:Es.
  { exfalso. destruct counted as [|q counted']; [congruence|].
    destruct (Counter_cons q counted') as (x & cs & E). rewrite E in Hmax. discriminate. }
  destruct (n * 5)%nat as [|m] eqn:Em; [lia|]. cbn [firstn].
  destruct (select_colors_first n color k (firstn m sorted)) as [rest Hsel]. rewrite Hsel.
  pose proof (select_colors_length n ((color, k) :: firstn m sorted) [] ltac:(simpl; lia)) as Hlen.
  rewrite Hsel in Hlen.
  rewrite pad_colors_fill by (simpl; lia).
  rewrite firstn_all2 by (rewrite length_app, repeat_length; lia).
  cbn [app]. eexists _, _. split; [reflexivity|].
  assert (Hk : occurrences color counted = k).
  { rewrite <- Counter_count. apply count_of_entry; [exact Hnd|].
    apply Hin. left. reflexivity. }
  assert (Hall : forall c, (occurrences c counted <= k)%nat).
  { intros c. rewrite <- Counter_count.
    destruct (count_of_zero_or_entry (Counter counted) c) as [->|Hc]; [lia|].
    exact (Hmax _ Hc). }
  rewrite Hk. split; [|exact Hall].
  destruct counted as [|q counted']; [congruence|].
  specialize (Hall q). unfold occurrences in Hall. cbn [List.filter] in Hall.
  rewrite rgb_eqb_refl in Hall. cbn [length] in Hall. lia.
Qed.

End MostFrequent.

(** The grey logo: its one colour comes first. *)
Lemma first_color_is_most_frequent_witness :
  exists rest,
    extract_colors_from_logo false Demo.no_color_thief Demo.open_resized "grey.png" 3
    = (100, 100, 100)%Z :: rest.
Proof.
  destruct (first_color_is_most_frequent Demo.no_color_thief Demo.open_resized "grey.png" 3
              (repeat (100, 100, 100)%Z (150 * 150)) ltac:(lia) eq_refl ltac:(discriminate))
    as (first & rest & E & _).
  exists rest. rewrite E. f_equal.
  assert (H : hd (0, 0, 0)%Z
                (extract_colors_from_logo false Demo.no_color_thief Demo.open_resized
                   "grey.png" 3) = (100, 100, 100)%Z) by (vm_compute; reflexivity).
  rewrite E in H. exact H.
Defined.

(** The second template added gets id 10. *)
Lemma stored_ids_stay_increasing_witness :
  ids_increasing
    (fst (add_template_dialog Demo.env (fun _ => "[...]")
            (Some {| name_edit := "Two"; desc_edit := ""; code_edit := "x = 1" |})
            (with_custom_templates
               [{| ct_id := 9; ct_name := "One"; ct_description := ""; ct_code := "x = 1" |}]
               Demo.window)
            (Demo.world_with ""))).
Proof.
  apply (proj2 (stored_ids_stay_increasing Demo.env (fun _ => "[...]")
                  (Some {| name_edit := "Two"; desc_edit := ""; code_edit := "x = 1" |})
                  (with_custom_templates
                     [{| ct_id := 9; ct_name := "One"; ct_description := "";
                         ct_code := "x = 1" |}] Demo.window)
                  (Demo.world_with ""))).
  split.
  - intros t [<-|[]]. reflexivity.
  - intros [|i] [|j] a b Hij Ha Hb; try lia; try (cbn in Hb; discriminate).
Defined.

(** The default quality, 0.7 as a double, and the default slider
    value 15: the preview is rendered at scale 10, as
    [round(15 * 0.7)] is. *)
Lemma preview_scale_bounds_witness :
  (5 <= preview_scale true (3152519739159347 # 4503599627370496) Demo.window <= 15)%Z
  /\ preview_scale true (3152519739159347 # 4503599627370496) Demo.window = 10%Z.
Proof.
  destruct (proj1 (preview_scale_bounds Demo.window true
                     (3152519739159347 # 4503599627370496)) eq_refl) as [L U].
  split; [split; [exact L|] | vm_compute; reflexivity].
  apply U.
  - split; discriminate.
  - simpl. lia.
Defined.

(** The default palette, stored and read back. *)
Lemma normalize_palette_idempotent_witness :
  normalize_palette (V := string) (Some (map stored_color (map Some default_palette))) false
  = map stored_color (map Some default_palette).
Proof.
  apply (proj2 (proj2 (normalize_palette_idempotent (V := string) None false))).
  - discriminate.
  - intros _ color Hc E. subst color. simpl in Hc. intuition discriminate.
Defined.

(** The preset Sunset, then a run over three records: the first card
    is drawn with the three colours of the preset. *)
Lemma theme_preset_sets_run_colors_witness :
  let sunset := [(255, 94, 77); (255, 154, 0); (237, 117, 57)]%Z in
  let p' := with_colors false [None; None; None] sunset Demo.window in
  on_theme_preset_changed "Sunset" "Custom" Demo.window = (Ok tt, (p', "Sunset"))
  /\ exists template_func f,
       get_template_function Demo.env p' = Ok template_func
       /\ disk (run Demo.env p' (Demo.world_with Demo.three_links))
            !! "qr_results/Modern Gradient_VPN 1.png" = Some f
       /\ card_of Demo.env p' template_func sunset 1 "https://a.example" f.
Proof.
  intros sunset p'.
  destruct (proj1 (theme_preset_sets_run_colors Demo.env "Sunset" "Custom" Demo.window)
              sunset eq_refl)
    as (p'' & H1 & _ & _ & _ & _ & Hrun).
  assert (E : p'' = p') by (inversion H1; reflexivity).
  subst p''. split; [exact H1|].
  destruct (Hrun (Demo.world_with Demo.three_links)
              (snd (job Demo.env p' (Demo.world_with Demo.three_links)))
              Demo.three_links demo_long_name_fresh
              ltac:(intros d j; discriminate) ltac:(reflexivity)
              ltac:(vm_compute; reflexivity) (or_introl eq_refl))
    as (template_func & Htf & Hcards).
  destruct (Hcards 0%nat "https://a.example" ltac:(vm_compute; reflexivity))
    as (f & Hf & Hcard).
  exists template_func, f. split; [exact Htf|]. split; [exact Hf | exact Hcard].
Defined.
